(** * AI gateway: crash-proof queue, auto-switcher and model manager

    A shallow embedding of
      - app/models/queue.py          (QueuedRequest, CrashProofQueue),
      - app/monitoring/auto_switcher.py (AutoSwitcher._check_and_switch),
      - app/monitoring/pattern_analyzer.py (PatternAnalyzer),
      - app/models/manager.py        (ModelManager, ModelInfo),
      - app/config.py                (_replace_env_vars),
    followed by the properties established about them.

    Conventions.
      - A Python [int] is a [Z]; a [str] is a [string]; [Optional[T]] is
        [option T].
      - A [datetime] is the number of microseconds since the epoch, a [Z];
        a [timedelta] is a difference of two such numbers.  A timeout of
        [t] seconds is compared as [t * 1000000] microseconds (the source
        compares the floating-point quotient [total_seconds()] with [t]).
      - [deque] is a [list] (head = left end).  A Python [dict] is an
        insertion-ordered association list with unique keys.
      - The outside world (clock, uuid generator, MongoDB) is an explicit
        [World] value threaded through every operation; what the world
        answers is fixed by an [Env] of oracles indexed by the number of
        calls made so far. *)

From Stdlib Require Import ZArith List String Ascii Bool Lia QArith Permutation.
Import ListNotations.

#[local] Open Scope string_scope.
#[local] Open Scope list_scope.
#[local] Open Scope Z_scope.

(* ===================================================================== *)
(** ** Insertion-ordered dictionaries with string keys *)
(* ===================================================================== *)

Module Dict.

Section WithValue.
Context {V : Type}.

Definition t := list (string * V).

(** [k in d] / [d.get(k)] *)
Fixpoint get (k : string) (d : t) : option V :=
  match d with
  | [] => None
  | (k', v) :: rest => if String.eqb k' k then Some v else get k rest
  end.

Definition mem (k : string) (d : t) : bool :=
  match get k d with Some _ => true | None => false end.

(** [d[k] = v]: an existing key keeps its position. *)
Fixpoint set (k : string) (v : V) (d : t) : t :=
  match d with
  | [] => [(k, v)]
  | (k', v') :: rest =>
      if String.eqb k' k then (k, v) :: rest else (k', v') :: set k v rest
  end.

(** [del d[k]], the state part of [d.pop(k)]. *)
Fixpoint remove (k : string) (d : t) : t :=
  match d with
  | [] => []
  | (k', v') :: rest =>
      if String.eqb k' k then rest else (k', v') :: remove k rest
  end.

(** [d.pop(k)]: [None] stands for [KeyError]. *)
Definition pop (k : string) (d : t) : option (V * t) :=
  match get k d with
  | Some v => Some (v, remove k d)
  | None => None
  end.

Definition keys (d : t) : list string := map fst d.
Definition values (d : t) : list V := map snd d.

(** [len(d)] *)
Definition len (d : t) : Z := Z.of_nat (List.length d).

End WithValue.

Arguments t : clear implicits.

End Dict.

(* ===================================================================== *)
(** ** The outside world *)
(* ===================================================================== *)

(** Request status states ([RequestStatus]) *)
Inductive RequestStatus :=
| QUEUED | PROCESSING | COMPLETED | FAILED | TIMEOUT | CANCELLED.

(** Request priority levels ([Priority]) *)
Inductive Priority := LOW | NORMAL | HIGH.

Definition RequestStatus_value (s : RequestStatus) : string :=
  match s with
  | QUEUED => "queued"
  | PROCESSING => "processing"
  | COMPLETED => "completed"
  | FAILED => "failed"
  | TIMEOUT => "timeout"
  | CANCELLED => "cancelled"
  end.

Definition Priority_value (p : Priority) : string :=
  match p with
  | LOW => "low"
  | NORMAL => "normal"
  | HIGH => "high"
  end.

(** [RequestStatus(s)]: [None] stands for [ValueError]. *)
Definition RequestStatus_of (s : string) : option RequestStatus :=
  if String.eqb s "queued" then Some QUEUED
  else if String.eqb s "processing" then Some PROCESSING
  else if String.eqb s "completed" then Some COMPLETED
  else if String.eqb s "failed" then Some FAILED
  else if String.eqb s "timeout" then Some TIMEOUT
  else if String.eqb s "cancelled" then Some CANCELLED
  else None.

(** [Priority(s)]: [None] stands for [ValueError]. *)
Definition Priority_of (s : string) : option Priority :=
  if String.eqb s "low" then Some LOW
  else if String.eqb s "normal" then Some NORMAL
  else if String.eqb s "high" then Some HIGH
  else None.

Definition RequestStatus_eqb (a b : RequestStatus) : bool :=
  String.eqb (RequestStatus_value a) (RequestStatus_value b).

(** A document of the [queue_state] collection: the dictionary written by
    [QueuedRequest.to_dict], enums as their string values, timestamps as
    the instants their ISO strings denote.  A document holds the keys of
    the dataclass and no other; keys a store would add on its own account
    are outside the model. *)
Record Doc := mkDoc {
  d_request_id : string;
  d_model_name : string;
  d_task_type : string;
  d_client_id : string;
  d_payload : string;
  d_priority : string;
  d_status : string;
  d_created_at : Z;
  d_started_at : option Z;
  d_completed_at : option Z;
  d_timeout_seconds : Z;
  d_retry_count : Z;
  d_max_retries : Z;
  d_error : option string;
  d_result : option string
}.

(** What has happened outside so far.  [collection] is the content of the
    [queue_state] collection in natural order; [db_log] lists the
    documents handed to [update_one], oldest first, whether or not the
    write went through; [clock_reads] and [uuid_calls] count the calls of
    [datetime.utcnow] and [uuid.uuid4]. *)
Record World := mkWorld {
  collection : list Doc;
  db_log : list Doc;
  clock_reads : nat;
  uuid_calls : nat
}.

(** What the outside answers: the n-th clock reading, the n-th uuid, and
    whether the n-th [update_one] succeeds ([false]: it raises). *)
Record Env := mkEnv {
  utcnow : nat -> Z;
  uuid4 : nat -> string;
  update_one_ok : nat -> bool
}.

Definition empty_world : World := mkWorld [] [] 0 0.

Definition read_clock (env : Env) (w : World) : Z * World :=
  (utcnow env (clock_reads w),
   mkWorld (collection w) (db_log w) (S (clock_reads w)) (uuid_calls w)).

Definition draw_uuid (env : Env) (w : World) : string * World :=
  (uuid4 env (uuid_calls w),
   mkWorld (collection w) (db_log w) (clock_reads w) (S (uuid_calls w))).

(** [collection.update_one({"request_id": id}, {"$set": doc}, upsert=True)]
    on the stored documents: the first document with that id is replaced
    (every field is in the [$set]), and a new one is appended if none
    matches. *)
Fixpoint update_one (d : Doc) (c : list Doc) : list Doc :=
  match c with
  | [] => [d]
  | x :: rest =>
      if String.eqb (d_request_id x) (d_request_id d)
      then d :: rest
      else x :: update_one d rest
  end.

(** [collection.find_one({"request_id": id})] *)
Fixpoint find_one (request_id : string) (c : list Doc) : option Doc :=
  match c with
  | [] => None
  | x :: rest =>
      if String.eqb (d_request_id x) request_id then Some x
      else find_one request_id rest
  end.

(** The filter [{"model_name": m, "status": {"$in": [QUEUED, PROCESSING]}}] *)
Definition matches_pending (model : string) (x : Doc) : bool :=
  String.eqb (d_model_name x) model
  && (String.eqb (d_status x) (RequestStatus_value QUEUED)
      || String.eqb (d_status x) (RequestStatus_value PROCESSING)).

(** [collection.find] with that filter: the matching documents in
    natural order. *)
Definition find_pending (model : string) (c : list Doc) : list Doc :=
  filter (matches_pending model) c.

(* ===================================================================== *)
(** ** app/models/queue.py: QueuedRequest *)
(* ===================================================================== *)

Module QueuedRequest.

(** Represents a queued request with crash recovery data.  [payload],
    [error] and [result] are opaque to the queue. *)
Record t := mk {
  request_id : string;
  model_name : string;
  task_type : string;
  client_id : string;
  payload : string;
  priority : Priority;
  status : RequestStatus;
  created_at : Z;
  started_at : option Z;
  completed_at : option Z;
  timeout_seconds : Z;
  retry_count : Z;
  max_retries : Z;
  error : option string;
  result : option string
}.

Definition set_status (v : RequestStatus) (r : t) : t :=
  mk (request_id r) (model_name r) (task_type r) (client_id r) (payload r)
     (priority r) v (created_at r) (started_at r) (completed_at r)
     (timeout_seconds r) (retry_count r) (max_retries r) (error r) (result r).

Definition set_started_at (v : option Z) (r : t) : t :=
  mk (request_id r) (model_name r) (task_type r) (client_id r) (payload r)
     (priority r) (status r) (created_at r) v (completed_at r)
     (timeout_seconds r) (retry_count r) (max_retries r) (error r) (result r).

Definition set_completed_at (v : option Z) (r : t) : t :=
  mk (request_id r) (model_name r) (task_type r) (client_id r) (payload r)
     (priority r) (status r) (created_at r) (started_at r) v
     (timeout_seconds r) (retry_count r) (max_retries r) (error r) (result r).

Definition set_retry_count (v : Z) (r : t) : t :=
  mk (request_id r) (model_name r) (task_type r) (client_id r) (payload r)
     (priority r) (status r) (created_at r) (started_at r) (completed_at r)
     (timeout_seconds r) v (max_retries r) (error r) (result r).

Definition set_error (v : option string) (r : t) : t :=
  mk (request_id r) (model_name r) (task_type r) (client_id r) (payload r)
     (priority r) (status r) (created_at r) (started_at r) (completed_at r)
     (timeout_seconds r) (retry_count r) (max_retries r) v (result r).

Definition set_result (v : option string) (r : t) : t :=
  mk (request_id r) (model_name r) (task_type r) (client_id r) (payload r)
     (priority r) (status r) (created_at r) (started_at r) (completed_at r)
     (timeout_seconds r) (retry_count r) (max_retries r) (error r) v.

(** Convert to dictionary for MongoDB storage *)
Definition to_dict (self : t) : Doc :=
  mkDoc (request_id self) (model_name self) (task_type self) (client_id self)
        (payload self)
        (Priority_value (priority self)) (RequestStatus_value (status self))
        (created_at self) (started_at self) (completed_at self)
        (timeout_seconds self) (retry_count self) (max_retries self)
        (error self) (result self).

(** Create from dictionary (MongoDB recovery); [None] stands for the
    exception raised on a value that is no member of its enum. *)
Definition from_dict (data : Doc) : option t :=
  match Priority_of (d_priority data) with
  | None => None
  | Some prio =>
      match RequestStatus_of (d_status data) with
      | None => None
      | Some st =>
          Some (mk (d_request_id data) (d_model_name data) (d_task_type data)
                   (d_client_id data) (d_payload data) prio st
                   (d_created_at data) (d_started_at data)
                   (d_completed_at data) (d_timeout_seconds data)
                   (d_retry_count data) (d_max_retries data)
                   (d_error data) (d_result data))
      end
  end.

(** Check if request has timed out.  The clock is read only when
    [started_at] is set. *)
Definition is_timeout (env : Env) (w : World) (self : t) : bool * World :=
  match started_at self with
  | None => (false, w)
  | Some s =>
      let (now, w1) := read_clock env w in
      (now - s >? timeout_seconds self * 1000000, w1)
  end.

End QueuedRequest.

(* ===================================================================== *)
(** ** app/models/queue.py: CrashProofQueue *)
(* ===================================================================== *)

(** Raised when queue is at capacity *)
Inductive QueueFullError := QueueFull (msg : string).

Module CrashProofQueue.

(** The fields of a [CrashProofQueue] object ([recovery_task], a handle on
    the background task, and the collection handle are left out: the
    collection's content lives in the [World]). *)
Record t := mk {
  model_name : string;
  max_concurrent : Z;
  max_waiting : Z;
  processing : Dict.t QueuedRequest.t;
  waiting : list QueuedRequest.t;
  total_processed : Z;
  total_failed : Z;
  total_timeout : Z;
  is_running : bool
}.

(** [__init__] *)
Definition init (model_name : string) (max_concurrent max_waiting : Z) : t :=
  mk model_name max_concurrent max_waiting [] [] 0 0 0 false.

Definition set_processing (v : Dict.t QueuedRequest.t) (q : t) : t :=
  mk (model_name q) (max_concurrent q) (max_waiting q) v (waiting q)
     (total_processed q) (total_failed q) (total_timeout q) (is_running q).

Definition set_waiting (v : list QueuedRequest.t) (q : t) : t :=
  mk (model_name q) (max_concurrent q) (max_waiting q) (processing q) v
     (total_processed q) (total_failed q) (total_timeout q) (is_running q).

Definition set_total_processed (v : Z) (q : t) : t :=
  mk (model_name q) (max_concurrent q) (max_waiting q) (processing q)
     (waiting q) v (total_failed q) (total_timeout q) (is_running q).

Definition set_total_failed (v : Z) (q : t) : t :=
  mk (model_name q) (max_concurrent q) (max_waiting q) (processing q)
     (waiting q) (total_processed q) v (total_timeout q) (is_running q).

Definition set_total_timeout (v : Z) (q : t) : t :=
  mk (model_name q) (max_concurrent q) (max_waiting q) (processing q)
     (waiting q) (total_processed q) (total_failed q) v (is_running q).

Definition set_is_running (v : bool) (q : t) : t :=
  mk (model_name q) (max_concurrent q) (max_waiting q) (processing q)
     (waiting q) (total_processed q) (total_failed q) (total_timeout q) v.

(** [priority_order = {Priority.HIGH: 0, Priority.NORMAL: 1, Priority.LOW: 2}] *)
Definition priority_order (p : Priority) : Z :=
  match p with
  | HIGH => 0
  | NORMAL => 1
  | LOW => 2
  end.

(** Insert request into waiting queue sorted by priority: before the
    first waiting request of strictly lower priority, at the right end if
    there is none. *)
Fixpoint insert_into (request : QueuedRequest.t)
    (waiting : list QueuedRequest.t) : list QueuedRequest.t :=
  match waiting with
  | [] => [request]
  | existing :: rest =>
      if priority_order (QueuedRequest.priority request)
         <? priority_order (QueuedRequest.priority existing)
      then request :: existing :: rest
      else existing :: insert_into request rest
  end.

Definition _insert_by_priority (self : t) (request : QueuedRequest.t) : t :=
  set_waiting (insert_into request (waiting self)) self.

(** Persist request to database.  The exception of a failed write is
    caught and logged: the collection keeps its content. *)
Definition _persist_request (env : Env) (w : World)
    (request : QueuedRequest.t) : World :=
  let d := QueuedRequest.to_dict request in
  mkWorld (if update_one_ok env (List.length (db_log w))
           then update_one d (collection w)
           else collection w)
          (db_log w ++ [d]) (clock_reads w) (uuid_calls w).

(** Add request to queue.  [inl]: [QueueFullError] is raised. *)
Definition enqueue (env : Env) (self : t) (w : World)
    (payload task_type client_id : string) (priority : Priority)
    (timeout : Z) : (QueueFullError + string) * t * World :=
  if Z.of_nat (List.length (waiting self)) >=? max_waiting self then
    (inl (QueueFull ("Queue full for " ++ model_name self)%string), self, w)
  else
    let (rid, w1) := draw_uuid env w in
    let (now, w2) := read_clock env w1 in
    let request :=
      QueuedRequest.mk rid (model_name self) task_type client_id payload
                       priority QUEUED now None None timeout 0 3 None None in
    let self1 := _insert_by_priority self request in
    let w3 := _persist_request env w2 request in
    (inr (QueuedRequest.request_id request), self1, w3).

(** Get next request from queue for processing *)
Definition dequeue (env : Env) (self : t) (w : World)
    : option QueuedRequest.t * t * World :=
  if Dict.len (processing self) >=? max_concurrent self then (None, self, w)
  else
    match waiting self with
    | [] => (None, self, w)
    | request :: rest =>
        let self1 := set_waiting rest self in
        let request := QueuedRequest.set_status PROCESSING request in
        let (now, w1) := read_clock env w in
        let request := QueuedRequest.set_started_at (Some now) request in
        let self2 :=
          set_processing
            (Dict.set (QueuedRequest.request_id request) request
                      (processing self1)) self1 in
        let w2 := _persist_request env w1 request in
        (Some request, self2, w2)
    end.

(** Mark request as completed *)
Definition complete (env : Env) (self : t) (w : World)
    (request_id : string) (result : option string) : t * World :=
  match Dict.pop request_id (processing self) with
  | None => (self, w)
  | Some (request, processing1) =>
      let self1 := set_processing processing1 self in
      let request := QueuedRequest.set_status COMPLETED request in
      let (now, w1) := read_clock env w in
      let request := QueuedRequest.set_completed_at (Some now) request in
      let request := QueuedRequest.set_result result request in
      let self2 := set_total_processed (total_processed self1 + 1) self1 in
      let w2 := _persist_request env w1 request in
      (self2, w2)
  end.

(** Mark request as failed and retry if possible *)
Definition fail (env : Env) (self : t) (w : World)
    (request_id : string) (error : string) : t * World :=
  match Dict.pop request_id (processing self) with
  | None => (self, w)
  | Some (request, processing1) =>
      let self1 := set_processing processing1 self in
      let request := QueuedRequest.set_error (Some error) request in
      let request :=
        QueuedRequest.set_retry_count
          (QueuedRequest.retry_count request + 1) request in
      if QueuedRequest.retry_count request <? QueuedRequest.max_retries request
      then
        let request := QueuedRequest.set_status QUEUED request in
        let request := QueuedRequest.set_started_at None request in
        let self2 := _insert_by_priority self1 request in
        (self2, _persist_request env w request)
      else
        let request := QueuedRequest.set_status FAILED request in
        let (now, w1) := read_clock env w in
        let request := QueuedRequest.set_completed_at (Some now) request in
        let self2 := set_total_failed (total_failed self1 + 1) self1 in
        (self2, _persist_request env w1 request)
  end.

(** Get status of a request: the processing table, then the waiting room,
    then the database. *)
Definition get_status (self : t) (w : World) (request_id : string)
    : option Doc :=
  match Dict.get request_id (processing self) with
  | Some request => Some (QueuedRequest.to_dict request)
  | None =>
      match find (fun req => String.eqb (QueuedRequest.request_id req)
                                        request_id) (waiting self) with
      | Some req => Some (QueuedRequest.to_dict req)
      | None => find_one request_id (collection w)
      end
  end.

(** The dictionary returned by [get_metrics]; [utilization] is the exact
    quotient. *)
Record Metrics := mkMetrics {
  m_model : string;
  m_processing : Z;
  m_waiting : Z;
  m_max_concurrent : Z;
  m_max_waiting : Z;
  m_total_processed : Z;
  m_total_failed : Z;
  m_total_timeout : Z;
  m_utilization : Q
}.

(** Get queue metrics *)
Definition get_metrics (self : t) : Metrics :=
  mkMetrics (model_name self)
            (Dict.len (processing self))
            (Z.of_nat (List.length (waiting self)))
            (max_concurrent self) (max_waiting self)
            (total_processed self) (total_failed self) (total_timeout self)
            (if max_concurrent self >? 0
             then Qmake (Dict.len (processing self))
                        (Z.to_pos (max_concurrent self))
             else Qmake 0 1).

(** The body of the [async for doc in cursor] loop of
    [recover_from_crash]; a document that [from_dict] rejects is logged
    and skipped. *)
Definition recover_doc (env : Env) (acc : t * World) (doc : Doc)
    : t * World :=
  let (self, w) := acc in
  match QueuedRequest.from_dict doc with
  | None => (self, w)
  | Some request =>
      let request :=
        if RequestStatus_eqb (QueuedRequest.status request) PROCESSING then
          let request := QueuedRequest.set_status QUEUED request in
          let request := QueuedRequest.set_started_at None request in
          QueuedRequest.set_retry_count
            (QueuedRequest.retry_count request + 1) request
        else request in
      if QueuedRequest.retry_count request <? QueuedRequest.max_retries request
      then (_insert_by_priority self request, w)
      else
        let request := QueuedRequest.set_status FAILED request in
        (self, _persist_request env w request)
  end.

(** Recover pending requests from database after crash.  The cursor is
    the list of matching documents at the time of the query. *)
Definition recover_from_crash (env : Env) (self : t) (w : World)
    : t * World :=
  fold_left (recover_doc env)
            (find_pending (model_name self) (collection w))
            (self, w).

(** First loop of a pass of [_recovery_loop]: the ids of the processing
    requests for which [is_timeout] answers [True]. *)
Fixpoint collect_timeouts (env : Env) (w : World)
    (items : list (string * QueuedRequest.t)) : list string * World :=
  match items with
  | [] => ([], w)
  | (request_id, request) :: rest =>
      let (expired, w1) := QueuedRequest.is_timeout env w request in
      let (ids, w2) := collect_timeouts env w1 rest in
      (if expired then request_id :: ids else ids, w2)
  end.

(** Second loop of a pass: every collected id is popped, marked TIMEOUT
    and persisted.  A [KeyError] of [pop] ends the pass (it is caught by
    the [try] around both loops). *)
Fixpoint handle_timeouts (env : Env) (self : t) (w : World)
    (timeout_ids : list string) : t * World :=
  match timeout_ids with
  | [] => (self, w)
  | request_id :: rest =>
      match Dict.pop request_id (processing self) with
      | None => (self, w)
      | Some (request, processing1) =>
          let self1 := set_processing processing1 self in
          let request := QueuedRequest.set_status TIMEOUT request in
          let (now, w1) := read_clock env w in
          let request := QueuedRequest.set_completed_at (Some now) request in
          let self2 := set_total_timeout (total_timeout self1 + 1) self1 in
          let w2 := _persist_request env w1 request in
          handle_timeouts env self2 w2 rest
      end
  end.

(** One pass of the background task, after its [sleep(60)]. *)
Definition check_timeouts (env : Env) (self : t) (w : World) : t * World :=
  let (timeout_ids, w1) := collect_timeouts env w (processing self) in
  handle_timeouts env self w1 timeout_ids.

(** Background task to check for timeouts: [rounds] passes of
    [while self.is_running] (the task only ends by cancellation). *)
Fixpoint _recovery_loop (env : Env) (rounds : nat) (self : t) (w : World)
    : t * World :=
  match rounds with
  | O => (self, w)
  | S n =>
      if is_running self then
        let (self1, w1) := check_timeouts env self w in
        _recovery_loop env n self1 w1
      else (self, w)
  end.

(** Persist all pending requests *)
Definition _persist_all (env : Env) (self : t) (w : World) : World :=
  fold_left (_persist_request env)
            (Dict.values (processing self) ++ waiting self) w.

(** Start the queue and recovery system (the background task is started
    by the caller of this model, see [_recovery_loop]). *)
Definition start (env : Env) (self : t) (w : World) : t * World :=
  recover_from_crash env (set_is_running true self) w.

(** Stop the queue gracefully *)
Definition stop (env : Env) (self : t) (w : World) : t * World :=
  let self1 := set_is_running false self in
  (self1, _persist_all env self1 w).

End CrashProofQueue.

(* ===================================================================== *)
(** ** Sequences of queue operations *)
(* ===================================================================== *)

(** A call made by a client or worker of one queue. *)
Inductive Op :=
| Enqueue (payload task_type client_id : string) (priority : Priority)
          (timeout : Z)
| Dequeue
| Complete (request_id : string) (result : option string)
| Fail (request_id : string) (error : string).

(** What a call hands back to its caller. *)
Inductive Outcome :=
| Enqueued (request_id : string)
| Rejected (e : QueueFullError)
| Dispatched (request : QueuedRequest.t)
| Nothing
| Done.

Definition step (env : Env) (o : Op) (self : CrashProofQueue.t) (w : World)
    : Outcome * CrashProofQueue.t * World :=
  match o with
  | Enqueue payload task_type client_id priority timeout =>
      match CrashProofQueue.enqueue env self w payload task_type client_id
                                    priority timeout with
      | (inr rid, self1, w1) => (Enqueued rid, self1, w1)
      | (inl e, self1, w1) => (Rejected e, self1, w1)
      end
  | Dequeue =>
      match CrashProofQueue.dequeue env self w with
      | (Some request, self1, w1) => (Dispatched request, self1, w1)
      | (None, self1, w1) => (Nothing, self1, w1)
      end
  | Complete request_id result =>
      let (self1, w1) := CrashProofQueue.complete env self w request_id result in
      (Done, self1, w1)
  | Fail request_id error =>
      let (self1, w1) := CrashProofQueue.fail env self w request_id error in
      (Done, self1, w1)
  end.

(** Run the calls in order; the outcomes are listed oldest first. *)
Fixpoint run (env : Env) (ops : list Op) (self : CrashProofQueue.t)
    (w : World) : list Outcome * CrashProofQueue.t * World :=
  match ops with
  | [] => ([], self, w)
  | o :: rest =>
      match step env o self w with
      | (out, self1, w1) =>
          match run env rest self1 w1 with
          | (outs, self2, w2) => (out :: outs, self2, w2)
          end
      end
  end.

Definition queue_after (env : Env) (ops : list Op) (self : CrashProofQueue.t)
    (w : World) : CrashProofQueue.t :=
  snd (fst (run env ops self w)).

Definition world_after (env : Env) (ops : list Op) (self : CrashProofQueue.t)
    (w : World) : World :=
  snd (run env ops self w).

Definition outcomes (env : Env) (ops : list Op) (self : CrashProofQueue.t)
    (w : World) : list Outcome :=
  fst (fst (run env ops self w)).

(** The ids of the requests handed out by [dequeue], in order. *)
Definition dispatch_order (outs : list Outcome) : list string :=
  flat_map (fun o => match o with
                     | Dispatched r => [QueuedRequest.request_id r]
                     | _ => []
                     end) outs.

(** A worker that fails whatever it is handed: one [dequeue], then [fail]
    on the request it returned.  The id is reported when a request was
    dispatched. *)
Definition dispatch_and_fail (env : Env) (error : string)
    (self : CrashProofQueue.t) (w : World)
    : option string * CrashProofQueue.t * World :=
  match CrashProofQueue.dequeue env self w with
  | (Some request, self1, w1) =>
      let rid := QueuedRequest.request_id request in
      let (self2, w2) := CrashProofQueue.fail env self1 w1 rid error in
      (Some rid, self2, w2)
  | (None, self1, w1) => (None, self1, w1)
  end.

(** [n] rounds of [dispatch_and_fail]; the dispatched ids, oldest first. *)
Fixpoint failing_worker (env : Env) (error : string) (n : nat)
    (self : CrashProofQueue.t) (w : World)
    : list string * CrashProofQueue.t * World :=
  match n with
  | O => ([], self, w)
  | S k =>
      match dispatch_and_fail env error self w with
      | (got, self1, w1) =>
          match failing_worker env error k self1 w1 with
          | (ids, self2, w2) =>
              (match got with Some rid => rid :: ids | None => ids end,
               self2, w2)
          end
      end
  end.

(** A worker that completes whatever it is handed at once. *)
Definition dispatch_and_complete (env : Env) (self : CrashProofQueue.t)
    (w : World) : option string * CrashProofQueue.t * World :=
  match CrashProofQueue.dequeue env self w with
  | (Some request, self1, w1) =>
      let rid := QueuedRequest.request_id request in
      let (self2, w2) := CrashProofQueue.complete env self1 w1 rid None in
      (Some rid, self2, w2)
  | (None, self1, w1) => (None, self1, w1)
  end.

Fixpoint completing_worker (env : Env) (n : nat)
    (self : CrashProofQueue.t) (w : World)
    : list string * CrashProofQueue.t * World :=
  match n with
  | O => ([], self, w)
  | S k =>
      match dispatch_and_complete env self w with
      | (got, self1, w1) =>
          match completing_worker env k self1 w1 with
          | (ids, self2, w2) =>
              (match got with Some rid => rid :: ids | None => ids end,
               self2, w2)
          end
      end
  end.

(* ===================================================================== *)
(** ** app/monitoring/auto_switcher.py *)
(* ===================================================================== *)

Module AutoSwitcher.

(** [AutoSwitchConfig] of app/config.py *)
Record AutoSwitchConfig := mkConfig {
  enabled : bool;
  pattern_window_days : Z;
  min_requests_for_switch : Z;
  switch_cooldown_minutes : Z
}.

(** The fields of an [AutoSwitcher]; [queues] is the dictionary shared
    with the application, read at the time of the call. *)
Record t := mk {
  config : AutoSwitchConfig;
  queues : Dict.t CrashProofQueue.t;
  last_switch : option Z;
  running : bool
}.

Definition set_last_switch (v : option Z) (a : t) : t :=
  mk (config a) (queues a) v (running a).

(** The collaborators of one [_check_and_switch]: the model the manager
    reports as current, the answer of
    [pattern_analyzer.should_switch_model], and the answer of
    [model_manager.switch_model]. *)
Record Collaborators := mkCollab {
  current_model : option string;
  should_switch_model : option string -> option string;
  switch_model : string -> bool
}.

(** A call made on the model manager. *)
Inductive Call := SwitchModel (target : string).

(** [timedelta(minutes=m)] *)
Definition minutes (m : Z) : Z := m * 60 * 1000000.

(** Check if all queues are idle (no processing requests) *)
Fixpoint all_idle (qs : list CrashProofQueue.t) : bool :=
  match qs with
  | [] => true
  | queue :: rest =>
      let metrics := CrashProofQueue.get_metrics queue in
      if CrashProofQueue.m_processing metrics >? 0 then false
      else all_idle rest
  end.

Definition _are_queues_idle (self : t) : bool :=
  all_idle (Dict.values (queues self)).

(** The part of [_check_and_switch] after the cooldown test. *)
Definition switch_if_recommended (env : Env) (c : Collaborators) (self : t)
    (w : World) : t * World * list Call :=
  let current := current_model c in
  match should_switch_model c current with
  | None => (self, w, [])
  | Some recommended =>
      if String.eqb recommended EmptyString then (self, w, [])
      else if negb (_are_queues_idle self) then (self, w, [])
      else
        let success := switch_model c recommended in
        if success then
          let (now, w1) := read_clock env w in
          (set_last_switch (Some now) self, w1, [SwitchModel recommended])
        else (self, w, [SwitchModel recommended])
  end.

(** Check patterns and switch if needed; the calls made on the model
    manager are returned. *)
Definition _check_and_switch (env : Env) (c : Collaborators) (self : t)
    (w : World) : t * World * list Call :=
  match last_switch self with
  | Some last =>
      let (now, w1) := read_clock env w in
      let time_since_switch := now - last in
      let cooldown := minutes (switch_cooldown_minutes (config self)) in
      if time_since_switch <? cooldown then (self, w1, [])
      else switch_if_recommended env c self w1
  | None => switch_if_recommended env c self w
  end.

End AutoSwitcher.

(* ===================================================================== *)
(** ** app/models/manager.py: stopping a model *)
(* ===================================================================== *)

Module ModelManager.

(** Model status states *)
Inductive ModelStatus := STOPPED | STARTING | RUNNING | STOPPING | ERROR.

(** DeepSeek-OCR resolution modes *)
Inductive OCRResolution := TINY | SMALL | BASE | LARGE | GUNDAM.

Definition ModelStatus_eqb (a b : ModelStatus) : bool :=
  match a, b with
  | STOPPED, STOPPED | STARTING, STARTING | RUNNING, RUNNING
  | STOPPING, STOPPING | ERROR, ERROR => true
  | _, _ => false
  end.

(** [ModelConfig] of app/config.py *)
Record ModelConfig := mkConfig {
  name : string;
  port : Z;
  gpu_memory : Q;
  max_model_len : Z;
  max_concurrent : Z;
  enabled : bool;
  resolution_mode : option string
}.

(** Stores information about a model instance; [process] is the pid of
    the child behind the [Popen] handle. *)
Record ModelInfo := mkInfo {
  info_name : string;
  info_config : ModelConfig;
  status : ModelStatus;
  process : option Z;
  started_at : option Z;
  stopped_at : option Z;
  current_resolution : option OCRResolution
}.

Record t := mk {
  models : Dict.t ModelInfo;
  current_model : option string
}.

(** What [stop_model] does to the outside, in order. *)
Inductive Event :=
| ActiveRequests (model_name : string) (answer : Z)
| Sleep (seconds : Z)
| WarnGracefulTimeout (model_name : string)
| Terminate (pid : Z)
| Wait (pid : Z) (timeout : option Z)
| Kill (pid : Z)
| Pkill (pattern : string).

(** The operating system as [stop_model] sees it: the n-th reading of
    [time.time()] (microseconds), whether [process.wait(timeout=10)]
    raises [TimeoutExpired], and whether killing the process raises
    another exception. *)
Record Os := mkOs {
  time_time : nat -> Z;
  wait_expires : bool;
  kill_raises : bool
}.

(** The side of the world [stop_model] touches: clock readings made and
    the events so far, oldest first. *)
Record Trace := mkTrace {
  time_reads : nat;
  events : list Event
}.

Definition read_time (os : Os) (tr : Trace) : Z * Trace :=
  (time_time os (time_reads tr), mkTrace (S (time_reads tr)) (events tr)).

Definition emit (e : Event) (tr : Trace) : Trace :=
  mkTrace (time_reads tr) (events tr ++ [e]).

Definition seconds (s : Z) : Z := s * 1000000.

(** Get number of active requests for a model: the placeholder of the
    source. *)
Definition _get_active_requests (self : t) (model_name : string) : Z := 0.

(** The [while time.time() - start_time < timeout] loop of a graceful
    stop.  [None]: the loop is still running when [fuel] is used up. *)
Fixpoint drain_wait (fuel : nat) (os : Os) (self : t) (model_name : string)
    (start_time timeout : Z) (tr : Trace) : option Trace :=
  match fuel with
  | O => None
  | S k =>
      let (now, tr1) := read_time os tr in
      if now - start_time <? seconds timeout then
        let active_requests := _get_active_requests self model_name in
        let tr2 := emit (ActiveRequests model_name active_requests) tr1 in
        if active_requests =? 0 then Some tr2
        else drain_wait k os self model_name start_time timeout
                        (emit (Sleep 1) tr2)
      else Some tr1
  end.

Definition set_info (model_name : string) (i : ModelInfo) (self : t) : t :=
  mk (Dict.set model_name i (models self)) (current_model self).

Definition set_status (v : ModelStatus) (i : ModelInfo) : ModelInfo :=
  mkInfo (info_name i) (info_config i) v (process i) (started_at i)
         (stopped_at i) (current_resolution i).

(** Stop a model.  The result is [None] when the drain loop outlives
    [fuel], and otherwise the returned boolean, the manager and the trace
    afterwards.  [now] is the [datetime.utcnow()] stored in [stopped_at]. *)
Definition stop_model (fuel : nat) (os : Os) (now : Z) (self : t)
    (tr : Trace) (model_name : string) (graceful : bool) (timeout : Z)
    : option (bool * t * Trace) :=
  match Dict.get model_name (models self) with
  | None => Some (false, self, tr)
  | Some model_info =>
      if ModelStatus_eqb (status model_info) STOPPED then Some (true, self, tr)
      else
        let model_info := set_status STOPPING model_info in
        let drained :=
          if graceful then
            let (start_time, tr1) := read_time os tr in
            match drain_wait fuel os self model_name start_time timeout tr1 with
            | None => None
            | Some tr2 =>
                let (now2, tr3) := read_time os tr2 in
                if now2 - start_time >=? seconds timeout
                then Some (emit (WarnGracefulTimeout model_name) tr3)
                else Some tr3
            end
          else Some tr in
        match drained with
        | None => None
        | Some tr4 =>
            if kill_raises os then
              Some (false, set_info model_name (set_status ERROR model_info) self, tr4)
            else
              let tr5 :=
                match process model_info with
                | Some pid =>
                    let tr' := emit (Wait pid (Some 10)) (emit (Terminate pid) tr4) in
                    if wait_expires os
                    then emit (Wait pid None) (emit (Kill pid) tr')
                    else tr'
                | None => tr4
                end in
              let tr6 := emit (Pkill (name (info_config model_info))) tr5 in
              let model_info :=
                mkInfo (info_name model_info) (info_config model_info) STOPPED
                       None (started_at model_info) (Some now)
                       (current_resolution model_info) in
              let self1 := set_info model_name model_info self in
              let self2 :=
                match current_model self1 with
                | Some cur =>
                    if String.eqb cur model_name
                    then mk (models self1) None else self1
                | None => self1
                end in
              Some (true, self2, tr6)
        end
  end.

(** The polls of the active-request hook seen in a trace. *)
Definition polls (evs : list Event) : list Z :=
  flat_map (fun e => match e with ActiveRequests _ n => [n] | _ => [] end) evs.

Definition sleeps (evs : list Event) : list Z :=
  flat_map (fun e => match e with Sleep s => [s] | _ => [] end) evs.


(** The values of [OCRResolution]; [None] stands for [ValueError]. *)
Definition OCRResolution_of (s : string) : option OCRResolution :=
  if String.eqb s "tiny" then Some TINY
  else if String.eqb s "small" then Some SMALL
  else if String.eqb s "base" then Some BASE
  else if String.eqb s "large" then Some LARGE
  else if String.eqb s "gundam" then Some GUNDAM
  else None.

Definition OCRResolution_eqb (a b : OCRResolution) : bool :=
  match a, b with
  | TINY, TINY | SMALL, SMALL | BASE, BASE | LARGE, LARGE
  | GUNDAM, GUNDAM => true
  | _, _ => false
  end.

(** [ModelInfo.__init__]: the default resolution is set for the model
    named "deepseek" when its configuration names one; [None] stands for
    the [ValueError] of a name that is no resolution. *)
Definition new_info (name : string) (config : ModelConfig)
    (st : ModelStatus) : option ModelInfo :=
  let plain := mkInfo name config st None None None None in
  if String.eqb name "deepseek" then
    match resolution_mode config with
    | Some mode =>
        if String.eqb mode EmptyString then Some plain
        else
          match OCRResolution_of mode with
          | Some r => Some (mkInfo name config st None None None (Some r))
          | None => None
          end
    | None => Some plain
    end
  else Some plain.

(** The loop of [ModelManager.__init__] over [config.models.items()]. *)
Fixpoint init_models (configs : list (string * ModelConfig))
    (acc : Dict.t ModelInfo) : option (Dict.t ModelInfo) :=
  match configs with
  | [] => Some acc
  | (model_name, model_config) :: rest =>
      match new_info model_name model_config STOPPED with
      | Some info => init_models rest (Dict.set model_name info acc)
      | None => None
      end
  end.

(** [ModelManager.__init__] *)
Definition init (configs : Dict.t ModelConfig) : option t :=
  match init_models configs [] with
  | Some ms => Some (mk ms None)
  | None => None
  end.

(** A shell command as the f-strings of [_build_vllm_command] assemble
    it: literal text and the numbers formatted into it. *)
Inductive Piece :=
| Text (s : string)
| IntArg (n : Z)
| FloatArg (x : Q).

Definition Command := list Piece.

(** What [start_model] does to the outside, in order. *)
Inductive Launch :=
| Popen (cmd : Command) (pid : option Z)
| HealthProbe (port : Z) (healthy : bool)
| HealthSleep (seconds : Z).

(** The host as [start_model] sees it: the n-th [Popen] gives a child
    ([None]: it raises), and the n-th GET of [/health] is answered 200 or
    not (an exception of the request counts as not). *)
Record Host := mkHost {
  spawn : nat -> option Z;
  probe : nat -> bool
}.

(** The outside of the manager: the trace of [stop_model], the launches
    of [start_model], and the number of spawns and probes made. *)
Record Outside := mkOutside {
  trace : Trace;
  launches : list Launch;
  spawns : nat;
  probes : nat
}.

Definition set_trace (tr : Trace) (o : Outside) : Outside :=
  mkOutside tr (launches o) (spawns o) (probes o).

Definition launch (l : Launch) (o : Outside) : Outside :=
  mkOutside (trace o) (launches o ++ [l]) (spawns o) (probes o).

(** Apply [f] to the information stored under [model_name]. *)
Definition update_info (model_name : string) (f : ModelInfo -> ModelInfo)
    (self : t) : t :=
  match Dict.get model_name (models self) with
  | Some i => set_info model_name (f i) self
  | None => self
  end.

Definition set_current_resolution (v : option OCRResolution)
    (i : ModelInfo) : ModelInfo :=
  mkInfo (info_name i) (info_config i) (status i) (process i) (started_at i)
         (stopped_at i) v.

Definition set_process (v : option Z) (i : ModelInfo) : ModelInfo :=
  mkInfo (info_name i) (info_config i) (status i) v (started_at i)
         (stopped_at i) (current_resolution i).

Definition set_started_at (v : option Z) (i : ModelInfo) : ModelInfo :=
  mkInfo (info_name i) (info_config i) (status i) (process i) v
         (stopped_at i) (current_resolution i).

(** Build vLLM serve command.  For the model named "deepseek" a given
    resolution is recorded in the model information on the way; the
    command itself does not mention it.  [None] stands for the
    [KeyError] of an unknown model. *)
Definition _build_vllm_command (self : t) (model_name : string)
    (resolution : option OCRResolution) : option (Command * t) :=
  match Dict.get model_name (models self) with
  | None => None
  | Some model_info =>
      let config := info_config model_info in
      let env_path :=
        if String.eqb model_name "gemma"
        then "/root/server_ai/vllm-workspace/vllm_env"
        else if String.eqb model_name "deepseek"
        then "/root/server_ai/deepseek_ocr_env"
        else "/root/server_ai/vllm-workspace/vllm_env" in
      let cmd :=
        [ Text "cd /root/server_ai && source "; Text env_path;
          Text "/bin/activate && ";
          Text "vllm serve "; Text (name config); Text " ";
          Text "--host 0.0.0.0 ";
          Text "--port "; IntArg (port config); Text " ";
          Text "--gpu-memory-utilization "; FloatArg (gpu_memory config);
          Text " ";
          Text "--max-model-len "; IntArg (max_model_len config); Text " ";
          Text "--max-num-seqs "; IntArg (max_concurrent config); Text " " ] in
      let self1 :=
        match resolution with
        | Some r =>
            if String.eqb model_name "deepseek"
            then update_info model_name (set_current_resolution (Some r)) self
            else self
        | None => self
        end in
      let log_file :=
        [ Text "/root/server_ai/backend_ai/logs/"; Text model_name;
          Text "_server.log" ] in
      Some (cmd ++ [Text "> "] ++ log_file ++ [Text " 2>&1 &"], self1)
  end.

(** The [while] loop of [_wait_for_health].  [None]: the loop is still
    running when [fuel] is used up. *)
Fixpoint health_loop (fuel : nat) (os : Os) (host : Host) (port : Z)
    (start_time timeout : Z) (o : Outside) : option (bool * Outside) :=
  match fuel with
  | O => None
  | S k =>
      let (now, tr1) := read_time os (trace o) in
      let o1 := set_trace tr1 o in
      if now - start_time <? seconds timeout then
        let healthy := probe host (probes o1) in
        let o2 :=
          mkOutside (trace o1) (launches o1 ++ [HealthProbe port healthy])
                    (spawns o1) (S (probes o1)) in
        if healthy then Some (true, o2)
        else health_loop k os host port start_time timeout
                         (launch (HealthSleep 2) o2)
      else Some (false, o1)
  end.

(** Wait for model to be healthy *)
Definition _wait_for_health (fuel : nat) (os : Os) (host : Host)
    (port timeout : Z) (o : Outside) : option (bool * Outside) :=
  let (start_time, tr1) := read_time os (trace o) in
  health_loop fuel os host port start_time timeout (set_trace tr1 o).

(** Start a model.  [now] is the [datetime.utcnow()] stored in
    [started_at]; the result is [None] when the health wait outlives
    [fuel]. *)
Definition start_model (fuel : nat) (os : Os) (host : Host) (now : Z)
    (self : t) (o : Outside) (model_name : string)
    (resolution : option OCRResolution) : option (bool * t * Outside) :=
  match Dict.get model_name (models self) with
  | None => Some (false, self, o)
  | Some model_info =>
      if ModelStatus_eqb (status model_info) RUNNING then Some (true, self, o)
      else
        let self1 := update_info model_name (set_status STARTING) self in
        match _build_vllm_command self1 model_name resolution with
        | None => Some (false, update_info model_name (set_status ERROR) self1, o)
        | Some (cmd, self2) =>
            let child := spawn host (spawns o) in
            let o1 := mkOutside (trace o) (launches o ++ [Popen cmd child])
                                (S (spawns o)) (probes o) in
            match child with
            | None =>
                Some (false, update_info model_name (set_status ERROR) self2, o1)
            | Some pid =>
                let self3 := update_info model_name (set_process (Some pid)) self2 in
                let self4 := update_info model_name (set_started_at (Some now)) self3 in
                match _wait_for_health fuel os host
                                       (port (info_config model_info)) 120 o1 with
                | None => None
                | Some (true, o2) =>
                    let self5 := update_info model_name (set_status RUNNING) self4 in
                    Some (true, mk (models self5) (Some model_name), o2)
                | Some (false, o2) =>
                    Some (false, update_info model_name (set_status ERROR) self4, o2)
                end
            end
        end
  end.

(** Switch from current model to target model: the current model, if
    there is one and it is another, is stopped gracefully (whatever the
    outcome), then the target is started. *)
Definition switch_model (fuel : nat) (os : Os) (host : Host)
    (now_stop now_start : Z) (self : t) (o : Outside) (target_model : string)
    (resolution : option OCRResolution) : option (bool * t * Outside) :=
  let stopped :=
    match current_model self with
    | Some cur =>
        if negb (String.eqb cur EmptyString) && negb (String.eqb cur target_model)
        then
          match stop_model fuel os now_stop self (trace o) cur true 60 with
          | Some (_, self1, tr1) => Some (self1, set_trace tr1 o)
          | None => None
          end
        else Some (self, o)
    | None => Some (self, o)
    end in
  match stopped with
  | Some (self1, o1) =>
      start_model fuel os host now_start self1 o1 target_model resolution
  | None => None
  end.

(** Switch DeepSeek-OCR resolution mode *)
Definition switch_ocr_resolution (fuel : nat) (os : Os) (host : Host)
    (now_stop now_start : Z) (self : t) (o : Outside)
    (resolution : OCRResolution) (graceful : bool)
    : option (bool * t * Outside) :=
  let model_name := "deepseek" in
  match Dict.get model_name (models self) with
  | None => Some (false, self, o)
  | Some model_info =>
      let same :=
        match current_resolution model_info with
        | Some r => OCRResolution_eqb r resolution
        | None => false
        end in
      if same then Some (true, self, o)
      else
        let stopped :=
          if ModelStatus_eqb (status model_info) RUNNING then
            match stop_model fuel os now_stop self (trace o) model_name
                             graceful 60 with
            | Some (_, self1, tr1) => Some (self1, set_trace tr1 o)
            | None => None
            end
          else Some (self, o) in
        match stopped with
        | None => None
        | Some (self1, o1) =>
            match start_model fuel os host now_start self1 o1 model_name
                              (Some resolution) with
            | None => None
            | Some (true, self2, o2) =>
                Some (true,
                      update_info model_name
                                  (set_current_resolution (Some resolution))
                                  self2, o2)
            | Some (false, self2, o2) => Some (false, self2, o2)
            end
        end
  end.

(** Every model reported RUNNING is the current model. *)
Definition running_is_current (self : t) : Prop :=
  forall model_name info,
    Dict.get model_name (models self) = Some info ->
    status info = RUNNING ->
    current_model self = Some model_name.

End ModelManager.

(* ===================================================================== *)
(** ** app/monitoring/pattern_analyzer.py *)
(* ===================================================================== *)

Module PatternAnalyzer.

(** A row of the request history as [analyze_patterns] reads it:
    [created_at] as the instant it denotes (the source parses an ISO
    string where it finds one) and [req.get('model_name')], which is
    [None] for a row without that key. *)
Record Request := mkRequest {
  created_at : Z;
  model_name : option string
}.

(** The fields of a [PatternAnalyzer] the methods read or write. *)
Record t := mk {
  window_days : Z;
  min_requests : Z;
  _last_analysis : option Z
}.

(** A key of [model_counts]: a model name or [None]. *)
Definition Key := option string.

Definition Key_eqb (a b : Key) : bool :=
  match a, b with
  | Some x, Some y => String.eqb x y
  | None, None => true
  | _, _ => false
  end.

(** An insertion-ordered dictionary keyed by [Key]. *)
Fixpoint lookup {V : Type} (k : Key) (d : list (Key * V)) : option V :=
  match d with
  | [] => None
  | (k', v) :: rest => if Key_eqb k' k then Some v else lookup k rest
  end.

(** [d[k] += 1] on a [defaultdict(int)] *)
Fixpoint bump (k : Key) (d : list (Key * Z)) : list (Key * Z) :=
  match d with
  | [] => [(k, 1)]
  | (k', n) :: rest =>
      if Key_eqb k' k then (k', n + 1) :: rest else (k', n) :: bump k rest
  end.

(** [timedelta(days=d)] and [timedelta(hours=h)] *)
Definition days (d : Z) : Z := d * 86400 * 1000000.
Definition hours (h : Z) : Z := h * 3600 * 1000000.

(** The counting loop of [analyze_patterns]: [(model_counts,
    model_recent)] after the given rows. *)
Fixpoint count_models (start_time recent_cutoff : Z) (requests : list Request)
    (model_counts model_recent : list (Key * Z))
  : list (Key * Z) * list (Key * Z) :=
  match requests with
  | [] => (model_counts, model_recent)
  | req :: rest =>
      if created_at req >=? start_time then
        let model_counts' := bump (model_name req) model_counts in
        let model_recent' :=
          if created_at req >=? recent_cutoff
          then bump (model_name req) model_recent
          else model_recent in
        count_models start_time recent_cutoff rest model_counts' model_recent'
      else count_models start_time recent_cutoff rest model_counts model_recent
  end.

(** [sum(d.values())] *)
Definition sum_values (d : list (Key * Z)) : Z :=
  fold_left (fun acc kv => acc + snd kv) d 0.

(** [max(items, key=lambda x: x[1])] continued from the best item so
    far: the first item of greatest count wins. *)
Fixpoint max_item (best : Key * Z) (items : list (Key * Z)) : Key * Z :=
  match items with
  | [] => best
  | item :: rest =>
      if snd item >? snd best then max_item item rest else max_item best rest
  end.

(** The dictionary [analyze_patterns] returns, without its [reason]
    text; a key the source leaves out is [None]. *)
Record Analysis := mkAnalysis {
  total_requests : Z;
  model_counts : option (list (Key * Z));
  usage_percentages : option (list (Key * Q));
  recent_counts : option (list (Key * Z));
  recommended_model : Key;
  confidence : option Q;
  analyzed_at : option Z
}.

(** [(count / total_requests) * 100] *)
Definition percentage (total_requests count : Z) : Q :=
  ((inject_Z count / inject_Z total_requests) * inject_Z 100)%Q.

(** Analyze usage patterns over the window period; [requests] is what
    [mongodb.get_request_history(limit=10000)] answered.  Percentages
    and confidence are exact rationals where the source has floats; on
    at most 10000 rows the test [confidence < 0.6] made on them has the
    same outcome. *)
Definition analyze_patterns (env : Env) (self : t) (requests : list Request)
    (w : World) : t * World * Analysis :=
  let (now0, w0) := read_clock env w in
  let start_time := now0 - days (window_days self) in
  let (now1, w1) := read_clock env w0 in
  let recent_cutoff := now1 - hours 24 in
  let (counts, recent) :=
    count_models start_time recent_cutoff requests [] [] in
  let total := sum_values counts in
  if total =? 0 then
    (self, w1, mkAnalysis 0 None None None None None None)
  else
    let usage := map (fun kv => (fst kv, percentage total (snd kv))) counts in
    match counts with
    | [] => (self, w1, mkAnalysis 0 None None None None None None)
    | first :: others =>
        let recommended := fst (max_item first others) in
        let count := match lookup recommended counts with
                     | Some n => n
                     | None => 0
                     end in
        if count <? min_requests self then
          (self, w1,
           mkAnalysis total (Some counts) (Some usage) (Some recent)
                      None None None)
        else
          let confidence :=
            (match lookup recommended usage with
             | Some p => p
             | None => 0
             end / inject_Z 100)%Q in
          let (now2, w2) := read_clock env w1 in
          (mk (window_days self) (min_requests self) (Some now2), w2,
           mkAnalysis total (Some counts) (Some usage) (Some recent)
                      recommended (Some confidence) (Some now2))
    end.

(** Determine if we should switch to a different model. *)
Definition should_switch_model (env : Env) (self : t)
    (requests : list Request) (current_model : option string) (w : World)
  : t * World * option string :=
  let '(self', w', analysis) := analyze_patterns env self requests w in
  match recommended_model analysis with
  | None => (self', w', None)
  | Some recommended =>
      if String.eqb recommended EmptyString then (self', w', None)
      else if Key_eqb current_model (Some recommended) then (self', w', None)
      else
        let confidence := match confidence analysis with
                          | Some c => c
                          | None => 0%Q
                          end in
        if negb (Qle_bool (6 # 10) confidence) then (self', w', None)
        else (self', w', Some recommended)
  end.

End PatternAnalyzer.

(* ===================================================================== *)
(** ** app/config.py: environment variables in the configuration *)
(* ===================================================================== *)

Module Config.

(** What [yaml.safe_load] gives for a configuration file: mappings with
    string keys, sequences, strings and the other scalars. *)
Inductive Scalar :=
| SNone
| SBool (b : bool)
| SInt (n : Z)
| SFloat (x : Q).

#[warnings="-register-all"]
Inductive Yaml :=
| YDict (items : list (string * Yaml))
| YList (items : list Yaml)
| YStr (s : string)
| YScalar (v : Scalar).

(** [s.startswith(p)] and [s.endswith(p)] *)
Definition startswith (p s : string) : bool := String.prefix p s.

Definition endswith (p s : string) : bool :=
  (String.length p <=? String.length s)%nat
  && String.eqb
       (String.substring (String.length s - String.length p)
                         (String.length p) s)
       p.

(** [s[2:-1]] *)
Definition var_name_of (s : string) : string :=
  String.substring 2 (String.length s - 3) s.

(** Recursively replace [${VAR}] with environment variables; [getenv]
    is [os.environ] as [os.getenv] reads it. *)
Fixpoint _replace_env_vars (getenv : string -> option string) (data : Yaml)
  : Yaml :=
  match data with
  | YDict items =>
      YDict (map (fun '(k, v) => (k, _replace_env_vars getenv v)) items)
  | YList items => YList (map (_replace_env_vars getenv) items)
  | YStr s =>
      if startswith "${" s && endswith "}" s then
        let var_name := var_name_of s in
        match getenv var_name with
        | Some value => YStr value
        | None => data
        end
      else data
  | YScalar _ => data
  end.

End Config.

(* ===================================================================== *)
(** ** Concrete environments and scenarios *)
(* ===================================================================== *)

(** The ids drawn, in order, from a list of names. *)
Definition ids_from (names : list string) (n : nat) : string :=
  nth n names "fresh".

(** A world in which the clock advances one second per reading and every
    database write succeeds. *)
Definition calm (names : list string) : Env :=
  mkEnv (fun n => Z.of_nat n * 1000000) (ids_from names) (fun _ => true).

(** Both bounds of the queue as the specification words them. *)
Definition within_bounds (q : CrashProofQueue.t) : Prop :=
  Dict.len (CrashProofQueue.processing q) <= CrashProofQueue.max_concurrent q
  /\ Z.of_nat (List.length (CrashProofQueue.waiting q))
     <= CrashProofQueue.max_waiting q.

(** One slot, one waiting place: a request is dispatched, a second one
    admitted, and the first one fails and is queued again. *)
Definition requeue_script : list Op :=
  [ Enqueue "p" "chat" "c" NORMAL 300;
    Dequeue;
    Enqueue "p" "chat" "c" NORMAL 300;
    Fail "a" "boom" ].

(** Admission bound: [max_waiting = 3], four enqueues, no dequeue. *)
Definition admission_script : list Op :=
  [ Enqueue "p1" "chat" "c" NORMAL 300;
    Enqueue "p2" "chat" "c" NORMAL 300;
    Enqueue "p3" "chat" "c" NORMAL 300;
    Enqueue "p4" "chat" "c" NORMAL 300 ].

(** Priority ordering: one slot, ten waiting places; five NORMAL requests
    n1..n5 are enqueued, then one HIGH request h1. *)
Definition priority_names : list string :=
  ["n1"; "n2"; "n3"; "n4"; "n5"; "h1"].

Definition priority_script : list Op :=
  [ Enqueue "p" "chat" "c" NORMAL 300;
    Enqueue "p" "chat" "c" NORMAL 300;
    Enqueue "p" "chat" "c" NORMAL 300;
    Enqueue "p" "chat" "c" NORMAL 300;
    Enqueue "p" "chat" "c" NORMAL 300;
    Enqueue "p" "chat" "c" HIGH 300 ].

(** The ids handed out by six [dequeue]s, each followed at once by
    [complete], after [priority_script]. *)
Definition priority_dispatches : list string :=
  match run (calm priority_names) priority_script
            (CrashProofQueue.init "B" 1 10) empty_world with
  | (_, q, w) => fst (fst (completing_worker (calm priority_names) 6 q w))
  end.

(** The rank of a request in the waiting room. *)
Definition rank (r : QueuedRequest.t) : Z :=
  CrashProofQueue.priority_order (QueuedRequest.priority r).

(** A waiting room in priority order: no request stands behind one of
    strictly lower priority. *)
Fixpoint in_priority_order (l : list QueuedRequest.t) : bool :=
  match l with
  | [] => true
  | x :: rest => forallb (fun y => rank x <=? rank y) rest
                 && in_priority_order rest
  end.

(** Retry: one request is admitted (its [max_retries] is the default 3)
    and a worker fails it after every dispatch, for ten rounds. *)
Definition retry_run : list string * CrashProofQueue.t * World :=
  match run (calm ["a"]) [Enqueue "p" "chat" "c" NORMAL 300]
            (CrashProofQueue.init "m" 1 10) empty_world with
  | (_, q, w) => failing_worker (calm ["a"]) "boom" 10 q w
  end.

(** The number of dispatches left to a waiting request that fails every
    time, as the code counts them. *)
Definition dispatches_left (r : QueuedRequest.t) : nat :=
  Z.to_nat (Z.max 1 (QueuedRequest.max_retries r - QueuedRequest.retry_count r)).

(** A database that accepts the first [k] writes and rejects the rest. *)
Definition first_writes_only (k : nat) (names : list string) : Env :=
  mkEnv (fun n => Z.of_nat n * 1000000) (ids_from names)
        (fun n => Nat.ltb n k).





(** Terminal states: COMPLETED, FAILED, TIMEOUT, CANCELLED. *)
Definition is_terminal (s : RequestStatus) : bool :=
  match s with
  | COMPLETED | FAILED | TIMEOUT | CANCELLED => true
  | QUEUED | PROCESSING => false
  end.

(** A row obeys "terminal status implies completed_at set". *)
Definition row_settled (d : Doc) : bool :=
  match RequestStatus_of (d_status d) with
  | Some s => if is_terminal s
              then match d_completed_at d with Some _ => true | None => false end
              else true
  | None => true
  end.

(** What [recover_from_crash] makes of a row it could read: a request
    that was PROCESSING goes back to QUEUED with one more retry. *)
Definition revived (request : QueuedRequest.t) : QueuedRequest.t :=
  if RequestStatus_eqb (QueuedRequest.status request) PROCESSING then
    let request := QueuedRequest.set_status QUEUED request in
    let request := QueuedRequest.set_started_at None request in
    QueuedRequest.set_retry_count (QueuedRequest.retry_count request + 1)
                                  request
  else request.

(** The row is readable and recovery puts it back into the waiting room. *)
Definition recoverable (doc : Doc) : bool :=
  match QueuedRequest.from_dict doc with
  | Some r => QueuedRequest.retry_count (revived r)
              <? QueuedRequest.max_retries (revived r)
  | None => false
  end.

(** The row is readable and recovery gives it up. *)
Definition exhausted (doc : Doc) : bool :=
  match QueuedRequest.from_dict doc with
  | Some r => negb (QueuedRequest.retry_count (revived r)
                    <? QueuedRequest.max_retries (revived r))
  | None => false
  end.




(** The processing table as the queue keeps it: one entry per id, filed
    under the id of its request, PROCESSING and started. *)
Definition processing_wf (q : CrashProofQueue.t) : Prop :=
  NoDup (Dict.keys (CrashProofQueue.processing q))
  /\ Forall (fun kv : string * QueuedRequest.t =>
               QueuedRequest.request_id (snd kv) = fst kv
               /\ QueuedRequest.status (snd kv) = PROCESSING
               /\ QueuedRequest.started_at (snd kv) <> None)
            (CrashProofQueue.processing q).


(** The answer of [is_timeout] when the clock reads [now]. *)
Definition expired (now : Z) (r : QueuedRequest.t) : bool :=
  match QueuedRequest.started_at r with
  | Some s => now - s >? QueuedRequest.timeout_seconds r * 1000000
  | None => false
  end.




(** The entries of a table that are not filed under one of [ids]. *)
Definition without (ids : list string) (items : Dict.t QueuedRequest.t)
    : Dict.t QueuedRequest.t :=
  filter (fun kv => negb (existsb (String.eqb (fst kv)) ids)) items.

(** Two requests in flight, the first started long ago. *)
Definition two_in_flight : CrashProofQueue.t :=
  CrashProofQueue.mk "m" 2 10
    [ ("a", QueuedRequest.mk "a" "m" "chat" "c" "p" NORMAL PROCESSING 0
                             (Some 0) None 1 0 3 None None);
      ("b", QueuedRequest.mk "b" "m" "chat" "c" "p" NORMAL PROCESSING 0
                             (Some 9000000) None 300 0 3 None None) ]
    [] 0 0 0 true.

(** Some queue reports [processing > 0]. *)
Definition some_queue_busy (self : AutoSwitcher.t) : Prop :=
  exists q, In q (Dict.values (AutoSwitcher.queues self))
            /\ CrashProofQueue.m_processing (CrashProofQueue.get_metrics q) > 0.

(** An auto-switcher past its cooldown over a busy queue, with an
    analyzer that recommends the other model and a manager that would
    switch successfully. *)
Definition busy_switcher : AutoSwitcher.t :=
  AutoSwitcher.mk (AutoSwitcher.mkConfig true 7 10 5)
                  [("gemma", CrashProofQueue.init "gemma" 4 10);
                   ("deepseek", two_in_flight)]
                  (Some 0) true.

Definition eager_collaborators : AutoSwitcher.Collaborators :=
  AutoSwitcher.mkCollab (Some "gemma") (fun _ => Some "deepseek")
                        (fun _ => true).

(** A manager with one running model, and a steady clock. *)
Definition running_manager : ModelManager.t :=
  ModelManager.mk
    [("gemma",
      ModelManager.mkInfo "gemma"
        (ModelManager.mkConfig "google/gemma" 8001 (9 # 10) 4096 4 true None)
        ModelManager.RUNNING (Some 4242) (Some 0) None None)]
    (Some "gemma").

Definition steady_os : ModelManager.Os :=
  ModelManager.mkOs (fun n => Z.of_nat n * 1000) false false.

(** The capacity invariant every operation keeps: the configuration is
    the one given, the processing table fits the slots, and requests
    waiting or in flight together fit slots plus waiting places. *)
Definition capacity_inv (mc mw : Z) (q : CrashProofQueue.t) : Prop :=
  CrashProofQueue.max_concurrent q = mc
  /\ CrashProofQueue.max_waiting q = mw
  /\ Dict.len (CrashProofQueue.processing q) <= mc
  /\ Z.of_nat (List.length (CrashProofQueue.waiting q))
     + Dict.len (CrashProofQueue.processing q) <= mw + mc.

(** The ids of the requests a queue holds in memory. *)
Definition held_ids (q : CrashProofQueue.t) : list string :=
  Dict.keys (CrashProofQueue.processing q)
  ++ map QueuedRequest.request_id (CrashProofQueue.waiting q).

(** The requests a queue holds in memory, processing first. *)
Definition held_requests (q : CrashProofQueue.t) : list QueuedRequest.t :=
  Dict.values (CrashProofQueue.processing q) ++ CrashProofQueue.waiting q.

(** How many calls of a run were admitted. *)
Definition admitted (outs : list Outcome) : Z :=
  Z.of_nat (List.length
              (filter (fun o => match o with Enqueued _ => true | _ => false end)
                      outs)).

(** How many [complete] and [fail] calls a script makes. *)
Definition completes (ops : list Op) : Z :=
  Z.of_nat (List.length
              (filter (fun o => match o with Complete _ _ => true | _ => false end)
                      ops)).

Definition fails (ops : list Op) : Z :=
  Z.of_nat (List.length
              (filter (fun o => match o with Fail _ _ => true | _ => false end)
                      ops)).

(** The requests a queue accounts for: waiting, in flight, completed and
    failed for good. *)
Definition accounted (q : CrashProofQueue.t) : Z :=
  Z.of_nat (List.length (CrashProofQueue.waiting q))
  + Dict.len (CrashProofQueue.processing q)
  + CrashProofQueue.total_processed q
  + CrashProofQueue.total_failed q.

(** A uuid generator that never repeats itself: the n-th id is n strokes. *)
Fixpoint tally (n : nat) : string :=
  match n with
  | O => EmptyString
  | S k => String "|"%char (tally k)
  end.

Definition distinct_ids : Env :=
  mkEnv (fun n => Z.of_nat n * 1000000) tally (fun _ => true).

(** The ids held in memory are distinct, were all drawn from the uuid
    generator, and every processing entry is filed under its own id. *)
Definition ids_inv (env : Env) (q : CrashProofQueue.t) (w : World) : Prop :=
  NoDup (held_ids q)
  /\ (forall id, In id (held_ids q) ->
                 exists i, (i < uuid_calls w)%nat /\ uuid4 env i = id)
  /\ Forall (fun kv : string * QueuedRequest.t =>
               QueuedRequest.request_id (snd kv) = fst kv)
            (CrashProofQueue.processing q).

(** A host on which every spawn succeeds and a health probe is answered
    200 from the [k]-th probe on. *)
Definition healthy_after (k : nat) : ModelManager.Host :=
  ModelManager.mkHost (fun n => Some (Z.of_nat n + 5000))
                      (fun n => Nat.leb k n).

(** A host on which no probe is ever answered 200. *)
Definition never_healthy : ModelManager.Host :=
  ModelManager.mkHost (fun n => Some (Z.of_nat n + 5000)) (fun _ => false).

(** A clock that advances thirty seconds per reading. *)
Definition slow_os : ModelManager.Os :=
  ModelManager.mkOs (fun n => Z.of_nat n * 30000000) false false.

Definition quiet : ModelManager.Outside :=
  ModelManager.mkOutside (ModelManager.mkTrace 0 []) [] 0 0.

(** Two configured models, the chat model running. *)
Definition two_models : ModelManager.t :=
  ModelManager.mk
    [("gemma",
      ModelManager.mkInfo "gemma"
        (ModelManager.mkConfig "google/gemma" 8001 (9 # 10) 4096 4 true None)
        ModelManager.RUNNING (Some 4242) (Some 0) None None);
     ("deepseek",
      ModelManager.mkInfo "deepseek"
        (ModelManager.mkConfig "deepseek-ai/DeepSeek-OCR" 8002 (9 # 10) 8192 2
                               true (Some "large"))
        ModelManager.STOPPED None None None (Some ModelManager.LARGE))]
    (Some "gemma").

(** No model is reported RUNNING except possibly [name]. *)
Definition only_running (name : string) (self : ModelManager.t) : Prop :=
  forall n i,
    Dict.get n (ModelManager.models self) = Some i ->
    ModelManager.status i = ModelManager.RUNNING ->
    n = name.

(** The count the analyzer holds for a key: 0 for an absent one. *)
Definition count_of (k : PatternAnalyzer.Key)
    (d : list (PatternAnalyzer.Key * Z)) : Z :=
  match PatternAnalyzer.lookup k d with Some n => n | None => 0 end.

(** The rows of the history created at or after [start]. *)
Definition in_window (start : Z) (requests : list PatternAnalyzer.Request)
  : list PatternAnalyzer.Request :=
  filter (fun r => PatternAnalyzer.created_at r >=? start) requests.

(** How many of them name the model [k]. *)
Definition uses (start : Z) (k : PatternAnalyzer.Key)
    (requests : list PatternAnalyzer.Request) : Z :=
  Z.of_nat (List.length
              (filter (fun r => PatternAnalyzer.Key_eqb
                                  (PatternAnalyzer.model_name r) k)
                      (in_window start requests))).

(** The start of the window of an analysis begun in world [w]. *)
Definition window_start (env : Env) (self : PatternAnalyzer.t) (w : World)
  : Z :=
  utcnow env (clock_reads w)
  - PatternAnalyzer.days (PatternAnalyzer.window_days self).

(** Three days of history: seven requests for gemma, three for
    deepseek, and one older than the window. *)
Definition gemma_week : list PatternAnalyzer.Request :=
  PatternAnalyzer.mkRequest (-900000000000) (Some "deepseek")
  :: repeat (PatternAnalyzer.mkRequest 0 (Some "gemma")) 7
  ++ repeat (PatternAnalyzer.mkRequest 0 (Some "deepseek")) 3.

(** The variable names of the placeholders of a configuration. *)
Fixpoint placeholders (data : Config.Yaml) : list string :=
  match data with
  | Config.YDict items => flat_map (fun '(k, v) => placeholders v) items
  | Config.YList items => flat_map placeholders items
  | Config.YStr s =>
      if Config.startswith "${" s && Config.endswith "}" s
      then [Config.var_name_of s]
      else []
  | Config.YScalar _ => []
  end.

(** Induction on a configuration, through its mappings and sequences. *)
Fixpoint Yaml_induction (P : Config.Yaml -> Prop)
    (HDict : forall items,
        Forall (fun kv => P (snd kv)) items -> P (Config.YDict items))
    (HList : forall items, Forall P items -> P (Config.YList items))
    (HStr : forall s, P (Config.YStr s))
    (HScalar : forall v, P (Config.YScalar v))
    (data : Config.Yaml) {struct data} : P data :=
  match data with
  | Config.YDict items =>
      HDict items
        ((fix all (l : list (string * Config.Yaml))
            : Forall (fun kv => P (snd kv)) l :=
            match l with
            | [] => Forall_nil _
            | (k, v) :: rest =>
                Forall_cons (k, v)
                  (Yaml_induction P HDict HList HStr HScalar v) (all rest)
            end) items)
  | Config.YList items =>
      HList items
        ((fix all (l : list Config.Yaml) : Forall P l :=
            match l with
            | [] => Forall_nil _
            | v :: rest =>
                Forall_cons v
                  (Yaml_induction P HDict HList HStr HScalar v) (all rest)
            end) items)
  | Config.YStr s => HStr s
  | Config.YScalar v => HScalar v
  end.

(** An environment that sets [HOME] only. *)
Definition home_only (name : string) : option string :=
  if String.eqb name "HOME" then Some "/root" else None.

(** A configuration with two placeholders, a sequence and scalars. *)
Definition sample_config : Config.Yaml :=
  Config.YDict
    [("mongodb", Config.YDict [("uri", Config.YStr "${MONGODB_URI}");
                               ("history_retention_days",
                                Config.YScalar (Config.SInt 15))]);
     ("auth", Config.YDict [("jwt_secret", Config.YStr "${JWT_SECRET}")]);
     ("origins", Config.YList [Config.YStr "$HOME"; Config.YStr "{HOME}"])].

(* ===================================================================== *)
(** ** Facts about dictionaries and the waiting room *)
(* ===================================================================== *)

Section DictFacts.
Context {V : Type}.
Implicit Types (d : Dict.t V) (k : string) (v : V).

Lemma dict_set_length d k v :
  (List.length (Dict.set k v d) <= S (List.length d))%nat.
Proof.
  induction d as [|[k' v'] d IH]; simpl; [lia|].
  destruct (String.eqb k' k); simpl; lia.
Qed.

Lemma dict_get_remove_length d k v :
  Dict.get k d = Some v ->
  List.length d = S (List.length (Dict.remove k d)).
Proof.
  induction d as [|[k' v'] d IH]; simpl; [discriminate|].
  destruct (String.eqb k' k); simpl; [reflexivity|].
  intros H. rewrite (IH H). reflexivity.
Qed.

Lemma dict_pop_length d k v d' :
  Dict.pop k d = Some (v, d') ->
  List.length d = S (List.length d').
Proof.
  unfold Dict.pop. destruct (Dict.get k d) eqn:G; [|discriminate].
  intros E. injection E as <- <-. eapply dict_get_remove_length; eauto.
Qed.

End DictFacts.

Lemma insert_into_length r l :
  List.length (CrashProofQueue.insert_into r l) = S (List.length l).
Proof.
  induction l as [|x l IH]; simpl; [reflexivity|].
  destruct (_ <? _); simpl; [reflexivity|]. now rewrite IH.
Qed.

(* ===================================================================== *)
(** ** Capacity of the queue *)
(* ===================================================================== *)

Ltac open_inv H :=
  let Hc := fresh "Hc" in let Hw := fresh "Hw" in
  let Hp := fresh "Hp" in let Hs := fresh "Hs" in
  destruct H as (Hc & Hw & Hp & Hs).

Lemma enqueue_capacity env q w p t c pr to mc mw :
  0 <= mc ->
  capacity_inv mc mw q ->
  capacity_inv mc mw (snd (fst (CrashProofQueue.enqueue env q w p t c pr to))).
Proof.
  intros Hmc H. open_inv H. unfold CrashProofQueue.enqueue.
  destruct (_ >=? _) eqn:Full; simpl.
  - repeat split; assumption.
  - unfold capacity_inv, Dict.len in *; simpl.
    rewrite insert_into_length. repeat split; try assumption.
    rewrite Z.geb_leb in Full. apply Z.leb_gt in Full.
    pose proof (Nat2Z.is_nonneg (List.length (CrashProofQueue.processing q))).
    lia.
Qed.

Lemma dequeue_capacity env q w mc mw :
  capacity_inv mc mw q ->
  capacity_inv mc mw (snd (fst (CrashProofQueue.dequeue env q w))).
Proof.
  intros H. open_inv H. unfold CrashProofQueue.dequeue.
  destruct (_ >=? _) eqn:Busy; simpl.
  - repeat split; assumption.
  - destruct (CrashProofQueue.waiting q) as [|r rest] eqn:W; simpl.
    + unfold capacity_inv. rewrite W. repeat split; assumption.
    + unfold capacity_inv, Dict.len in *; simpl.
      change (List.length (r :: rest)) with (S (List.length rest)) in Hs.
      rewrite Z.geb_leb in Busy. apply Z.leb_gt in Busy.
      pose proof (dict_set_length (CrashProofQueue.processing q)
                    (QueuedRequest.request_id r)
                    (QueuedRequest.set_started_at
                       (Some (utcnow env (clock_reads w)))
                       (QueuedRequest.set_status PROCESSING r))) as L.
      simpl in L. repeat split; try assumption; lia.
Qed.

Lemma complete_capacity env q w rid res mc mw :
  capacity_inv mc mw q ->
  capacity_inv mc mw (fst (CrashProofQueue.complete env q w rid res)).
Proof.
  intros H. open_inv H. unfold CrashProofQueue.complete.
  destruct (Dict.pop rid _) as [[r d']|] eqn:P; simpl.
  - apply dict_pop_length in P.
    unfold capacity_inv, Dict.len in *; simpl.
    repeat split; try assumption; lia.
  - repeat split; assumption.
Qed.

Lemma fail_capacity env q w rid err mc mw :
  capacity_inv mc mw q ->
  capacity_inv mc mw (fst (CrashProofQueue.fail env q w rid err)).
Proof.
  intros H. open_inv H. unfold CrashProofQueue.fail.
  destruct (Dict.pop rid _) as [[r d']|] eqn:P; simpl.
  - apply dict_pop_length in P.
    destruct (_ <? _); simpl;
      unfold capacity_inv, Dict.len in *; simpl;
      rewrite ?insert_into_length; repeat split; try assumption; lia.
  - repeat split; assumption.
Qed.

Lemma step_capacity env o q w mc mw :
  0 <= mc ->
  capacity_inv mc mw q ->
  capacity_inv mc mw (snd (fst (step env o q w))).
Proof.
  intros Hmc H. destruct o as [p t c pr to| |rid res|rid err]; simpl.
  - pose proof (enqueue_capacity env q w p t c pr to mc mw Hmc H) as E.
    destruct (CrashProofQueue.enqueue env q w p t c pr to) as [[[e|i] q1] w1];
      exact E.
  - pose proof (dequeue_capacity env q w mc mw H) as E.
    destruct (CrashProofQueue.dequeue env q w) as [[[r|] q1] w1]; exact E.
  - pose proof (complete_capacity env q w rid res mc mw H) as E.
    destruct (CrashProofQueue.complete env q w rid res) as [q1 w1]; exact E.
  - pose proof (fail_capacity env q w rid err mc mw H) as E.
    destruct (CrashProofQueue.fail env q w rid err) as [q1 w1]; exact E.
Qed.

Lemma run_capacity env ops : forall q w mc mw,
  0 <= mc ->
  capacity_inv mc mw q ->
  capacity_inv mc mw (queue_after env ops q w).
Proof.
  unfold queue_after.
  induction ops as [|o ops IH]; intros q w mc mw Hmc H; simpl; [exact H|].
  pose proof (step_capacity env o q w mc mw Hmc H) as S1.
  destruct (step env o q w) as [[out q1] w1]. simpl in S1.
  specialize (IH q1 w1 mc mw Hmc S1).
  destruct (run env ops q1 w1) as [[outs q2] w2]. exact IH.
Qed.

(** C1, as amended.  From an empty queue with non-negative bounds, after
    every finite sequence of enqueue/dequeue/complete/fail calls (hence
    between any two of them) the processing table holds at most
    [max_concurrent] requests, and waiting plus processing requests
    number at most [max_waiting + max_concurrent]: [fail] puts a request
    back into the waiting room without asking for a free place. *)
Theorem capacity_bounds env name mc mw ops w :
  0 <= mc -> 0 <= mw ->
  let q := queue_after env ops (CrashProofQueue.init name mc mw) w in
  Dict.len (CrashProofQueue.processing q) <= CrashProofQueue.max_concurrent q
  /\ Z.of_nat (List.length (CrashProofQueue.waiting q))
     + Dict.len (CrashProofQueue.processing q)
     <= CrashProofQueue.max_waiting q + CrashProofQueue.max_concurrent q.
Proof.
  intros Hmc Hmw q.
  assert (I : capacity_inv mc mw q).
  { apply run_capacity; [assumption|].
    unfold capacity_inv, Dict.len; simpl. repeat split; lia. }
  open_inv I. rewrite Hc, Hw. split; assumption.
Qed.

Lemma capacity_bounds_witness :
  let q := queue_after (calm ["a"; "b"]) requeue_script
                       (CrashProofQueue.init "m" 1 1) empty_world in
  Dict.len (CrashProofQueue.processing q) <= CrashProofQueue.max_concurrent q
  /\ Z.of_nat (List.length (CrashProofQueue.waiting q))
     + Dict.len (CrashProofQueue.processing q)
     <= CrashProofQueue.max_waiting q + CrashProofQueue.max_concurrent q.
Proof.
  apply (capacity_bounds (calm ["a"; "b"]) "m" 1 1 requeue_script empty_world);
    lia.
Defined.

(** C1, as stated, fails: with one slot and one waiting place, after
    enqueue, dequeue, enqueue, fail the waiting room holds two requests. *)
Lemma waiting_bound_exceeded :
  let q := queue_after (calm ["a"; "b"]) requeue_script
                       (CrashProofQueue.init "m" 1 1) empty_world in
  map QueuedRequest.request_id (CrashProofQueue.waiting q) = ["b"; "a"]
  /\ CrashProofQueue.max_waiting q = 1
  /\ ~ within_bounds q.
Proof.
  vm_compute. repeat split; try reflexivity.
  intros [_ H]. apply H. reflexivity.
Qed.

(* ===================================================================== *)
(** ** Admission *)
(* ===================================================================== *)

(** C8.  [enqueue] raises [QueueFullError] exactly when the waiting room
    already holds [max_waiting] requests or more; it then returns the
    queue and the world as they were (no uuid drawn, no clock read,
    nothing handed to the database), and otherwise returns the freshly
    drawn id.  With [max_waiting = 3], four enqueues give three ids and
    one [QueueFullError]. *)
Theorem enqueue_queue_full env q w p t c pr to :
  let full := CrashProofQueue.max_waiting q
              <= Z.of_nat (List.length (CrashProofQueue.waiting q)) in
  let res := CrashProofQueue.enqueue env q w p t c pr to in
  ((exists e, fst (fst res) = inl e) <-> full)
  /\ (full ->
      res = (inl (QueueFull ("Queue full for "
                             ++ CrashProofQueue.model_name q)%string), q, w))
  /\ (~ full -> fst (fst res) = inr (uuid4 env (uuid_calls w)))
  /\ outcomes (calm ["a"; "b"; "c"; "d"]) admission_script
              (CrashProofQueue.init "m" 1 3) empty_world
     = [Enqueued "a"; Enqueued "b"; Enqueued "c";
        Rejected (QueueFull "Queue full for m")].
Proof.
  intros full res. subst full res.
  assert (Scenario :
            outcomes (calm ["a"; "b"; "c"; "d"]) admission_script
                     (CrashProofQueue.init "m" 1 3) empty_world
            = [Enqueued "a"; Enqueued "b"; Enqueued "c";
               Rejected (QueueFull "Queue full for m")])
    by (vm_compute; reflexivity).
  unfold CrashProofQueue.enqueue.
  destruct (_ >=? _) eqn:Full; rewrite Z.geb_leb in Full.
  - apply Z.leb_le in Full.
    split; [split; [intros _; exact Full | intros _; eexists; reflexivity]|].
    split; [intros _; reflexivity|].
    split; [intros N; contradiction | exact Scenario].
  - apply Z.leb_gt in Full.
    split; [split; [intros [e E]; discriminate E | intros F; lia]|].
    split; [intros F; lia|].
    split; [intros _; reflexivity | exact Scenario].
Qed.

Lemma enqueue_queue_full_witness :
  let q := queue_after (calm ["a"; "b"; "c"; "d"])
                       (firstn 3 admission_script)
                       (CrashProofQueue.init "m" 1 3) empty_world in
  let w := world_after (calm ["a"; "b"; "c"; "d"])
                       (firstn 3 admission_script)
                       (CrashProofQueue.init "m" 1 3) empty_world in
  CrashProofQueue.enqueue (calm ["a"; "b"; "c"; "d"]) q w "p4" "chat" "c"
                          NORMAL 300
  = (inl (QueueFull "Queue full for m"), q, w).
Proof.
  intros q w.
  apply (proj1 (proj2 (enqueue_queue_full (calm ["a"; "b"; "c"; "d"]) q w
                         "p4" "chat" "c" NORMAL 300))).
  vm_compute. discriminate.
Defined.

(* ===================================================================== *)
(** ** Priority order of the waiting room *)
(* ===================================================================== *)

Lemma forallb_rank_le x y l :
  rank x <= rank y ->
  forallb (fun z => rank y <=? rank z) l = true ->
  forallb (fun z => rank x <=? rank z) l = true.
Proof.
  intros Hxy H. rewrite forallb_forall in *. intros z Hz.
  specialize (H z Hz). apply Z.leb_le in H. apply Z.leb_le. lia.
Qed.

Lemma insert_into_In r l x :
  In x (CrashProofQueue.insert_into r l) -> x = r \/ In x l.
Proof.
  induction l as [|y l IH]; simpl.
  - intros [<-|[]]. now left.
  - destruct (_ <? _); simpl.
    + intros [<-|H]; [now left | now right].
    + intros [<-|H]; [right; now left|].
      destruct (IH H) as [->|H']; [now left | right; now right].
Qed.

Lemma insert_into_ordered r l :
  in_priority_order l = true ->
  in_priority_order (CrashProofQueue.insert_into r l) = true.
Proof.
  induction l as [|x l IH]; simpl; [reflexivity|].
  intros H. apply andb_prop in H as [Hx Hl].
  fold (rank r) (rank x).
  destruct (rank r <? rank x) eqn:C.
  - apply Z.ltb_lt in C. simpl. rewrite Hx, Hl.
    replace (rank r <=? rank x) with true by (symmetry; apply Z.leb_le; lia).
    simpl. rewrite (forallb_rank_le r x l) by (assumption || lia).
    reflexivity.
  - apply Z.ltb_ge in C. simpl. rewrite (IH Hl), andb_true_r.
    apply forallb_forall. intros z Hz.
    destruct (insert_into_In _ _ _ Hz) as [->|Hz'].
    + apply Z.leb_le. exact C.
    + rewrite forallb_forall in Hx. exact (Hx z Hz').
Qed.

Lemma insert_into_buckets r l :
  in_priority_order l = true ->
  CrashProofQueue.insert_into r l
  = filter (fun x => rank x <=? rank r) l
    ++ r :: filter (fun x => rank r <? rank x) l.
Proof.
  induction l as [|x l IH]; simpl; [reflexivity|].
  intros H. apply andb_prop in H as [Hx Hl].
  fold (rank r) (rank x).
  destruct (rank r <? rank x) eqn:C.
  - apply Z.ltb_lt in C.
    replace (rank x <=? rank r) with false by (symmetry; apply Z.leb_gt; lia).
    assert (A : forall z, In z l -> rank r < rank z).
    { intros z Hz. rewrite forallb_forall in Hx. specialize (Hx z Hz).
      apply Z.leb_le in Hx. lia. }
    assert (F1 : filter (fun z => rank z <=? rank r) l = []).
    { clear -A. induction l as [|z l IH]; simpl; [reflexivity|].
      replace (rank z <=? rank r) with false
        by (symmetry; apply Z.leb_gt; apply A; now left).
      apply IH. intros y Hy. apply A. now right. }
    assert (F2 : filter (fun z => rank r <? rank z) l = l).
    { clear -A. induction l as [|z l IH]; simpl; [reflexivity|].
      replace (rank r <? rank z) with true
        by (symmetry; apply Z.ltb_lt; apply A; now left).
      f_equal. apply IH. intros y Hy. apply A. now right. }
    rewrite F1, F2. reflexivity.
  - apply Z.ltb_ge in C.
    replace (rank x <=? rank r) with true by (symmetry; apply Z.leb_le; lia).
    simpl. rewrite (IH Hl). reflexivity.
Qed.

Lemma tail_ordered x l :
  in_priority_order (x :: l) = true -> in_priority_order l = true.
Proof. simpl. intros H. apply andb_prop in H. tauto. Qed.

Lemma step_ordered env o q w :
  in_priority_order (CrashProofQueue.waiting q) = true ->
  in_priority_order (CrashProofQueue.waiting (snd (fst (step env o q w))))
  = true.
Proof.
  intros H. destruct o as [p t c pr to| |rid res|rid err]; simpl.
  - unfold CrashProofQueue.enqueue. destruct (_ >=? _); simpl; [exact H|].
    apply insert_into_ordered, H.
  - unfold CrashProofQueue.dequeue. destruct (_ >=? _); simpl; [exact H|].
    destruct (CrashProofQueue.waiting q) as [|r rest] eqn:W; simpl.
    + rewrite W. reflexivity.
    + eapply tail_ordered, H.
  - unfold CrashProofQueue.complete.
    destruct (Dict.pop rid _) as [[r d']|]; simpl; exact H.
  - unfold CrashProofQueue.fail.
    destruct (Dict.pop rid _) as [[r d']|]; simpl; [|exact H].
    destruct (_ <? _); simpl; [|exact H].
    apply insert_into_ordered, H.
Qed.

Lemma run_ordered env ops : forall q w,
  in_priority_order (CrashProofQueue.waiting q) = true ->
  in_priority_order (CrashProofQueue.waiting (queue_after env ops q w)) = true.
Proof.
  unfold queue_after.
  induction ops as [|o ops IH]; intros q w H; simpl; [exact H|].
  pose proof (step_ordered env o q w H) as S1.
  destruct (step env o q w) as [[out q1] w1]. simpl in S1.
  specialize (IH q1 w1 S1).
  destruct (run env ops q1 w1) as [[outs q2] w2]. exact IH.
Qed.

(** C5, as stated, fails: in the literal scenario the HIGH request is
    handed out first, not second. *)
Lemma high_priority_not_second :
  priority_dispatches <> ["n1"; "h1"; "n2"; "n3"; "n4"; "n5"].
Proof. vm_compute. discriminate. Qed.

(** C5, as amended.  In the literal scenario the dispatch order is
    h1, n1, n2, n3, n4, n5.  In general the waiting room of a queue that
    started empty is in priority order after any sequence of calls, and a
    request inserted into a waiting room in priority order goes behind
    every request of higher or equal priority (FIFO inside its bucket)
    and in front of every request of lower priority, leaving the room in
    priority order. *)
Theorem priority_buckets_fifo :
  priority_dispatches = ["h1"; "n1"; "n2"; "n3"; "n4"; "n5"]
  /\ (forall env name mc mw ops w,
        in_priority_order
          (CrashProofQueue.waiting
             (queue_after env ops (CrashProofQueue.init name mc mw) w))
        = true)
  /\ (forall r l,
        in_priority_order l = true ->
        CrashProofQueue.insert_into r l
        = filter (fun x => rank x <=? rank r) l
          ++ r :: filter (fun x => rank r <? rank x) l
        /\ in_priority_order (CrashProofQueue.insert_into r l) = true).
Proof.
  split; [vm_compute; reflexivity|]. split.
  - intros env name mc mw ops w. apply run_ordered. reflexivity.
  - intros r l H. split; [apply insert_into_buckets | apply insert_into_ordered];
      exact H.
Qed.

Lemma priority_buckets_fifo_witness :
  let h := QueuedRequest.mk "h" "B" "chat" "c" "p" HIGH QUEUED 0 None None
                            300 0 3 None None in
  let n := QueuedRequest.mk "n" "B" "chat" "c" "p" NORMAL QUEUED 0 None None
                            300 0 3 None None in
  let l := QueuedRequest.mk "l" "B" "chat" "c" "p" LOW QUEUED 0 None None
                            300 0 3 None None in
  let m := QueuedRequest.mk "m" "B" "chat" "c" "p" NORMAL QUEUED 1 None None
                            300 0 3 None None in
  CrashProofQueue.insert_into m [h; n; l] = [h; n; m; l]
  /\ in_priority_order (CrashProofQueue.insert_into m [h; n; l]) = true.
Proof.
  intros h n l m.
  exact (proj2 (proj2 priority_buckets_fifo) m [h; n; l] eq_refl).
Defined.

(* ===================================================================== *)
(** ** Retries *)
(* ===================================================================== *)

Lemma failing_worker_idle env err n : forall q w,
  CrashProofQueue.waiting q = [] ->
  failing_worker env err n q w = ([], q, w).
Proof.
  induction n as [|n IH]; intros q w W; simpl; [reflexivity|].
  unfold dispatch_and_fail, CrashProofQueue.dequeue. rewrite W.
  destruct (_ >=? _); rewrite (IH q w W); reflexivity.
Qed.

(** One round of the failing worker on a queue whose only request is
    waiting: the request is dispatched, and then either queued again with
    one more retry on its count or failed for good. *)
Lemma dispatch_and_fail_single env err q w r :
  CrashProofQueue.waiting q = [r] ->
  CrashProofQueue.processing q = [] ->
  1 <= CrashProofQueue.max_concurrent q ->
  exists q' w' r',
    dispatch_and_fail env err q w = (Some (QueuedRequest.request_id r), q', w')
    /\ (exists old, db_log w' = old ++ [QueuedRequest.to_dict r'])
    /\ CrashProofQueue.processing q' = []
    /\ CrashProofQueue.max_concurrent q' = CrashProofQueue.max_concurrent q
    /\ QueuedRequest.request_id r' = QueuedRequest.request_id r
    /\ QueuedRequest.max_retries r' = QueuedRequest.max_retries r
    /\ QueuedRequest.retry_count r' = QueuedRequest.retry_count r + 1
    /\ ((QueuedRequest.retry_count r + 1 < QueuedRequest.max_retries r
         /\ CrashProofQueue.waiting q' = [r']
         /\ QueuedRequest.status r' = QUEUED
         /\ CrashProofQueue.total_failed q' = CrashProofQueue.total_failed q)
        \/ (QueuedRequest.max_retries r <= QueuedRequest.retry_count r + 1
            /\ CrashProofQueue.waiting q' = []
            /\ QueuedRequest.status r' = FAILED
            /\ QueuedRequest.completed_at r' <> None
            /\ CrashProofQueue.total_failed q'
               = CrashProofQueue.total_failed q + 1)).
Proof.
  intros W P Hmc.
  destruct q as [mn mc mw pr wt tp tf tt ir]. simpl in W, P, Hmc. subst pr wt.
  unfold dispatch_and_fail, CrashProofQueue.dequeue.
  cbn [CrashProofQueue.processing CrashProofQueue.max_concurrent
       CrashProofQueue.waiting].
  replace (Dict.len [] >=? mc) with false
    by (symmetry; rewrite Z.geb_leb; apply Z.leb_gt; unfold Dict.len; simpl; lia).
  unfold CrashProofQueue.fail, Dict.pop.
  cbn -[Z.ltb Z.add]. rewrite String.eqb_refl. cbn -[Z.ltb Z.add].
  destruct (QueuedRequest.retry_count r + 1 <? QueuedRequest.max_retries r)
    eqn:C.
  - apply Z.ltb_lt in C. do 3 eexists. split; [reflexivity|].
    split; [eexists; reflexivity|].
    cbn -[Z.ltb Z.add].
    repeat (split; [reflexivity|]).
    left. repeat split; try reflexivity. exact C.
  - apply Z.ltb_ge in C. do 3 eexists. split; [reflexivity|].
    split; [eexists; reflexivity|].
    cbn -[Z.ltb Z.add].
    repeat (split; [reflexivity|]).
    right. repeat split; try reflexivity; try exact C. discriminate.
Qed.

(** For every retry budget: a waiting request that is failed after every
    dispatch is dispatched [max 1 (max_retries - retry_count)] times, then
    leaves the queue as FAILED and is counted in [total_failed] once. *)
Lemma always_failing_request env err : forall d r q w n,
  dispatches_left r = d ->
  CrashProofQueue.waiting q = [r] ->
  CrashProofQueue.processing q = [] ->
  1 <= CrashProofQueue.max_concurrent q ->
  (d <= n)%nat ->
  exists q' w' f old,
    failing_worker env err n q w
    = (repeat (QueuedRequest.request_id r) d, q', w')
    /\ CrashProofQueue.waiting q' = []
    /\ CrashProofQueue.processing q' = []
    /\ CrashProofQueue.total_failed q' = CrashProofQueue.total_failed q + 1
    /\ db_log w' = old ++ [QueuedRequest.to_dict f]
    /\ QueuedRequest.request_id f = QueuedRequest.request_id r
    /\ QueuedRequest.status f = FAILED
    /\ QueuedRequest.completed_at f <> None.
Proof.
  induction d as [d IH] using lt_wf_ind.
  intros r q w n D W P Hmc Hn.
  destruct n as [|n].
  { unfold dispatches_left in D. lia. }
  destruct (dispatch_and_fail_single env err q w r W P Hmc)
    as (q1 & w1 & r1 & E & [old1 L1] & P1 & M1 & Id1 & Mx1 & Rc1 & Cases).
  simpl. rewrite E.
  destruct Cases as [(C & W1 & St1 & Tf1) | (C & W1 & St1 & Ca1 & Tf1)].
  - (* queued again *)
    assert (D1 : dispatches_left r1 = pred d).
    { unfold dispatches_left in *. rewrite Mx1, Rc1. lia. }
    assert (Dpos : (2 <= d)%nat).
    { unfold dispatches_left in D. lia. }
    destruct (IH (pred d) ltac:(lia) r1 q1 w1 n D1 W1 P1 ltac:(lia) ltac:(lia))
      as (q2 & w2 & f & old & E2 & W2 & P2 & Tf2 & L2 & Id2 & St2 & Ca2).
    rewrite E2. exists q2, w2, f, old.
    split.
    { rewrite Id1. replace d with (S (pred d)) at 2 by lia. reflexivity. }
    repeat split; try assumption; try congruence.
  - (* failed for good *)
    assert (D1 : d = 1%nat).
    { unfold dispatches_left in D. lia. }
    rewrite (failing_worker_idle env err n q1 w1 W1).
    exists q1, w1, r1, old1. subst d. rewrite D1. simpl.
    repeat split; try assumption.
Qed.

(** C2, as stated, fails: a request admitted through [enqueue] (retry
    budget 3) that a worker fails after every dispatch is dispatched three
    times, not four.  Its row is then FAILED with a completion time, the
    queue is empty and [total_failed] is 1. *)
Lemma default_budget_three_dispatches :
  fst (fst retry_run) = ["a"; "a"; "a"]
  /\ List.length (fst (fst retry_run)) <> 4%nat
  /\ CrashProofQueue.total_failed (snd (fst retry_run)) = 1
  /\ CrashProofQueue.waiting (snd (fst retry_run)) = []
  /\ CrashProofQueue.processing (snd (fst retry_run)) = []
  /\ map (fun d => (d_status d, d_retry_count d, d_max_retries d,
                    d_completed_at d))
         (collection (snd retry_run))
     = [("failed", 3, 3, Some 4000000)].
Proof. vm_compute. repeat split; try reflexivity. discriminate. Qed.

(** C2, as amended.  For every retry budget [b >= 0], a request waiting
    alone with [max_retries = b] and no retry on its count, failed by the
    worker after every dispatch, is dispatched exactly [max 1 b] times
    (three times for [b = 3]); it then leaves the queue, the last row
    handed to the database for it is FAILED with a completion time, and
    [total_failed] has grown by exactly one, however many more rounds the
    worker runs. *)
Theorem always_failing_dispatch_count env err b r q w n :
  0 <= b ->
  QueuedRequest.max_retries r = b ->
  QueuedRequest.retry_count r = 0 ->
  CrashProofQueue.waiting q = [r] ->
  CrashProofQueue.processing q = [] ->
  1 <= CrashProofQueue.max_concurrent q ->
  (Z.to_nat (Z.max 1 b) <= n)%nat ->
  exists q' w' f old,
    failing_worker env err n q w
    = (repeat (QueuedRequest.request_id r) (Z.to_nat (Z.max 1 b)), q', w')
    /\ CrashProofQueue.waiting q' = []
    /\ CrashProofQueue.processing q' = []
    /\ CrashProofQueue.total_failed q' = CrashProofQueue.total_failed q + 1
    /\ db_log w' = old ++ [QueuedRequest.to_dict f]
    /\ QueuedRequest.request_id f = QueuedRequest.request_id r
    /\ QueuedRequest.status f = FAILED
    /\ QueuedRequest.completed_at f <> None.
Proof.
  intros Hb Mx Rc W P Hmc Hn.
  apply (always_failing_request env err (Z.to_nat (Z.max 1 b)) r q w n);
    try assumption.
  unfold dispatches_left. rewrite Mx, Rc. f_equal. lia.
Qed.

Lemma always_failing_dispatch_count_witness :
  let env := calm ["a"] in
  let q := queue_after env [Enqueue "p" "chat" "c" NORMAL 300]
                       (CrashProofQueue.init "m" 1 10) empty_world in
  let w := world_after env [Enqueue "p" "chat" "c" NORMAL 300]
                       (CrashProofQueue.init "m" 1 10) empty_world in
  fst (fst (failing_worker env "boom" 10 q w)) = ["a"; "a"; "a"]
  /\ CrashProofQueue.total_failed (snd (fst (failing_worker env "boom" 10 q w)))
     = 1.
Proof.
  intros env q w.
  destruct (always_failing_dispatch_count env "boom" 3
              (QueuedRequest.mk "a" "m" "chat" "c" "p" NORMAL QUEUED 0
                                None None 300 0 3 None None)
              q w 10 ltac:(lia) eq_refl eq_refl eq_refl eq_refl)
    as (q' & w' & f & old & E & _ & _ & T & _).
  - simpl. lia.
  - simpl. lia.
  - rewrite E. simpl. split; [reflexivity | exact T].
Defined.

(* ===================================================================== *)
(** ** Terminal rows and their completion time *)
(* ===================================================================== *)

(** Every row that enqueue, dequeue, complete or fail hands to the
    database obeys "terminal status implies completed_at set". *)
Lemma step_rows_settled env o q w :
  exists rows,
    db_log (snd (step env o q w)) = db_log w ++ rows
    /\ forallb row_settled rows = true.
Proof.
  destruct o as [p t c pr to| |rid res|rid err]; simpl.
  - unfold CrashProofQueue.enqueue. destruct (_ >=? _); simpl.
    + exists []. now rewrite app_nil_r.
    + eexists [_]. split; reflexivity.
  - unfold CrashProofQueue.dequeue. destruct (_ >=? _); simpl.
    + exists []. now rewrite app_nil_r.
    + destruct (CrashProofQueue.waiting q); simpl.
      * exists []. now rewrite app_nil_r.
      * eexists [_]. split; reflexivity.
  - unfold CrashProofQueue.complete.
    destruct (Dict.pop rid _) as [[r d']|]; simpl.
    + eexists [_]. split; reflexivity.
    + exists []. now rewrite app_nil_r.
  - unfold CrashProofQueue.fail.
    destruct (Dict.pop rid _) as [[r d']|]; simpl.
    + destruct (_ <? _); simpl; eexists [_]; split; reflexivity.
    + exists []. now rewrite app_nil_r.
Qed.


(* ===================================================================== *)
(** ** What the database holds when dequeue returns *)
(* ===================================================================== *)

Lemma find_one_update_one d c :
  find_one (d_request_id d) (update_one d c) = Some d.
Proof.
  induction c as [|x c IH]; simpl.
  - now rewrite String.eqb_refl.
  - destruct (String.eqb (d_request_id x) (d_request_id d)) eqn:E; simpl.
    + now rewrite String.eqb_refl.
    + now rewrite E.
Qed.

(** C6, as stated, fails: when the database rejects the write of
    [dequeue], the request is returned as PROCESSING while its row still
    says "queued". *)
Lemma dequeue_returns_despite_failed_write :
  let env := first_writes_only 1 ["a"] in
  match run env [Enqueue "p" "chat" "c" NORMAL 300]
            (CrashProofQueue.init "m" 1 10) empty_world with
  | (_, q, w) =>
      match CrashProofQueue.dequeue env q w with
      | (Some r, _, w') =>
          QueuedRequest.request_id r = "a"
          /\ QueuedRequest.status r = PROCESSING
          /\ option_map d_status (find_one "a" (collection w'))
             = Some "queued"
      | (None, _, _) => False
      end
  end.
Proof. vm_compute. repeat split; reflexivity. Qed.

(** C6, as amended.  When [dequeue] returns a request, it is PROCESSING
    and the update of its row has been handed to the database before the
    return; if the database accepts that write the row of its id is the
    PROCESSING request, and if it rejects it the collection is left as it
    was and the request is returned all the same. *)
Theorem dequeue_row_when_write_accepted env q w r q' w' :
  CrashProofQueue.dequeue env q w = (Some r, q', w') ->
  QueuedRequest.status r = PROCESSING
  /\ db_log w' = db_log w ++ [QueuedRequest.to_dict r]
  /\ (update_one_ok env (List.length (db_log w)) = true ->
      find_one (QueuedRequest.request_id r) (collection w')
      = Some (QueuedRequest.to_dict r)
      /\ d_status (QueuedRequest.to_dict r) = "processing")
  /\ (update_one_ok env (List.length (db_log w)) = false ->
      collection w' = collection w).
Proof.
  unfold CrashProofQueue.dequeue.
  destruct (_ >=? _); [discriminate|].
  destruct (CrashProofQueue.waiting q) as [|x rest]; [discriminate|].
  simpl. intros E. injection E as <- <- <-. simpl.
  split; [reflexivity|]. split; [reflexivity|]. split.
  - intros Ok. rewrite Ok. split; [|reflexivity].
    apply (find_one_update_one
             (QueuedRequest.to_dict
                (QueuedRequest.set_started_at
                   (Some (utcnow env (clock_reads w)))
                   (QueuedRequest.set_status PROCESSING x)))).
  - intros Ko. rewrite Ko. reflexivity.
Qed.

Lemma dequeue_row_when_write_accepted_witness :
  let env := calm ["a"] in
  let q := queue_after env [Enqueue "p" "chat" "c" NORMAL 300]
                       (CrashProofQueue.init "m" 1 10) empty_world in
  let w := world_after env [Enqueue "p" "chat" "c" NORMAL 300]
                       (CrashProofQueue.init "m" 1 10) empty_world in
  let r := QueuedRequest.mk "a" "m" "chat" "c" "p" NORMAL PROCESSING 0
                            (Some 1000000) None 300 0 3 None None in
  option_map d_status (find_one "a" (collection w)) = Some "queued"
  /\ option_map d_status
       (find_one "a" (collection (snd (CrashProofQueue.dequeue env q w))))
     = Some "processing".
Proof.
  intros env q w r. split; [reflexivity|].
  destruct (dequeue_row_when_write_accepted env q w r
              (snd (fst (CrashProofQueue.dequeue env q w)))
              (snd (CrashProofQueue.dequeue env q w)) eq_refl)
    as (_ & _ & Ok & _).
  destruct (Ok eq_refl) as [Row St].
  change (QueuedRequest.request_id r) with "a" in Row.
  rewrite Row. simpl. reflexivity.
Defined.

(* ===================================================================== *)
(** ** Crash recovery, run twice *)
(* ===================================================================== *)

Lemma recover_doc_unreadable env q w d :
  QueuedRequest.from_dict d = None ->
  CrashProofQueue.recover_doc env (q, w) d = (q, w).
Proof. intros E. unfold CrashProofQueue.recover_doc. now rewrite E. Qed.

Lemma recover_doc_recoverable env q w d r :
  QueuedRequest.from_dict d = Some r ->
  recoverable d = true ->
  CrashProofQueue.recover_doc env (q, w) d
  = (CrashProofQueue._insert_by_priority q (revived r), w).
Proof.
  intros E R. unfold recoverable in R. rewrite E in R.
  unfold CrashProofQueue.recover_doc. rewrite E.
  change (if RequestStatus_eqb (QueuedRequest.status r) PROCESSING
          then _ else r) with (revived r).
  cbv zeta. now rewrite R.
Qed.

Lemma recover_doc_exhausted env q w d r :
  QueuedRequest.from_dict d = Some r ->
  exhausted d = true ->
  CrashProofQueue.recover_doc env (q, w) d
  = (q, CrashProofQueue._persist_request env w
          (QueuedRequest.set_status FAILED (revived r))).
Proof.
  intros E X. unfold exhausted in X. rewrite E in X.
  apply negb_true_iff in X.
  unfold CrashProofQueue.recover_doc. rewrite E.
  change (if RequestStatus_eqb (QueuedRequest.status r) PROCESSING
          then _ else r) with (revived r).
  cbv zeta. now rewrite X.
Qed.

Lemma recoverable_or_exhausted d r :
  QueuedRequest.from_dict d = Some r ->
  (recoverable d = true /\ exhausted d = false)
  \/ (recoverable d = false /\ exhausted d = true).
Proof.
  intros E. unfold recoverable, exhausted. rewrite E.
  destruct (_ <? _); simpl; tauto.
Qed.



Lemma from_dict_request_id d r :
  QueuedRequest.from_dict d = Some r ->
  QueuedRequest.request_id r = d_request_id d.
Proof.
  unfold QueuedRequest.from_dict.
  destruct (Priority_of _); [|discriminate].
  destruct (RequestStatus_of _); [|discriminate].
  intros E. injection E as <-. reflexivity.
Qed.

Lemma revived_request_id r :
  QueuedRequest.request_id (revived r) = QueuedRequest.request_id r.
Proof. unfold revived. destruct (RequestStatus_eqb _ _); reflexivity. Qed.


Lemma from_dict_model_name d r :
  QueuedRequest.from_dict d = Some r ->
  QueuedRequest.model_name r = d_model_name d.
Proof.
  unfold QueuedRequest.from_dict.
  destruct (Priority_of _); [|discriminate].
  destruct (RequestStatus_of _); [|discriminate].
  intros E. injection E as <-. reflexivity.
Qed.











(* ===================================================================== *)
(** ** Timeout detection *)
(* ===================================================================== *)

Section TableFacts.
Context {V : Type}.
Implicit Types (d : Dict.t V) (k : string) (v : V).



Lemma dict_keys_remove d k x :
  In x (Dict.keys (Dict.remove k d)) -> In x (Dict.keys d).
Proof.
  induction d as [|[k0 v0] d IH]; simpl; [tauto|].
  destruct (String.eqb k0 k); simpl; [tauto|].
  intros [H|H]; [now left | right; now apply IH].
Qed.


Lemma dict_remove_NoDup d k :
  NoDup (Dict.keys d) -> NoDup (Dict.keys (Dict.remove k d)).
Proof.
  induction d as [|[k0 v0] d IH]; simpl; [tauto|].
  intros ND. inversion ND as [|? ? Nin ND']; subst.
  destruct (String.eqb k0 k); [exact ND'|].
  simpl. constructor; [|now apply IH].
  intros H. apply Nin. eapply dict_keys_remove, H.
Qed.


Lemma dict_set_keys_NoDup d k v :
  NoDup (Dict.keys d) -> NoDup (Dict.keys (Dict.set k v d)).
Proof.
  induction d as [|[k0 v0] d IH]; simpl.
  - intros _. constructor; [intros []|constructor].
  - intros ND. inversion ND as [|? ? Nin ND']; subst.
    destruct (String.eqb k0 k) eqn:E; simpl.
    + apply String.eqb_eq in E. subst k0. exact ND.
    + constructor; [|now apply IH].
      intros H. apply Nin. clear -H E.
      induction d as [|[k1 v1] d IH]; simpl in *.
      * destruct H as [H|[]]. subst. rewrite String.eqb_refl in E.
        discriminate.
      * destruct (String.eqb k1 k); simpl in H.
        -- destruct H as [H|H]; [subst; rewrite String.eqb_refl in E;
                                  discriminate | now right].
        -- destruct H as [H|H]; [now left | right; now apply IH].
Qed.

Lemma dict_set_Forall (P : string * V -> Prop) d k v :
  P (k, v) -> Forall P d -> Forall P (Dict.set k v d).
Proof.
  intros Pk. induction d as [|[k0 v0] d IH]; simpl; intros F.
  - constructor; [exact Pk|constructor].
  - inversion F; subst. destruct (String.eqb k0 k).
    + constructor; assumption.
    + constructor; [assumption | now apply IH].
Qed.

Lemma dict_remove_Forall (P : string * V -> Prop) d k :
  Forall P d -> Forall P (Dict.remove k d).
Proof.
  induction d as [|[k0 v0] d IH]; simpl; intros F; [constructor|].
  inversion F; subst. destruct (String.eqb k0 k); [assumption|].
  constructor; [assumption | now apply IH].
Qed.

End TableFacts.













(** Every sequence of calls keeps the processing table well formed. *)
Lemma step_processing_wf env o q w :
  processing_wf q -> processing_wf (snd (fst (step env o q w))).
Proof.
  intros [ND F]. destruct o as [p t c pr to| |rid res|rid err]; simpl.
  - unfold CrashProofQueue.enqueue. destruct (_ >=? _); simpl; now split.
  - unfold CrashProofQueue.dequeue. destruct (_ >=? _); simpl; [now split|].
    destruct (CrashProofQueue.waiting q) as [|r rest]; simpl; [now split|].
    split; simpl.
    + now apply dict_set_keys_NoDup.
    + apply dict_set_Forall; [|exact F]. simpl. repeat split. discriminate.
  - unfold CrashProofQueue.complete, Dict.pop.
    destruct (Dict.get rid _); simpl; [|now split].
    split; simpl; [now apply dict_remove_NoDup | now apply dict_remove_Forall].
  - unfold CrashProofQueue.fail, Dict.pop.
    destruct (Dict.get rid _); simpl; [|now split].
    destruct (_ <? _); simpl;
      (split; simpl;
       [now apply dict_remove_NoDup | now apply dict_remove_Forall]).
Qed.

Lemma run_processing_wf env ops : forall q w,
  processing_wf q -> processing_wf (queue_after env ops q w).
Proof.
  unfold queue_after.
  induction ops as [|o ops IH]; intros q w H; simpl; [exact H|].
  pose proof (step_processing_wf env o q w H) as S1.
  destruct (step env o q w) as [[out q1] w1]. simpl in S1.
  specialize (IH q1 w1 S1).
  destruct (run env ops q1 w1) as [[outs q2] w2]. exact IH.
Qed.

Lemma recover_doc_processing env acc d :
  CrashProofQueue.processing (fst (CrashProofQueue.recover_doc env acc d))
  = CrashProofQueue.processing (fst acc).
Proof.
  destruct acc as [q w]. unfold CrashProofQueue.recover_doc.
  destruct (QueuedRequest.from_dict d) as [r|]; [|reflexivity].
  destruct (_ <? _); reflexivity.
Qed.

(** Crash recovery does not touch the processing table. *)
Lemma recover_processing_wf env q w :
  processing_wf q ->
  processing_wf (fst (CrashProofQueue.recover_from_crash env q w)).
Proof.
  unfold CrashProofQueue.recover_from_crash, processing_wf.
  generalize (find_pending (CrashProofQueue.model_name q) (collection w)).
  intros ds. revert q w.
  induction ds as [|d ds IH]; intros q w H; [exact H|].
  cbn [fold_left].
  destruct (CrashProofQueue.recover_doc env (q, w) d) as [q1 w1] eqn:E.
  apply IH.
  pose proof (recover_doc_processing env (q, w) d) as P.
  rewrite E in P. simpl in P. rewrite P. exact H.
Qed.

Lemma filter_keys_NoDup (f : string * QueuedRequest.t -> bool) l :
  NoDup (Dict.keys l) -> NoDup (Dict.keys (filter f l)).
Proof.
  induction l as [|[k v] l IH]; simpl; [constructor|].
  intros ND. inversion ND as [|? ? Nin ND']; subst.
  destruct (f (k, v)); [|now apply IH].
  simpl. constructor; [|now apply IH].
  intros H. apply Nin. unfold Dict.keys in *.
  apply in_map_iff in H as (kv & Ek & Hin).
  apply filter_In in Hin as [Hin _].
  rewrite <- Ek. now apply in_map.
Qed.

(** A pass of the detection loop leaves the table well formed. *)
Lemma without_wf ids q q' :
  processing_wf q ->
  CrashProofQueue.processing q' = without ids (CrashProofQueue.processing q) ->
  processing_wf q'.
Proof.
  intros [ND F] E. unfold processing_wf. rewrite E. unfold without. split.
  - now apply filter_keys_NoDup.
  - apply Forall_forall. intros kv Hin. apply filter_In in Hin as [Hin _].
    rewrite Forall_forall in F. now apply F.
Qed.



(* ===================================================================== *)
(** ** The auto-switcher and busy queues *)
(* ===================================================================== *)

Lemma all_idle_busy qs :
  (exists q, In q qs
             /\ CrashProofQueue.m_processing (CrashProofQueue.get_metrics q) > 0) ->
  AutoSwitcher.all_idle qs = false.
Proof.
  induction qs as [|q0 qs IH]; intros (q & Hin & Hq); [destruct Hin|].
  simpl. destruct (_ >? _) eqn:E; [reflexivity|].
  destruct Hin as [->|Hin].
  - simpl in Hq, E. rewrite Z.gtb_ltb in E. apply Z.ltb_ge in E. lia.
  - apply IH. exists q. split; assumption.
Qed.

(** C9.  If some queue reports [processing > 0] when
    [_check_and_switch] runs, the step makes no call of [switch_model]
    and leaves the auto-switcher, [last_switch] included, as it was:
    whatever the cooldown, the recommendation and the manager. *)
Theorem busy_queue_postpones_switch env c self w :
  some_queue_busy self ->
  let res := AutoSwitcher._check_and_switch env c self w in
  snd res = []
  /\ fst (fst res) = self
  /\ AutoSwitcher.last_switch (fst (fst res)) = AutoSwitcher.last_switch self.
Proof.
  intros Busy res.
  assert (Idle : AutoSwitcher._are_queues_idle self = false)
    by (apply all_idle_busy; exact Busy).
  assert (Inner : forall w0,
             AutoSwitcher.switch_if_recommended env c self w0 = (self, w0, [])).
  { intros w0. unfold AutoSwitcher.switch_if_recommended.
    destruct (AutoSwitcher.should_switch_model c _) as [rec|]; [|reflexivity].
    destruct (String.eqb rec EmptyString); [reflexivity|].
    rewrite Idle. reflexivity. }
  subst res. unfold AutoSwitcher._check_and_switch.
  destruct (AutoSwitcher.last_switch self) as [last|] eqn:LS.
  - simpl. destruct (_ <? _); [|rewrite Inner]; simpl; rewrite ?LS; auto.
  - rewrite Inner. simpl. rewrite ?LS. auto.
Qed.

Lemma busy_queue_postpones_switch_witness :
  let w := mkWorld [] [] 1000 0 in
  let res := AutoSwitcher._check_and_switch (calm []) eager_collaborators
                                            busy_switcher w in
  snd res = []
  /\ fst (fst res) = busy_switcher
  /\ AutoSwitcher.last_switch (fst (fst res)) = Some 0.
Proof.
  intros w.
  apply (busy_queue_postpones_switch (calm []) eager_collaborators
                                     busy_switcher w).
  exists two_in_flight. split; [simpl; tauto|].
  vm_compute. reflexivity.
Defined.

(** The same step over idle queues does switch: the guard, not the
    recommendation, is what held it back. *)
Lemma idle_queues_allow_switch :
  let idle := AutoSwitcher.mk (AutoSwitcher.config busy_switcher)
                              [("gemma", CrashProofQueue.init "gemma" 4 10)]
                              (Some 0) true in
  let res := AutoSwitcher._check_and_switch (calm []) eager_collaborators
                                            idle (mkWorld [] [] 1000 0) in
  snd res = [AutoSwitcher.SwitchModel "deepseek"]
  /\ AutoSwitcher.last_switch (fst (fst res)) = Some 1001000000.
Proof. vm_compute. split; reflexivity. Qed.

(* ===================================================================== *)
(** ** The drain wait of a graceful stop *)
(* ===================================================================== *)

(** The drain loop ends within its first round: it either finds the
    deadline passed without polling, or polls once, is answered 0 and
    breaks.  It never sleeps. *)
Lemma drain_wait_one_round fuel os self model_name start_time timeout tr :
  (1 <= fuel)%nat ->
  exists new,
    ModelManager.drain_wait fuel os self model_name start_time timeout tr
    = Some (ModelManager.mkTrace (S (ModelManager.time_reads tr))
                                 (ModelManager.events tr ++ new))
    /\ ((ModelManager.time_time os (ModelManager.time_reads tr) - start_time
         < ModelManager.seconds timeout
         /\ new = [ModelManager.ActiveRequests model_name 0])
        \/ (ModelManager.seconds timeout
            <= ModelManager.time_time os (ModelManager.time_reads tr)
               - start_time
            /\ new = [])).
Proof.
  intros Hf. destruct fuel as [|k]; [lia|]. simpl.
  destruct (_ <? _) eqn:E.
  - apply Z.ltb_lt in E. eexists. split; [reflexivity|]. left. now split.
  - apply Z.ltb_ge in E. exists []. rewrite app_nil_r.
    split; [reflexivity|]. right. now split.
Qed.

(** C10.  The active-request hook answers 0 for every manager and every
    model.  Hence a graceful [stop_model], for every manager, model name
    and timeout, ends with one round of drain loop to spare, polls the
    hook at most once, is answered 0 whenever it polls, and never sleeps;
    and if the model is known, not yet stopped, and the deadline has not
    passed at the first test of the loop, it polls exactly once.  No
    queue enters the computation. *)
Theorem graceful_stop_polls_at_most_once fuel os now self tr model_name timeout :
  (1 <= fuel)%nat ->
  (forall m name, ModelManager._get_active_requests m name = 0)
  /\ exists ok self' tr' new,
      ModelManager.stop_model fuel os now self tr model_name true timeout
      = Some (ok, self', tr')
      /\ ModelManager.events tr' = ModelManager.events tr ++ new
      /\ (ModelManager.polls new = [] \/ ModelManager.polls new = [0])
      /\ ModelManager.sleeps new = []
      /\ (forall info,
            Dict.get model_name (ModelManager.models self) = Some info ->
            ModelManager.status info <> ModelManager.STOPPED ->
            ModelManager.time_time os (S (ModelManager.time_reads tr))
            - ModelManager.time_time os (ModelManager.time_reads tr)
            < ModelManager.seconds timeout ->
            ModelManager.polls new = [0]).
Proof.
  intros Hf. split; [reflexivity|].
  unfold ModelManager.stop_model.
  destruct (Dict.get model_name (ModelManager.models self)) as [info|] eqn:G.
  2:{ exists false, self, tr, []. rewrite app_nil_r.
      repeat split; auto. intros info H. discriminate. }
  destruct (ModelManager.ModelStatus_eqb (ModelManager.status info)
                                         ModelManager.STOPPED) eqn:St.
  { exists true, self, tr, []. rewrite app_nil_r.
    repeat split; auto. intros info' H N. injection H as <-.
    destruct (ModelManager.status info); simpl in St; congruence. }
  cbn [ModelManager.read_time].
  set (start_time := ModelManager.time_time os (ModelManager.time_reads tr)).
  set (tr1 := ModelManager.mkTrace (S (ModelManager.time_reads tr))
                                   (ModelManager.events tr)).
  destruct (drain_wait_one_round fuel os self model_name start_time timeout
                                 tr1 Hf) as (new1 & D & Cases).
  rewrite D. cbn [ModelManager.read_time ModelManager.time_reads
                  ModelManager.events tr1].
  assert (P1 : (ModelManager.polls new1 = [] \/ ModelManager.polls new1 = [0])
               /\ ModelManager.sleeps new1 = []).
  { destruct Cases as [[_ ->]|[_ ->]]; simpl; auto. }
  assert (P2 : ModelManager.time_time os (S (ModelManager.time_reads tr))
               - start_time < ModelManager.seconds timeout ->
               ModelManager.polls new1 = [0]).
  { destruct Cases as [[_ ->]|[Late ->]]; simpl; [reflexivity|].
    subst tr1. simpl in Late. lia. }
  destruct P1 as [P1 S1].
  assert (Fin : forall rest,
             ModelManager.polls rest = [] -> ModelManager.sleeps rest = [] ->
             (ModelManager.polls (new1 ++ rest) = []
              \/ ModelManager.polls (new1 ++ rest) = [0])
             /\ ModelManager.sleeps (new1 ++ rest) = []
             /\ (forall info0,
                   Some info = Some info0 ->
                   ModelManager.status info0 <> ModelManager.STOPPED ->
                   ModelManager.time_time os (S (ModelManager.time_reads tr))
                   - start_time < ModelManager.seconds timeout ->
                   ModelManager.polls (new1 ++ rest) = [0])).
  { intros rest Pr Sr. unfold ModelManager.polls, ModelManager.sleeps in *.
    rewrite !flat_map_app, Pr, Sr, !app_nil_r.
    repeat split; auto. }
  unfold ModelManager.set_status.
  cbn [ModelManager.process ModelManager.info_config ModelManager.info_name
       ModelManager.started_at ModelManager.current_resolution].
  destruct (_ >=? _);
    destruct (ModelManager.kill_raises os);
    destruct (ModelManager.process info) as [pid|];
    destruct (ModelManager.wait_expires os);
    do 4 eexists; (split; [reflexivity|]);
    (split; [unfold ModelManager.emit;
             cbn [ModelManager.events ModelManager.time_reads];
             rewrite <- ?app_assoc; reflexivity|]);
    first [ apply Fin; reflexivity
          | rewrite <- (app_nil_r new1); apply Fin; reflexivity ].
Qed.

Lemma graceful_stop_polls_at_most_once_witness :
  option_map (fun r => ModelManager.polls (ModelManager.events (snd r)))
             (ModelManager.stop_model 1 steady_os 0 running_manager
                                      (ModelManager.mkTrace 0 []) "gemma"
                                      true 60)
  = Some [0].
Proof.
  destruct (graceful_stop_polls_at_most_once
              1 steady_os 0 running_manager (ModelManager.mkTrace 0 [])
              "gemma" 60 (le_n 1))
    as (_ & ok & self' & tr' & new & E & Ev & _ & _ & Once).
  rewrite E. simpl. rewrite Ev. simpl. f_equal.
  eapply Once.
  - reflexivity.
  - discriminate.
  - reflexivity.
Defined.

(** The hook does not look at the queues: while a queue of the model has
    a request in flight, the graceful stop polls once, is told 0, and
    goes on to terminate the process without sleeping. *)
Lemma graceful_stop_ignores_busy_queue :
  CrashProofQueue.m_processing (CrashProofQueue.get_metrics two_in_flight) = 2
  /\ option_map (fun r => ModelManager.events (snd r))
                (ModelManager.stop_model 1 steady_os 0 running_manager
                                         (ModelManager.mkTrace 0 []) "gemma"
                                         true 60)
     = Some [ModelManager.ActiveRequests "gemma" 0;
             ModelManager.Terminate 4242;
             ModelManager.Wait 4242 (Some 10);
             ModelManager.Pkill "google/gemma"].
Proof. vm_compute. split; reflexivity. Qed.

(* ===================================================================== *)
(** ** Further properties of the queue *)
(* ===================================================================== *)







Section MoreTableFacts.
Context {V : Type}.
Implicit Types (d : Dict.t V) (k : string) (v : V).

Lemma dict_get_set_same d k v : Dict.get k (Dict.set k v d) = Some v.
Proof.
  induction d as [|[k0 v0] d IH]; simpl.
  - now rewrite String.eqb_refl.
  - destruct (String.eqb k0 k) eqn:E; simpl.
    + now rewrite String.eqb_refl.
    + now rewrite E.
Qed.

Lemma dict_get_none_keys d k :
  Dict.get k d = None <-> ~ In k (Dict.keys d).
Proof.
  induction d as [|[k0 v0] d IH]; simpl; [tauto|].
  destruct (String.eqb k0 k) eqn:E.
  - apply String.eqb_eq in E. split; [discriminate | intros H; exfalso; tauto].
  - apply String.eqb_neq in E. rewrite IH. tauto.
Qed.

Lemma dict_get_remove_same d k :
  NoDup (Dict.keys d) -> Dict.get k (Dict.remove k d) = None.
Proof.
  intros ND. apply dict_get_none_keys.
  induction d as [|[k0 v0] d IH]; simpl; [tauto|].
  inversion ND as [|? ? Nin ND']; subst.
  destruct (String.eqb k0 k) eqn:E.
  - apply String.eqb_eq in E. now subst.
  - apply String.eqb_neq in E. simpl. intros [H|H]; [contradiction|].
    now apply IH.
Qed.

Lemma dict_set_fresh d k v :
  Dict.get k d = None -> Dict.set k v d = d ++ [(k, v)].
Proof.
  induction d as [|[k0 v0] d IH]; simpl; [reflexivity|].
  destruct (String.eqb k0 k); [discriminate|].
  intros H. now rewrite IH.
Qed.

Lemma dict_get_In d k v : Dict.get k d = Some v -> In (k, v) d.
Proof.
  induction d as [|[k0 v0] d IH]; simpl; [discriminate|].
  destruct (String.eqb k0 k) eqn:E.
  - apply String.eqb_eq in E. intros H. injection H as ->. subst. now left.
  - intros H. right. now apply IH.
Qed.

Lemma dict_remove_In d k x : In x (Dict.remove k d) -> In x d.
Proof.
  induction d as [|[k0 v0] d IH]; simpl; [tauto|].
  destruct (String.eqb k0 k); simpl; [tauto|].
  intros [H|H]; [now left | right; now apply IH].
Qed.

End MoreTableFacts.

(** X2.  The request [dequeue] hands out can be looked up at once:
    [get_status] of its id answers with its PROCESSING document from
    memory, whatever the database holds. *)
Theorem dequeued_request_status env q w r q' w' w'' :
  CrashProofQueue.dequeue env q w = (Some r, q', w') ->
  CrashProofQueue.get_status q' w'' (QueuedRequest.request_id r)
  = Some (QueuedRequest.to_dict r)
  /\ d_status (QueuedRequest.to_dict r) = "processing"
  /\ d_started_at (QueuedRequest.to_dict r) = Some (utcnow env (clock_reads w)).
Proof.
  unfold CrashProofQueue.dequeue.
  destruct (_ >=? _); [discriminate|].
  destruct (CrashProofQueue.waiting q) as [|x rest]; [discriminate|].
  simpl. intros E. injection E as <- <- <-.
  unfold CrashProofQueue.get_status. simpl.
  rewrite dict_get_set_same. repeat split; reflexivity.
Qed.

Lemma dequeued_request_status_witness :
  let env := first_writes_only 0 ["a"] in
  let q := queue_after env [Enqueue "p" "chat" "c" NORMAL 300]
                       (CrashProofQueue.init "m" 1 10) empty_world in
  let w := world_after env [Enqueue "p" "chat" "c" NORMAL 300]
                       (CrashProofQueue.init "m" 1 10) empty_world in
  option_map d_status
    (CrashProofQueue.get_status (snd (fst (CrashProofQueue.dequeue env q w)))
                                (snd (CrashProofQueue.dequeue env q w)) "a")
  = Some "processing"
  /\ collection (snd (CrashProofQueue.dequeue env q w)) = [].
Proof.
  intros env q w. split; [|reflexivity].
  destruct (dequeued_request_status env q w
              (QueuedRequest.mk "a" "m" "chat" "c" "p" NORMAL PROCESSING 0
                                (Some 1000000) None 300 0 3 None None)
              (snd (fst (CrashProofQueue.dequeue env q w)))
              (snd (CrashProofQueue.dequeue env q w))
              (snd (CrashProofQueue.dequeue env q w)) eq_refl) as (G & _).
  simpl QueuedRequest.request_id in G. rewrite G. reflexivity.
Defined.

Lemma complete_forgets env q w id res :
  NoDup (Dict.keys (CrashProofQueue.processing q)) ->
  Dict.get id (CrashProofQueue.processing
                 (fst (CrashProofQueue.complete env q w id res))) = None.
Proof.
  intros ND. unfold CrashProofQueue.complete, Dict.pop.
  destruct (Dict.get id (CrashProofQueue.processing q)) eqn:G; simpl.
  - now apply dict_get_remove_same.
  - exact G.
Qed.

Lemma fail_forgets env q w id err :
  NoDup (Dict.keys (CrashProofQueue.processing q)) ->
  Dict.get id (CrashProofQueue.processing
                 (fst (CrashProofQueue.fail env q w id err))) = None.
Proof.
  intros ND. unfold CrashProofQueue.fail, Dict.pop.
  destruct (Dict.get id (CrashProofQueue.processing q)) eqn:G; simpl.
  - destruct (_ <? _); simpl; now apply dict_get_remove_same.
  - exact G.
Qed.

Lemma report_unknown env q w id :
  Dict.get id (CrashProofQueue.processing q) = None ->
  (forall res, CrashProofQueue.complete env q w id res = (q, w))
  /\ (forall err, CrashProofQueue.fail env q w id err = (q, w)).
Proof.
  intros G. unfold CrashProofQueue.complete, CrashProofQueue.fail, Dict.pop.
  rewrite G. split; reflexivity.
Qed.

(** X3.  A worker that reports twice is heard once: after [complete] or
    [fail] of an id, a further [complete] or [fail] of the same id leaves
    queue and world as they are (no second count, no second retry, no
    write), until the request is dispatched again. *)
Theorem second_report_is_ignored env q w id w' :
  NoDup (Dict.keys (CrashProofQueue.processing q)) ->
  (forall res res' err,
      let q1 := fst (CrashProofQueue.complete env q w id res) in
      CrashProofQueue.complete env q1 w' id res' = (q1, w')
      /\ CrashProofQueue.fail env q1 w' id err = (q1, w'))
  /\ (forall err res' err',
        let q1 := fst (CrashProofQueue.fail env q w id err) in
        CrashProofQueue.complete env q1 w' id res' = (q1, w')
        /\ CrashProofQueue.fail env q1 w' id err' = (q1, w')).
Proof.
  intros ND. split.
  - intros res res' err q1.
    destruct (report_unknown env q1 w' id (complete_forgets env q w id res ND))
      as [C F].
    split; [apply C | apply F].
  - intros err res' err' q1.
    destruct (report_unknown env q1 w' id (fail_forgets env q w id err ND))
      as [C F].
    split; [apply C | apply F].
Qed.

Lemma second_report_is_ignored_witness :
  let env := calm [] in
  let w := mkWorld [] [] 10 2 in
  let q1 := fst (CrashProofQueue.complete env two_in_flight w "a" None) in
  CrashProofQueue.total_processed q1 = 1
  /\ CrashProofQueue.complete env q1 w "a" (Some "again") = (q1, w)
  /\ CrashProofQueue.fail env q1 w "a" "late" = (q1, w).
Proof.
  intros env w q1. split; [reflexivity|].
  apply (proj1 (second_report_is_ignored env two_in_flight w "a" w
                  ltac:(simpl; repeat constructor; simpl; intuition discriminate))
               None (Some "again") "late").
Defined.

Lemma step_counters env o q w :
  let q' := snd (fst (step env o q w)) in
  CrashProofQueue.total_timeout q' = CrashProofQueue.total_timeout q
  /\ CrashProofQueue.total_processed q
     <= CrashProofQueue.total_processed q'
     <= CrashProofQueue.total_processed q + completes [o]
  /\ CrashProofQueue.total_failed q
     <= CrashProofQueue.total_failed q'
     <= CrashProofQueue.total_failed q + fails [o].
Proof.
  destruct o as [p t c pr to| |rid res|rid err]; simpl.
  - unfold CrashProofQueue.enqueue. destruct (_ >=? _); simpl;
      unfold completes, fails; simpl; lia.
  - unfold CrashProofQueue.dequeue. destruct (_ >=? _); simpl;
      [unfold completes, fails; simpl; lia|].
    destruct (CrashProofQueue.waiting q); simpl;
      unfold completes, fails; simpl; lia.
  - unfold CrashProofQueue.complete.
    destruct (Dict.pop rid _) as [[r d']|]; simpl;
      unfold completes, fails; simpl; lia.
  - unfold CrashProofQueue.fail.
    destruct (Dict.pop rid _) as [[r d']|]; simpl;
      [destruct (_ <? _); simpl|]; unfold completes, fails; simpl; lia.
Qed.

(** X4.  The counters of a queue never go down.  Over any sequence of
    enqueue/dequeue/complete/fail calls [total_processed] grows by at
    most the number of [complete] calls, [total_failed] by at most the
    number of [fail] calls, and [total_timeout] is not touched (only the
    detection loop counts timeouts). *)
Theorem counters_monotone env ops q w :
  let q' := queue_after env ops q w in
  CrashProofQueue.total_timeout q' = CrashProofQueue.total_timeout q
  /\ CrashProofQueue.total_processed q
     <= CrashProofQueue.total_processed q'
     <= CrashProofQueue.total_processed q + completes ops
  /\ CrashProofQueue.total_failed q
     <= CrashProofQueue.total_failed q'
     <= CrashProofQueue.total_failed q + fails ops.
Proof.
  unfold queue_after. revert q w.
  induction ops as [|o ops IH]; intros q w; simpl.
  - unfold completes, fails. simpl. lia.
  - pose proof (step_counters env o q w) as S1.
    destruct (step env o q w) as [[out q1] w1]. simpl in S1.
    specialize (IH q1 w1).
    destruct (run env ops q1 w1) as [[outs q2] w2]. simpl in IH |- *.
    assert (Cc : completes (o :: ops) = completes [o] + completes ops).
    { unfold completes. destruct o; cbn [filter List.length]; lia. }
    assert (Cf : fails (o :: ops) = fails [o] + fails ops).
    { unfold fails. destruct o; cbn [filter List.length]; lia. }
    rewrite Cc, Cf. lia.
Qed.

Lemma tally_injective i j : tally i = tally j -> i = j.
Proof.
  revert j. induction i as [|i IH]; intros [|j]; simpl; try discriminate.
  - reflexivity.
  - intros H. injection H as H. f_equal. now apply IH.
Qed.

Lemma insert_into_perm r l :
  Permutation (CrashProofQueue.insert_into r l) (r :: l).
Proof.
  induction l as [|x l IH]; simpl; [apply Permutation_refl|].
  destruct (_ <? _); [apply Permutation_refl|].
  eapply Permutation_trans; [apply perm_skip, IH | apply perm_swap].
Qed.

Lemma dict_keys_remove_perm {V} (d : Dict.t V) k v :
  Dict.get k d = Some v ->
  Permutation (Dict.keys d) (k :: Dict.keys (Dict.remove k d)).
Proof.
  induction d as [|[k0 v0] d IH]; simpl; [discriminate|].
  destruct (String.eqb k0 k) eqn:E.
  - apply String.eqb_eq in E. subst. intros _. apply Permutation_refl.
  - intros G. simpl.
    eapply Permutation_trans; [apply perm_skip, IH, G | apply perm_swap].
Qed.

Lemma dict_pop_length_Z {V} (d d' : Dict.t V) k v :
  Dict.pop k d = Some (v, d') -> Dict.len d = Dict.len d' + 1.
Proof.
  intros P. apply dict_pop_length in P. unfold Dict.len. rewrite P. lia.
Qed.

(** One call keeps [ids_inv] and accounts for one more request exactly
    when it admits one. *)
Lemma step_accounting env o q w :
  (forall i j, uuid4 env i = uuid4 env j -> i = j) ->
  ids_inv env q w ->
  match step env o q w with
  | (out, q', w') =>
      ids_inv env q' w'
      /\ accounted q' = accounted q + admitted [out]
  end.
Proof.
  intros Inj (ND & Drawn & Filed).
  destruct o as [p t c pr to| |rid res|rid err]; simpl.
  - (* enqueue *)
    unfold CrashProofQueue.enqueue. destruct (_ >=? _); simpl.
    + split; [now repeat split|]. unfold admitted. simpl. lia.
    + set (r := QueuedRequest.mk _ _ _ _ _ _ _ _ _ _ _ _ _ _ _).
      assert (Fresh : ~ In (uuid4 env (uuid_calls w)) (held_ids q)).
      { intros H. destruct (Drawn _ H) as (i & Hi & E).
        apply Inj in E. lia. }
      assert (Perm : Permutation
                       (held_ids (CrashProofQueue._insert_by_priority q r))
                       (uuid4 env (uuid_calls w) :: held_ids q)).
      { unfold held_ids. simpl.
        eapply Permutation_trans;
          [apply Permutation_app_head, Permutation_map, insert_into_perm|].
        simpl. apply Permutation_sym, Permutation_middle. }
      split.
      * split; [|split].
        -- eapply Permutation_NoDup; [apply Permutation_sym, Perm|].
           constructor; assumption.
        -- intros id H. apply (Permutation_in _ Perm) in H.
           destruct H as [<-|H].
           ++ exists (uuid_calls w). simpl. split; [lia | reflexivity].
           ++ destruct (Drawn _ H) as (i & Hi & E). exists i. simpl.
              split; [lia | exact E].
        -- exact Filed.
      * unfold accounted, admitted, Dict.len. simpl.
        rewrite insert_into_length. lia.
  - (* dequeue *)
    unfold CrashProofQueue.dequeue. destruct (_ >=? _); simpl.
    + split; [now repeat split|]. unfold admitted. simpl. lia.
    + destruct (CrashProofQueue.waiting q) as [|r rest] eqn:W; simpl.
      * split; [now repeat split|]. unfold admitted. simpl. lia.
      * unfold held_ids in ND, Drawn. rewrite W in ND, Drawn. simpl in ND, Drawn.
        assert (G : Dict.get (QueuedRequest.request_id r)
                             (CrashProofQueue.processing q) = None).
        { apply dict_get_none_keys. intros H.
          apply NoDup_remove_2 in ND. apply ND.
          apply in_or_app. now left. }
        split.
        -- unfold ids_inv, held_ids. simpl.
           rewrite (dict_set_fresh _ _ _ G). unfold Dict.keys.
           rewrite map_app. simpl. rewrite <- app_assoc. simpl.
           split; [exact ND|]. split; [exact Drawn|].
           apply Forall_app. split; [exact Filed|].
           constructor; [reflexivity | constructor].
        -- unfold accounted, admitted, Dict.len.
           cbn [CrashProofQueue.waiting CrashProofQueue.processing
                CrashProofQueue.total_processed CrashProofQueue.total_failed
                CrashProofQueue.set_waiting CrashProofQueue.set_processing
                QueuedRequest.request_id QueuedRequest.set_started_at
                QueuedRequest.set_status filter].
           rewrite W, (dict_set_fresh _ _ _ G), length_app.
           cbn [List.length]. lia.
  - (* complete *)
    unfold CrashProofQueue.complete.
    destruct (Dict.pop rid _) as [[r d']|] eqn:P; simpl.
    + pose proof (dict_pop_length_Z _ _ _ _ P) as L.
      unfold Dict.pop in P.
      destruct (Dict.get rid (CrashProofQueue.processing q)) as [v|] eqn:G;
        [|discriminate].
      injection P as -> <-.
      pose proof (dict_keys_remove_perm _ _ _ G) as Pk.
      assert (Perm : Permutation (held_ids q)
                       (rid :: Dict.keys (Dict.remove rid
                                            (CrashProofQueue.processing q))
                            ++ map QueuedRequest.request_id
                                   (CrashProofQueue.waiting q))).
      { unfold held_ids. apply (Permutation_app_tail _ Pk). }
      split.
      * unfold ids_inv, held_ids. simpl. split; [|split].
        -- apply (Permutation_NoDup Perm) in ND.
           now inversion ND.
        -- intros id H. apply Drawn.
           apply (Permutation_in _ (Permutation_sym Perm)). now right.
        -- now apply dict_remove_Forall.
      * unfold accounted, admitted. simpl. lia.
    + split; [now repeat split|]. unfold admitted. simpl. lia.
  - (* fail *)
    unfold CrashProofQueue.fail.
    destruct (Dict.pop rid _) as [[r d']|] eqn:P; simpl.
    + pose proof (dict_pop_length_Z _ _ _ _ P) as L.
      unfold Dict.pop in P.
      destruct (Dict.get rid (CrashProofQueue.processing q)) as [v|] eqn:G;
        [|discriminate].
      injection P as -> <-.
      pose proof (dict_keys_remove_perm _ _ _ G) as Pk.
      assert (Perm : Permutation (held_ids q)
                       (rid :: Dict.keys (Dict.remove rid
                                            (CrashProofQueue.processing q))
                            ++ map QueuedRequest.request_id
                                   (CrashProofQueue.waiting q))).
      { unfold held_ids. apply (Permutation_app_tail _ Pk). }
      assert (Id : QueuedRequest.request_id r = rid).
      { apply dict_get_In in G. rewrite Forall_forall in Filed.
        exact (Filed _ G). }
      destruct (_ <? _); simpl.
      * split.
        -- unfold ids_inv. simpl.
           assert (Perm2 : Permutation
                     (held_ids q)
                     (Dict.keys (Dict.remove rid (CrashProofQueue.processing q))
                      ++ map QueuedRequest.request_id
                           (CrashProofQueue.insert_into
                              (QueuedRequest.set_started_at None
                                 (QueuedRequest.set_status QUEUED
                                    (QueuedRequest.set_retry_count
                                       (QueuedRequest.retry_count r + 1)
                                       (QueuedRequest.set_error (Some err) r))))
                              (CrashProofQueue.waiting q)))).
           { eapply Permutation_trans; [exact Perm|].
             eapply Permutation_trans; [apply Permutation_middle|].
             apply Permutation_app_head.
             eapply Permutation_trans;
               [|apply Permutation_map, Permutation_sym, insert_into_perm].
             simpl. rewrite Id. apply Permutation_refl. }
           split; [|split].
           ++ exact (Permutation_NoDup Perm2 ND).
           ++ intros id H. apply Drawn.
              exact (Permutation_in _ (Permutation_sym Perm2) H).
           ++ now apply dict_remove_Forall.
        -- unfold accounted, admitted. simpl.
           rewrite insert_into_length. lia.
      * split.
        -- unfold ids_inv, held_ids. simpl. split; [|split].
           ++ apply (Permutation_NoDup Perm) in ND. now inversion ND.
           ++ intros id H. apply Drawn.
              apply (Permutation_in _ (Permutation_sym Perm)). now right.
           ++ now apply dict_remove_Forall.
        -- unfold accounted, admitted. simpl. lia.
    + split; [now repeat split|]. unfold admitted. simpl. lia.
Qed.

Lemma admitted_cons out outs : admitted (out :: outs) = admitted [out] + admitted outs.
Proof. unfold admitted. destruct out; cbn [filter List.length]; lia. Qed.

Lemma run_accounting env ops :
  (forall i j, uuid4 env i = uuid4 env j -> i = j) ->
  forall q w,
    ids_inv env q w ->
    match run env ops q w with
    | (outs, q', w') =>
        ids_inv env q' w' /\ accounted q' = accounted q + admitted outs
    end.
Proof.
  intros Inj. induction ops as [|o ops IH]; intros q w I; simpl.
  - split; [exact I|]. unfold admitted. simpl. lia.
  - pose proof (step_accounting env o q w Inj I) as S1.
    destruct (step env o q w) as [[out q1] w1]. destruct S1 as [I1 A1].
    specialize (IH q1 w1 I1).
    destruct (run env ops q1 w1) as [[outs q2] w2]. destruct IH as [I2 A2].
    split; [exact I2|]. rewrite admitted_cons. lia.
Qed.

(** X5.  No request is lost or counted twice.  With a uuid generator
    that never repeats an id, after any sequence of
    enqueue/dequeue/complete/fail calls on a queue that started empty the
    requests waiting, in flight, completed and failed for good add up to
    the number of admitted enqueues, and the ids held in memory are
    distinct. *)
Theorem no_request_lost env name mc mw ops w :
  (forall i j, uuid4 env i = uuid4 env j -> i = j) ->
  accounted (queue_after env ops (CrashProofQueue.init name mc mw) w)
  = admitted (outcomes env ops (CrashProofQueue.init name mc mw) w)
  /\ NoDup (held_ids (queue_after env ops (CrashProofQueue.init name mc mw) w)).
Proof.
  intros Inj. unfold queue_after, outcomes.
  assert (I0 : ids_inv env (CrashProofQueue.init name mc mw) w).
  { unfold ids_inv, held_ids. simpl. split; [constructor|].
    split; [intros id []|constructor]. }
  pose proof (run_accounting env ops Inj _ w I0) as R.
  destruct (run env ops (CrashProofQueue.init name mc mw) w) as [[outs q] w'].
  destruct R as [(ND & _) A]. simpl. split; [|exact ND].
  rewrite A. unfold accounted, Dict.len. simpl. lia.
Qed.

Lemma no_request_lost_witness :
  let script := [ Enqueue "p" "chat" "c" NORMAL 300;
                  Enqueue "p" "chat" "c" HIGH 300;
                  Dequeue;
                  Fail (tally 1) "boom";
                  Dequeue;
                  Complete (tally 1) None;
                  Enqueue "p" "chat" "c" LOW 300 ] in
  accounted (queue_after distinct_ids script (CrashProofQueue.init "m" 1 2)
                         empty_world) = 3
  /\ NoDup (held_ids (queue_after distinct_ids script
                                  (CrashProofQueue.init "m" 1 2) empty_world)).
Proof.
  intros script.
  exact (no_request_lost distinct_ids "m" 1 2 script empty_world
                         tally_injective).
Defined.

Lemma persist_all_collection env rs : forall w,
  (forall n, update_one_ok env n = true) ->
  collection (fold_left (CrashProofQueue._persist_request env) rs w)
  = fold_left (fun c r => update_one (QueuedRequest.to_dict r) c) rs
              (collection w).
Proof.
  induction rs as [|r rs IH]; intros w Ok; simpl; [reflexivity|].
  rewrite IH by exact Ok. simpl. now rewrite Ok.
Qed.

Lemma find_one_update_one_other d c id :
  d_request_id d <> id ->
  find_one id (update_one d c) = find_one id c.
Proof.
  intros N. induction c as [|x c IH]; simpl.
  - destruct (String.eqb (d_request_id d) id) eqn:E; [|reflexivity].
    apply String.eqb_eq in E. contradiction.
  - destruct (String.eqb (d_request_id x) (d_request_id d)) eqn:E; simpl.
    + apply String.eqb_eq in E.
      destruct (String.eqb (d_request_id d) id) eqn:E1;
        [apply String.eqb_eq in E1; contradiction|].
      rewrite E. now rewrite E1.
    + destruct (String.eqb (d_request_id x) id); [reflexivity | exact IH].
Qed.

Lemma find_one_after_upserts rs : forall c r,
  NoDup (map QueuedRequest.request_id rs) ->
  In r rs ->
  find_one (QueuedRequest.request_id r)
           (fold_left (fun c r => update_one (QueuedRequest.to_dict r) c) rs c)
  = Some (QueuedRequest.to_dict r).
Proof.
  assert (Other : forall rs c id,
             ~ In id (map QueuedRequest.request_id rs) ->
             find_one id
               (fold_left (fun c r => update_one (QueuedRequest.to_dict r) c)
                          rs c)
             = find_one id c).
  { clear. induction rs as [|x rs IH]; intros c id N; simpl; [reflexivity|].
    rewrite IH by (intros H; apply N; now right).
    apply find_one_update_one_other. simpl. intros E. apply N. now left. }
  induction rs as [|x rs IH]; intros c r ND Hin; [destruct Hin|].
  simpl in ND. inversion ND as [|? ? Nin ND']; subst. simpl.
  destruct Hin as [->|Hin].
  - rewrite Other by exact Nin.
    apply (find_one_update_one (QueuedRequest.to_dict r)).
  - now apply IH.
Qed.

(** X6.  [stop] flushes the queue: it clears [is_running], keeps every
    request in memory, and when the ids held are distinct and the
    database accepts the writes, the collection afterwards holds for
    every request in flight or waiting exactly the document of that
    request. *)
Theorem stop_flushes_memory env q w :
  (forall n, update_one_ok env n = true) ->
  NoDup (map QueuedRequest.request_id (held_requests q)) ->
  let res := CrashProofQueue.stop env q w in
  CrashProofQueue.is_running (fst res) = false
  /\ held_requests (fst res) = held_requests q
  /\ (forall r, In r (held_requests q) ->
                find_one (QueuedRequest.request_id r) (collection (snd res))
                = Some (QueuedRequest.to_dict r)).
Proof.
  intros Ok ND res. subst res. unfold CrashProofQueue.stop. simpl.
  split; [reflexivity|]. split; [reflexivity|].
  intros r Hin. unfold CrashProofQueue._persist_all. simpl.
  rewrite persist_all_collection by exact Ok.
  apply find_one_after_upserts; assumption.
Qed.

Lemma stop_flushes_memory_witness :
  let res := CrashProofQueue.stop (calm []) two_in_flight empty_world in
  CrashProofQueue.is_running (fst res) = false
  /\ map d_request_id (collection (snd res)) = ["a"; "b"]
  /\ option_map d_status (find_one "b" (collection (snd res)))
     = Some "processing".
Proof.
  intros res.
  destruct (stop_flushes_memory (calm []) two_in_flight empty_world
              (fun _ => eq_refl)
              ltac:(simpl; repeat constructor; simpl; intuition discriminate))
    as (R & _ & F).
  split; [exact R|]. split; [reflexivity|].
  pose proof (F (QueuedRequest.mk "b" "m" "chat" "c" "p" NORMAL PROCESSING 0
                                  (Some 9000000) None 300 0 3 None None)
                ltac:(simpl; tauto)) as Fb.
  cbn [QueuedRequest.request_id] in Fb. fold res in Fb.
  rewrite Fb. reflexivity.
Defined.

(* ===================================================================== *)
(** ** Further properties of crash recovery and the detection loop *)
(* ===================================================================== *)

Lemma from_dict_status d r :
  QueuedRequest.from_dict d = Some r ->
  RequestStatus_of (d_status d) = Some (QueuedRequest.status r).
Proof.
  unfold QueuedRequest.from_dict.
  destruct (Priority_of _); [|discriminate].
  destruct (RequestStatus_of _); [|discriminate].
  intros E. injection E as <-. reflexivity.
Qed.

Lemma revived_pending model d r :
  matches_pending model d = true ->
  QueuedRequest.from_dict d = Some r ->
  QueuedRequest.status (revived r) = QUEUED
  /\ QueuedRequest.model_name (revived r) = model
  /\ QueuedRequest.request_id (revived r) = d_request_id d.
Proof.
  intros M E. unfold matches_pending in M.
  apply andb_prop in M as [Mn Ms]. apply String.eqb_eq in Mn.
  pose proof (from_dict_status d r E) as S.
  pose proof (from_dict_model_name d r E) as N.
  pose proof (from_dict_request_id d r E) as I.
  rewrite revived_request_id.
  assert (St : QueuedRequest.status r = QUEUED
               \/ QueuedRequest.status r = PROCESSING).
  { apply orb_prop in Ms as [Q|P]; apply String.eqb_eq in Q || apply String.eqb_eq in P.
    - rewrite Q in S. simpl in S. injection S as <-. now left.
    - rewrite P in S. simpl in S. injection S as <-. now right. }
  unfold revived.
  destruct St as [St|St]; rewrite St; simpl; repeat split; congruence.
Qed.

(** X7.  Crash recovery only ever adds to the waiting room.  It leaves the
    processing table, the counters and the configuration alone, and every
    request it adds is QUEUED, belongs to this queue's model, has retries
    left, and carries the id of a document of the collection. *)
Theorem recovery_adds_queued_requests env q w :
  let q' := fst (CrashProofQueue.recover_from_crash env q w) in
  CrashProofQueue.processing q' = CrashProofQueue.processing q
  /\ CrashProofQueue.total_processed q' = CrashProofQueue.total_processed q
  /\ CrashProofQueue.total_failed q' = CrashProofQueue.total_failed q
  /\ CrashProofQueue.total_timeout q' = CrashProofQueue.total_timeout q
  /\ CrashProofQueue.max_concurrent q' = CrashProofQueue.max_concurrent q
  /\ CrashProofQueue.max_waiting q' = CrashProofQueue.max_waiting q
  /\ (forall r, In r (CrashProofQueue.waiting q) ->
                In r (CrashProofQueue.waiting q'))
  /\ (forall r,
        In r (CrashProofQueue.waiting q') ->
        In r (CrashProofQueue.waiting q)
        \/ (QueuedRequest.status r = QUEUED
            /\ QueuedRequest.model_name r = CrashProofQueue.model_name q
            /\ QueuedRequest.retry_count r < QueuedRequest.max_retries r
            /\ exists d, In d (collection w)
                         /\ d_request_id d = QueuedRequest.request_id r)).
Proof.
  intros q'. subst q'. unfold CrashProofQueue.recover_from_crash, find_pending.
  set (m := CrashProofQueue.model_name q).
  set (c := collection w).
  assert (Src : Forall (fun d => matches_pending m d = true /\ In d c)
                       (filter (matches_pending m) c)).
  { apply Forall_forall. intros d H. apply filter_In in H. tauto. }
  revert Src. generalize (filter (matches_pending m) c). intros ds.
  assert (Gen : forall q0 w0,
             Forall (fun d => matches_pending m d = true /\ In d c) ds ->
             let q1 := fst (fold_left (CrashProofQueue.recover_doc env) ds
                                      (q0, w0)) in
             CrashProofQueue.processing q1 = CrashProofQueue.processing q0
             /\ CrashProofQueue.total_processed q1
                = CrashProofQueue.total_processed q0
             /\ CrashProofQueue.total_failed q1 = CrashProofQueue.total_failed q0
             /\ CrashProofQueue.total_timeout q1
                = CrashProofQueue.total_timeout q0
             /\ CrashProofQueue.max_concurrent q1
                = CrashProofQueue.max_concurrent q0
             /\ CrashProofQueue.max_waiting q1 = CrashProofQueue.max_waiting q0
             /\ (forall r, In r (CrashProofQueue.waiting q0) ->
                           In r (CrashProofQueue.waiting q1))
             /\ (forall r,
                   In r (CrashProofQueue.waiting q1) ->
                   In r (CrashProofQueue.waiting q0)
                   \/ (QueuedRequest.status r = QUEUED
                       /\ QueuedRequest.model_name r = m
                       /\ QueuedRequest.retry_count r
                          < QueuedRequest.max_retries r
                       /\ exists d, In d c
                                    /\ d_request_id d
                                       = QueuedRequest.request_id r))).
  { induction ds as [|d ds IH]; intros q0 w0 F.
    - simpl. repeat split; auto.
    - inversion F as [|? ? [M Hin] F']; subst. cbn [fold_left].
      destruct (QueuedRequest.from_dict d) as [r0|] eqn:E.
      + destruct (recoverable_or_exhausted d r0 E) as [[R X]|[R X]].
        * rewrite (recover_doc_recoverable env q0 w0 d r0 E R).
          destruct (IH (CrashProofQueue._insert_by_priority q0 (revived r0))
                       w0 F')
            as (P & T1 & T2 & T3 & C1 & C2 & Keep & New).
          simpl in P, T1, T2, T3, C1, C2.
          repeat (split; [assumption|]). split.
          -- intros r H. apply Keep. simpl.
             apply (Permutation_in _ (Permutation_sym (insert_into_perm _ _))).
             now right.
          -- intros r H. destruct (New r H) as [Old|N]; [|now right].
             simpl in Old. apply insert_into_In in Old as [->|Old];
               [|now left].
             right. destruct (revived_pending m d r0 M E) as (S1 & S2 & S3).
             split; [exact S1|]. split; [exact S2|]. split.
             ++ unfold recoverable in R. rewrite E in R.
                now apply Z.ltb_lt in R.
             ++ exists d. split; [exact Hin | now symmetry].
        * rewrite (recover_doc_exhausted env q0 w0 d r0 E X). now apply IH.
      + rewrite (recover_doc_unreadable env q0 w0 d E). now apply IH. }
  intros Src. exact (Gen q w Src).
Qed.



Lemma handle_timeouts_balance env ids : forall q w,
  let q' := fst (CrashProofQueue.handle_timeouts env q w ids) in
  CrashProofQueue.waiting q' = CrashProofQueue.waiting q
  /\ CrashProofQueue.total_processed q' = CrashProofQueue.total_processed q
  /\ CrashProofQueue.total_failed q' = CrashProofQueue.total_failed q
  /\ CrashProofQueue.is_running q' = CrashProofQueue.is_running q
  /\ CrashProofQueue.total_timeout q' + Dict.len (CrashProofQueue.processing q')
     = CrashProofQueue.total_timeout q + Dict.len (CrashProofQueue.processing q)
  /\ CrashProofQueue.total_timeout q <= CrashProofQueue.total_timeout q'
  /\ (forall x, In x (CrashProofQueue.processing q') ->
                In x (CrashProofQueue.processing q)).
Proof.
  induction ids as [|rid rest IH]; intros q w; cbn [CrashProofQueue.handle_timeouts].
  - simpl. repeat split; auto; lia.
  - destruct (Dict.pop rid (CrashProofQueue.processing q)) as [[r d']|] eqn:P.
    + cbv zeta. cbn [read_clock].
      match goal with
      | |- context [CrashProofQueue.handle_timeouts env ?q2 ?w2 rest] =>
          destruct (IH q2 w2) as (W & T1 & T2 & R & B & M & Sub);
          set (res := CrashProofQueue.handle_timeouts env q2 w2 rest) in *
      end.
      simpl in W, T1, T2, R, B, M, Sub.
      pose proof (dict_pop_length_Z _ _ _ _ P) as L.
      unfold Dict.pop in P.
      destruct (Dict.get rid (CrashProofQueue.processing q)); [|discriminate].
      injection P as -> <-.
      unfold Dict.len in *.
      repeat split; try assumption; try lia.
      intros x H. eapply dict_remove_In, Sub, H.
    + simpl. repeat split; auto; lia.
Qed.

Lemma check_timeouts_balance env q w :
  let q' := fst (CrashProofQueue.check_timeouts env q w) in
  CrashProofQueue.waiting q' = CrashProofQueue.waiting q
  /\ CrashProofQueue.total_processed q' = CrashProofQueue.total_processed q
  /\ CrashProofQueue.total_failed q' = CrashProofQueue.total_failed q
  /\ CrashProofQueue.is_running q' = CrashProofQueue.is_running q
  /\ CrashProofQueue.total_timeout q' + Dict.len (CrashProofQueue.processing q')
     = CrashProofQueue.total_timeout q + Dict.len (CrashProofQueue.processing q)
  /\ CrashProofQueue.total_timeout q <= CrashProofQueue.total_timeout q'
  /\ (forall x, In x (CrashProofQueue.processing q') ->
                In x (CrashProofQueue.processing q)).
Proof.
  unfold CrashProofQueue.check_timeouts.
  destruct (CrashProofQueue.collect_timeouts env w _) as [ids w1].
  apply handle_timeouts_balance.
Qed.

(** X9.  Whatever the number of passes, the detection loop never touches
    the waiting room or the other counters, only removes entries from the
    processing table, and counts each removed request as a timeout
    exactly once; a queue that is not running is left as it is. *)
Theorem recovery_loop_only_times_out env rounds q w :
  let q' := fst (CrashProofQueue._recovery_loop env rounds q w) in
  CrashProofQueue.waiting q' = CrashProofQueue.waiting q
  /\ CrashProofQueue.total_processed q' = CrashProofQueue.total_processed q
  /\ CrashProofQueue.total_failed q' = CrashProofQueue.total_failed q
  /\ CrashProofQueue.total_timeout q' - CrashProofQueue.total_timeout q
     = Dict.len (CrashProofQueue.processing q)
       - Dict.len (CrashProofQueue.processing q')
  /\ CrashProofQueue.total_timeout q <= CrashProofQueue.total_timeout q'
  /\ (forall x, In x (CrashProofQueue.processing q') ->
                In x (CrashProofQueue.processing q))
  /\ (CrashProofQueue.is_running q = false ->
      CrashProofQueue._recovery_loop env rounds q w = (q, w)).
Proof.
  revert q w. induction rounds as [|n IH]; intros q w; simpl.
  - repeat split; auto; lia.
  - destruct (CrashProofQueue.is_running q) eqn:R.
    + pose proof (check_timeouts_balance env q w) as C.
      destruct (CrashProofQueue.check_timeouts env q w) as [q1 w1].
      simpl in C. destruct C as (W1 & P1 & F1 & R1 & B1 & M1 & S1).
      destruct (IH q1 w1) as (W2 & P2 & F2 & B2 & M2 & S2 & _).
      repeat split; try congruence; try lia;
        try (intros x H; apply S1, S2, H).
    + simpl. repeat split; auto; lia.
Qed.

(** X10.  The metrics of a queue that started empty with
    [max_concurrent > 0] report at most [max_concurrent] requests in
    processing and a utilization between 0 and 1, after any sequence of
    enqueue/dequeue/complete/fail calls. *)
Theorem metrics_within_capacity env name mc mw ops w :
  0 < mc -> 0 <= mw ->
  let m := CrashProofQueue.get_metrics
             (queue_after env ops (CrashProofQueue.init name mc mw) w) in
  0 <= CrashProofQueue.m_processing m <= mc
  /\ CrashProofQueue.m_max_concurrent m = mc
  /\ 0 <= CrashProofQueue.m_waiting m <= mw + mc
  /\ (0 <= CrashProofQueue.m_utilization m <= 1)%Q.
Proof.
  intros Hmc Hmw m.
  assert (I : capacity_inv mc mw
                (queue_after env ops (CrashProofQueue.init name mc mw) w)).
  { apply run_capacity; [lia|].
    unfold capacity_inv, Dict.len; simpl. repeat split; lia. }
  destruct I as (Hc & Hw & Hp & Hs). subst m.
  unfold CrashProofQueue.get_metrics. simpl. rewrite Hc.
  unfold Dict.len in *.
  set (p := Z.of_nat (List.length (CrashProofQueue.processing _))) in *.
  set (l := Z.of_nat (List.length (CrashProofQueue.waiting _))) in *.
  assert (0 <= p) by (subst p; lia). assert (0 <= l) by (subst l; lia).
  replace (mc >? 0) with true by (symmetry; apply Z.gtb_lt; lia).
  repeat split; try lia.
  - unfold Qle. simpl. lia.
  - unfold Qle. simpl. rewrite Z2Pos.id by lia. lia.
Qed.

Lemma metrics_within_capacity_witness :
  let m := CrashProofQueue.get_metrics
             (queue_after (calm ["a"; "b"]) requeue_script
                          (CrashProofQueue.init "m" 1 1) empty_world) in
  0 <= CrashProofQueue.m_processing m <= 1
  /\ CrashProofQueue.m_max_concurrent m = 1
  /\ 0 <= CrashProofQueue.m_waiting m <= 1 + 1
  /\ (0 <= CrashProofQueue.m_utilization m <= 1)%Q.
Proof.
  apply (metrics_within_capacity (calm ["a"; "b"]) "m" 1 1 requeue_script
                                 empty_world); lia.
Defined.



(* ===================================================================== *)
(** ** The auto-switcher and its cooldown *)
(* ===================================================================== *)

(** X12.  With a clock that does not run backwards, one
    [_check_and_switch] after a previous switch at [last] calls
    [switch_model] at most once, and only if the cooldown has elapsed
    since [last]; [last_switch] either stays [last] (no call, or a failed
    switch) or moves to a reading at least one cooldown later, and then
    the call made was answered with success. *)
Theorem switch_respects_cooldown env c self w last :
  (forall n, utcnow env n <= utcnow env (S n)) ->
  AutoSwitcher.last_switch self = Some last ->
  let res := AutoSwitcher._check_and_switch env c self w in
  let cooldown :=
    AutoSwitcher.minutes
      (AutoSwitcher.switch_cooldown_minutes (AutoSwitcher.config self)) in
  (List.length (snd res) <= 1)%nat
  /\ (snd res <> [] -> cooldown <= utcnow env (clock_reads w) - last)
  /\ (AutoSwitcher.last_switch (fst (fst res)) = Some last
      \/ exists new target,
           AutoSwitcher.last_switch (fst (fst res)) = Some new
           /\ cooldown <= new - last
           /\ snd res = [AutoSwitcher.SwitchModel target]
           /\ AutoSwitcher.switch_model c target = true).
Proof.
  intros Mono LS res cooldown. subst res cooldown.
  unfold AutoSwitcher._check_and_switch. rewrite LS. simpl.
  destruct (_ <? _) eqn:Cool.
  - simpl. split; [lia|]. split; [congruence|]. left. exact LS.
  - apply Z.ltb_ge in Cool.
    unfold AutoSwitcher.switch_if_recommended.
    destruct (AutoSwitcher.should_switch_model c _) as [rec|];
      [|simpl; split; [lia|]; split; [congruence|]; left; exact LS].
    destruct (String.eqb rec EmptyString);
      [simpl; split; [lia|]; split; [congruence|]; left; exact LS|].
    destruct (negb _);
      [simpl; split; [lia|]; split; [congruence|]; left; exact LS|].
    destruct (AutoSwitcher.switch_model c rec) eqn:Ok; simpl.
    + split; [lia|]. split; [intros _; exact Cool|].
      right. exists (utcnow env (S (clock_reads w))), rec.
      split; [reflexivity|]. split; [|split; [reflexivity | exact Ok]].
      pose proof (Mono (clock_reads w)). lia.
    + split; [lia|]. split; [intros _; exact Cool|]. left. exact LS.
Qed.

Lemma switch_respects_cooldown_witness :
  let idle := AutoSwitcher.mk (AutoSwitcher.config busy_switcher)
                              [("gemma", CrashProofQueue.init "gemma" 4 10)]
                              (Some 0) true in
  let early := AutoSwitcher._check_and_switch
                 (calm []) eager_collaborators idle (mkWorld [] [] 299 0) in
  let late := AutoSwitcher._check_and_switch
                (calm []) eager_collaborators idle (mkWorld [] [] 300 0) in
  snd early = []
  /\ (List.length (snd late) <= 1)%nat
  /\ AutoSwitcher.minutes 5 <= 300 * 1000000 - 0.
Proof.
  intros idle early late. split; [reflexivity|].
  destruct (switch_respects_cooldown
              (calm []) eager_collaborators idle (mkWorld [] [] 300 0) 0
              ltac:(intros n; simpl; lia) eq_refl) as (L & C & _).
  split; [exact L|]. apply C. discriminate.
Defined.

(* ===================================================================== *)
(** ** The model manager: stopping, starting, switching *)
(* ===================================================================== *)

Section ManagerTableFacts.
Context {V : Type}.
Implicit Types (d : Dict.t V) (k : string) (v : V).

Lemma dict_get_set_other d k k' v :
  k' <> k -> Dict.get k' (Dict.set k v d) = Dict.get k' d.
Proof.
  intros N. induction d as [|[k0 v0] d IH]; simpl.
  - destruct (String.eqb k k') eqn:E; [|reflexivity].
    apply String.eqb_eq in E. congruence.
  - destruct (String.eqb k0 k) eqn:E; simpl.
    + apply String.eqb_eq in E. subst k0.
      destruct (String.eqb k k') eqn:E'; [|reflexivity].
      apply String.eqb_eq in E'. congruence.
    + now rewrite IH.
Qed.

End ManagerTableFacts.

Lemma update_info_get_same name f self :
  Dict.get name (ModelManager.models (ModelManager.update_info name f self))
  = option_map f (Dict.get name (ModelManager.models self)).
Proof.
  unfold ModelManager.update_info.
  destruct (Dict.get name (ModelManager.models self)) eqn:G; simpl.
  - apply dict_get_set_same.
  - exact G.
Qed.

Lemma update_info_get_other name f self other :
  other <> name ->
  Dict.get other (ModelManager.models (ModelManager.update_info name f self))
  = Dict.get other (ModelManager.models self).
Proof.
  intros N. unfold ModelManager.update_info.
  destruct (Dict.get name (ModelManager.models self)); simpl; [|reflexivity].
  now apply dict_get_set_other.
Qed.

Lemma update_info_current name f self :
  ModelManager.current_model (ModelManager.update_info name f self)
  = ModelManager.current_model self.
Proof.
  unfold ModelManager.update_info.
  destruct (Dict.get name (ModelManager.models self)); reflexivity.
Qed.

Lemma ModelStatus_eqb_eq a b :
  ModelManager.ModelStatus_eqb a b = true <-> a = b.
Proof. destruct a, b; simpl; split; congruence. Qed.

(** What a [stop_model] that returns has done to the manager. *)
Lemma stop_model_effect fuel os now self tr name graceful timeout ok self' tr' :
  ModelManager.stop_model fuel os now self tr name graceful timeout
  = Some (ok, self', tr') ->
  (forall other, other <> name ->
                 Dict.get other (ModelManager.models self')
                 = Dict.get other (ModelManager.models self))
  /\ ((self' = self /\ tr' = tr
       /\ ((ok = false /\ Dict.get name (ModelManager.models self) = None)
           \/ (ok = true
               /\ exists info,
                    Dict.get name (ModelManager.models self) = Some info
                    /\ ModelManager.status info = ModelManager.STOPPED)))
      \/ (exists info info',
            Dict.get name (ModelManager.models self) = Some info
            /\ ModelManager.status info <> ModelManager.STOPPED
            /\ Dict.get name (ModelManager.models self') = Some info'
            /\ ModelManager.info_config info' = ModelManager.info_config info
            /\ ModelManager.current_resolution info'
               = ModelManager.current_resolution info
            /\ ok = negb (ModelManager.kill_raises os)
            /\ ((ok = false
                 /\ ModelManager.status info' = ModelManager.ERROR
                 /\ ModelManager.current_model self'
                    = ModelManager.current_model self)
                \/ (ok = true
                    /\ ModelManager.status info' = ModelManager.STOPPED
                    /\ ModelManager.process info' = None
                    /\ ModelManager.stopped_at info' = Some now
                    /\ ModelManager.current_model self'
                       = match ModelManager.current_model self with
                         | Some cur => if String.eqb cur name then None
                                       else Some cur
                         | None => None
                         end)))).
Proof.
  unfold ModelManager.stop_model.
  destruct (Dict.get name (ModelManager.models self)) as [info|] eqn:G.
  2:{ intros E. injection E as <- <- <-. split; [reflexivity|].
      left. repeat split. left. now split. }
  destruct (ModelManager.ModelStatus_eqb (ModelManager.status info)
                                         ModelManager.STOPPED) eqn:St.
  { intros E. injection E as <- <- <-. split; [reflexivity|].
    left. repeat split. right. split; [reflexivity|].
    exists info. split; [reflexivity|]. now apply ModelStatus_eqb_eq. }
  assert (NS : ModelManager.status info <> ModelManager.STOPPED).
  { intros H. apply ModelStatus_eqb_eq in H. congruence. }
  match goal with
  | |- match ?drained with _ => _ end = _ -> _ =>
      destruct drained as [tr4|]; [|discriminate]
  end.
  destruct (ModelManager.kill_raises os) eqn:K.
  - intros E. injection E as <- <- <-. split.
    + intros other N. simpl. now apply dict_get_set_other.
    + right. exists info. eexists. split; [reflexivity|]. split; [exact NS|].
      split; [simpl; apply dict_get_set_same|].
      repeat (split; [reflexivity|]). left. repeat split.
  - cbn [ModelManager.current_model ModelManager.set_info ModelManager.models].
    destruct (ModelManager.current_model self) as [cur|] eqn:CM;
      [destruct (String.eqb cur name) eqn:EQ|];
      intros E; injection E as <- <- <-;
      (split;
       [intros other N; simpl; now apply dict_get_set_other
       |right; exists info; eexists; split; [reflexivity|]; split; [exact NS|];
        split; [simpl; apply dict_get_set_same|];
        repeat (split; [reflexivity|]); right;
        repeat (split; [reflexivity|]); simpl; rewrite ?CM, ?EQ; reflexivity]).
Qed.

Lemma stop_model_returns fuel os now self tr name graceful timeout :
  (1 <= fuel)%nat ->
  exists res,
    ModelManager.stop_model fuel os now self tr name graceful timeout = Some res.
Proof.
  intros Hf. unfold ModelManager.stop_model.
  destruct (Dict.get name (ModelManager.models self)) as [info|];
    [|eexists; reflexivity].
  destruct (ModelManager.ModelStatus_eqb _ _); [eexists; reflexivity|].
  destruct graceful.
  - cbn [ModelManager.read_time].
    destruct (drain_wait_one_round
                fuel os self name
                (ModelManager.time_time os (ModelManager.time_reads tr)) timeout
                (ModelManager.mkTrace (S (ModelManager.time_reads tr))
                                      (ModelManager.events tr)) Hf)
      as (new & D & _).
    rewrite D. cbn [ModelManager.read_time].
    destruct (_ >=? _); destruct (ModelManager.kill_raises os);
      eexists; reflexivity.
  - destruct (ModelManager.kill_raises os); eexists; reflexivity.
Qed.

Lemma forced_stop_trace fuel os now self tr name timeout ok self' tr' :
  ModelManager.stop_model fuel os now self tr name false timeout
  = Some (ok, self', tr') ->
  ModelManager.time_reads tr' = ModelManager.time_reads tr
  /\ exists new, ModelManager.events tr' = ModelManager.events tr ++ new
                 /\ ModelManager.polls new = []
                 /\ ModelManager.sleeps new = [].
Proof.
  unfold ModelManager.stop_model.
  destruct (Dict.get name (ModelManager.models self)) as [info|].
  2:{ intros E. injection E as <- <- <-. split; [reflexivity|].
      exists []. now rewrite app_nil_r. }
  destruct (ModelManager.ModelStatus_eqb _ _).
  { intros E. injection E as <- <- <-. split; [reflexivity|].
    exists []. now rewrite app_nil_r. }
  unfold ModelManager.set_status.
  cbn [ModelManager.process ModelManager.info_config].
  destruct (ModelManager.kill_raises os).
  { intros E. injection E as <- <- <-. split; [reflexivity|].
    exists []. now rewrite app_nil_r. }
  destruct (ModelManager.process info) as [pid|];
    [destruct (ModelManager.wait_expires os)|];
    intros E; injection E as <- <- <-;
    (split; [reflexivity|]);
    unfold ModelManager.emit;
    cbn [ModelManager.events ModelManager.time_reads];
    rewrite <- ?app_assoc; eexists; (split; [reflexivity|]);
    split; reflexivity.
Qed.

(** X13.  [stop_model] always returns (one round of drain loop is
    enough) and leaves every other model alone.  An unknown model gives
    [False] and an already stopped one [True], both without touching
    manager or outside.  Otherwise the answer is [True] unless killing
    the process raised: on [True] the model is STOPPED with no process
    and [stopped_at] set, and [current_model] is cleared exactly if it
    named this model; on [False] the model is in ERROR and
    [current_model] stays.  A stop that is not graceful never reads the
    clock, polls or sleeps. *)
Theorem stop_model_outcome fuel os now self tr name graceful timeout :
  (1 <= fuel)%nat ->
  exists ok self' tr',
    ModelManager.stop_model fuel os now self tr name graceful timeout
    = Some (ok, self', tr')
    /\ (forall other, other <> name ->
                      Dict.get other (ModelManager.models self')
                      = Dict.get other (ModelManager.models self))
    /\ (Dict.get name (ModelManager.models self) = None ->
        ok = false /\ self' = self /\ tr' = tr)
    /\ (forall info,
          Dict.get name (ModelManager.models self) = Some info ->
          ModelManager.status info = ModelManager.STOPPED ->
          ok = true /\ self' = self /\ tr' = tr)
    /\ (forall info,
          Dict.get name (ModelManager.models self) = Some info ->
          ModelManager.status info <> ModelManager.STOPPED ->
          ok = negb (ModelManager.kill_raises os)
          /\ exists info',
               Dict.get name (ModelManager.models self') = Some info'
               /\ (ok = true ->
                   ModelManager.status info' = ModelManager.STOPPED
                   /\ ModelManager.process info' = None
                   /\ ModelManager.stopped_at info' = Some now
                   /\ ModelManager.current_model self'
                      = match ModelManager.current_model self with
                        | Some cur => if String.eqb cur name then None
                                      else Some cur
                        | None => None
                        end)
               /\ (ok = false ->
                   ModelManager.status info' = ModelManager.ERROR
                   /\ ModelManager.current_model self'
                      = ModelManager.current_model self))
    /\ (graceful = false ->
        ModelManager.time_reads tr' = ModelManager.time_reads tr
        /\ ModelManager.polls (ModelManager.events tr')
           = ModelManager.polls (ModelManager.events tr)).
Proof.
  intros Hf.
  destruct (stop_model_returns fuel os now self tr name graceful timeout Hf)
    as ([[ok self'] tr'] & E).
  exists ok, self', tr'. split; [exact E|].
  destruct (stop_model_effect _ _ _ _ _ _ _ _ _ _ _ E) as (Others & Cases).
  split; [exact Others|].
  split; [|split; [|split]].
  - intros G. destruct Cases as [(-> & -> & [[-> _]|(_ & info & G' & _)])
                                |(info & info' & G' & _)];
      try congruence. repeat split.
  - intros info G St.
    destruct Cases as [(-> & -> & [[_ G']|(-> & _)])
                      |(info0 & info' & G' & NS & _)];
      try congruence. repeat split.
  - intros info G NS.
    destruct Cases as [(_ & _ & [[_ G']|(_ & info0 & G' & St)])
                      |(info0 & info' & G' & _ & G1 & _ & _ & Ok & Rest)];
      try congruence.
    split; [exact Ok|]. exists info'. split; [exact G1|].
    destruct Rest as [(F & S1 & S2)|(T & S1 & S2 & S3 & S4)].
    + split; [congruence | intros _; now split].
    + split; [intros _; now repeat split | congruence].
  - intros ->.
    destruct (forced_stop_trace _ _ _ _ _ _ _ _ _ _ E)
      as (R & new & Ev & P & _).
    split; [exact R|]. rewrite Ev. unfold ModelManager.polls in *.
    rewrite flat_map_app, P, app_nil_r. reflexivity.
Qed.

Lemma stop_model_outcome_witness :
  option_map (fun r => (fst (fst r),
                        ModelManager.current_model (snd (fst r)),
                        option_map ModelManager.status
                          (Dict.get "gemma" (ModelManager.models (snd (fst r))))))
             (ModelManager.stop_model 1 steady_os 77 two_models
                                      (ModelManager.mkTrace 0 []) "gemma"
                                      false 60)
  = Some (true, None, Some ModelManager.STOPPED).
Proof.
  destruct (stop_model_outcome 1 steady_os 77 two_models
                               (ModelManager.mkTrace 0 []) "gemma" false 60
                               (le_n 1))
    as (ok & self' & tr' & E & _).
  rewrite E. vm_compute in E. injection E as <- <- <-. reflexivity.
Defined.

Lemma health_loop_terminates os host port start_time timeout delta :
  0 < delta ->
  (forall n, ModelManager.time_time os n + delta
             <= ModelManager.time_time os (S n)) ->
  forall fuel o,
    (1 <= fuel)%nat ->
    ModelManager.seconds timeout
    - (ModelManager.time_time os (ModelManager.time_reads (ModelManager.trace o))
       - start_time)
    <= (Z.of_nat fuel - 1) * delta ->
    exists b o',
      ModelManager.health_loop fuel os host port start_time timeout o
      = Some (b, o')
      /\ (ModelManager.probes o <= ModelManager.probes o')%nat
      /\ ModelManager.spawns o' = ModelManager.spawns o
      /\ (forall k, (ModelManager.probes o <= k)%nat ->
                    (S k < ModelManager.probes o')%nat ->
                    ModelManager.probe host k = false)
      /\ (b = true ->
          exists k, ModelManager.probes o' = S k
                    /\ (ModelManager.probes o <= k)%nat
                    /\ ModelManager.probe host k = true)
      /\ (b = false ->
          forall k, (ModelManager.probes o <= k)%nat ->
                    (k < ModelManager.probes o')%nat ->
                    ModelManager.probe host k = false).
Proof.
  intros Hd Adv. induction fuel as [|fuel IH]; intros o Hf Left; [lia|].
  cbn [ModelManager.health_loop ModelManager.read_time].
  destruct (_ <? _) eqn:T.
  - cbn [ModelManager.set_trace ModelManager.probes ModelManager.trace
         ModelManager.launches ModelManager.spawns].
    destruct (ModelManager.probe host (ModelManager.probes o)) eqn:P.
    + do 2 eexists. split; [reflexivity|]. simpl.
      split; [lia|]. split; [reflexivity|]. split; [intros; lia|].
      split.
      * intros _. exists (ModelManager.probes o). repeat split; [lia | exact P].
      * discriminate.
    + apply Z.ltb_lt in T.
      destruct fuel as [|fuel'].
      { exfalso. lia. }
      match goal with
      | |- context [ModelManager.health_loop _ _ _ _ _ _ ?o2] =>
          destruct (IH o2 ltac:(lia)) as (b & o' & E & Le & Sp & Mid & Tr & Fa)
      end.
      { cbn [ModelManager.launch ModelManager.trace ModelManager.time_reads].
        pose proof (Adv (ModelManager.time_reads (ModelManager.trace o))).
        nia. }
      simpl in Le, Sp, Mid, Tr, Fa.
      exists b, o'. split; [exact E|]. split; [lia|]. split; [exact Sp|].
      assert (First : forall k, (ModelManager.probes o <= k)%nat ->
                                ~ (S (ModelManager.probes o) <= k)%nat ->
                                ModelManager.probe host k = false).
      { intros k H1 H2. replace k with (ModelManager.probes o) by lia. exact P. }
      split; [|split].
      * intros k H1 H2.
        destruct (Nat.le_gt_cases (S (ModelManager.probes o)) k);
          [apply Mid; lia | apply First; lia].
      * intros Hb. destruct (Tr Hb) as (k & E1 & E2 & E3).
        exists k. repeat split; [exact E1 | lia | exact E3].
      * intros Hb k H1 H2.
        destruct (Nat.le_gt_cases (S (ModelManager.probes o)) k);
          [apply (Fa Hb); lia | apply First; lia].
  - do 2 eexists. split; [reflexivity|]. simpl.
    split; [lia|]. split; [reflexivity|]. split; [intros; lia|].
    split; [discriminate | intros; lia].
Qed.

(** X14.  [_wait_for_health] returns whenever the clock advances: if
    every reading of [time.time()] exceeds the one before by at least
    [delta > 0], then [timeout / delta] rounds suffice.  It answers [True]
    exactly on the first probe that is answered 200 (every probe before
    it was not), answers [False] only after probes that all failed, and
    never spawns a process. *)
Theorem wait_for_health_returns fuel os host port timeout delta o :
  0 < delta ->
  (forall n, ModelManager.time_time os n + delta
             <= ModelManager.time_time os (S n)) ->
  (1 <= fuel)%nat ->
  ModelManager.seconds timeout <= Z.of_nat fuel * delta ->
  exists b o',
    ModelManager._wait_for_health fuel os host port timeout o = Some (b, o')
    /\ ModelManager.spawns o' = ModelManager.spawns o
    /\ (b = true ->
        exists k, ModelManager.probes o' = S k
                  /\ ModelManager.probe host k = true
                  /\ forall j, (ModelManager.probes o <= j < k)%nat ->
                               ModelManager.probe host j = false)
    /\ (b = false ->
        forall k, (ModelManager.probes o <= k < ModelManager.probes o')%nat ->
                  ModelManager.probe host k = false).
Proof.
  intros Hd Adv Hf Fuel. unfold ModelManager._wait_for_health.
  cbn [ModelManager.read_time].
  set (start_time := ModelManager.time_time
                       os (ModelManager.time_reads (ModelManager.trace o))).
  destruct (health_loop_terminates
              os host port start_time timeout delta Hd Adv fuel
              (ModelManager.set_trace
                 (ModelManager.mkTrace
                    (S (ModelManager.time_reads (ModelManager.trace o)))
                    (ModelManager.events (ModelManager.trace o))) o) Hf)
    as (b & o' & E & Le & Sp & Mid & Tr & Fa).
  { simpl. pose proof (Adv (ModelManager.time_reads (ModelManager.trace o))).
    subst start_time. lia. }
  simpl in Le, Sp, Mid, Tr, Fa.
  exists b, o'. split; [exact E|]. split; [exact Sp|]. split.
  - intros Hb. destruct (Tr Hb) as (k & E1 & E2 & E3).
    exists k. split; [exact E1|]. split; [exact E3|].
    intros j Hj. apply Mid; lia.
  - intros Hb k Hk. apply (Fa Hb); lia.
Qed.

Lemma wait_for_health_returns_witness :
  option_map (fun r => (fst r, ModelManager.probes (snd r)))
             (ModelManager._wait_for_health 4 slow_os (healthy_after 2) 8001
                                            120 quiet)
  = Some (true, 3%nat)
  /\ option_map fst
       (ModelManager._wait_for_health 4 slow_os never_healthy 8001 120 quiet)
     = Some false.
Proof.
  destruct (wait_for_health_returns
              4 slow_os never_healthy 8001 120 30000000 quiet
              ltac:(lia) ltac:(intros n; simpl; lia) ltac:(lia)
              ltac:(vm_compute; discriminate))
    as (b & o' & E & _).
  split; [reflexivity|]. rewrite E. vm_compute in E. injection E as <- _.
  reflexivity.
Defined.

Ltac info_norm :=
  repeat (rewrite update_info_get_same
          || rewrite update_info_current
          || (rewrite update_info_get_other by assumption)).

(** What a [start_model] that returns has done to the manager. *)
Lemma start_model_effect fuel os host now self o name resolution ok self' o' :
  ModelManager.start_model fuel os host now self o name resolution
  = Some (ok, self', o') ->
  (forall other, other <> name ->
                 Dict.get other (ModelManager.models self')
                 = Dict.get other (ModelManager.models self))
  /\ ((self' = self /\ o' = o
       /\ ((ok = false /\ Dict.get name (ModelManager.models self) = None)
           \/ (ok = true
               /\ exists info,
                    Dict.get name (ModelManager.models self) = Some info
                    /\ ModelManager.status info = ModelManager.RUNNING)))
      \/ (exists info info',
            Dict.get name (ModelManager.models self) = Some info
            /\ ModelManager.status info <> ModelManager.RUNNING
            /\ Dict.get name (ModelManager.models self') = Some info'
            /\ ModelManager.info_config info' = ModelManager.info_config info
            /\ ModelManager.current_resolution info'
               = match resolution with
                 | Some r => if String.eqb name "deepseek" then Some r
                             else ModelManager.current_resolution info
                 | None => ModelManager.current_resolution info
                 end
            /\ ModelManager.spawns o' = S (ModelManager.spawns o)
            /\ ((ok = true
                 /\ ModelManager.status info' = ModelManager.RUNNING
                 /\ ModelManager.process info'
                    = ModelManager.spawn host (ModelManager.spawns o)
                 /\ ModelManager.process info' <> None
                 /\ ModelManager.started_at info' = Some now
                 /\ ModelManager.current_model self' = Some name)
                \/ (ok = false
                    /\ ModelManager.status info' = ModelManager.ERROR
                    /\ ModelManager.current_model self'
                       = ModelManager.current_model self)))).
Proof.
  unfold ModelManager.start_model.
  destruct (Dict.get name (ModelManager.models self)) as [info|] eqn:G.
  2:{ intros E. injection E as <- <- <-. split; [reflexivity|].
      left. repeat split. left. now split. }
  destruct (ModelManager.ModelStatus_eqb (ModelManager.status info)
                                         ModelManager.RUNNING) eqn:St.
  { intros E. injection E as <- <- <-. split; [reflexivity|].
    left. repeat split. right. split; [reflexivity|].
    exists info. split; [reflexivity|]. now apply ModelStatus_eqb_eq. }
  assert (NR : ModelManager.status info <> ModelManager.RUNNING).
  { intros H. apply ModelStatus_eqb_eq in H. congruence. }
  unfold ModelManager._build_vllm_command. info_norm. rewrite G.
  cbn [option_map ModelManager.info_config ModelManager.set_status].
  set (self1 := ModelManager.update_info name _ self).
  set (self2 := match resolution with Some _ => _ | None => _ end).
  assert (G2 : Dict.get name (ModelManager.models self2)
               = Some (ModelManager.mkInfo
                         (ModelManager.info_name info)
                         (ModelManager.info_config info)
                         ModelManager.STARTING (ModelManager.process info)
                         (ModelManager.started_at info)
                         (ModelManager.stopped_at info)
                         (match resolution with
                          | Some r => if String.eqb name "deepseek" then Some r
                                      else ModelManager.current_resolution info
                          | None => ModelManager.current_resolution info
                          end))).
  { subst self2 self1. destruct resolution as [r|];
      [destruct (String.eqb name "deepseek")|]; info_norm; rewrite G;
      reflexivity. }
  assert (O2 : forall other, other <> name ->
                             Dict.get other (ModelManager.models self2)
                             = Dict.get other (ModelManager.models self)).
  { intros other N. subst self2 self1. destruct resolution as [r|];
      [destruct (String.eqb name "deepseek")|]; info_norm; reflexivity. }
  assert (C2 : ModelManager.current_model self2
               = ModelManager.current_model self).
  { subst self2 self1. destruct resolution as [r|];
      [destruct (String.eqb name "deepseek")|]; info_norm; reflexivity. }
  clearbody self2. clear self1.
  destruct (ModelManager.spawn host (ModelManager.spawns o)) as [pid|] eqn:Sp.
  - destruct (ModelManager._wait_for_health _ _ _ _ _ _) as [[b o2]|] eqn:W;
      [|discriminate].
    assert (S2 : ModelManager.spawns o2 = S (ModelManager.spawns o)).
    { unfold ModelManager._wait_for_health in W. cbn [ModelManager.read_time] in W.
      revert W. generalize 120. intros timeout.
      match goal with
      | |- ModelManager.health_loop _ _ _ _ ?st _ ?o1 = _ -> _ =>
          generalize st; intros st0;
          assert (H1 : ModelManager.spawns o1 = S (ModelManager.spawns o))
            by reflexivity;
          revert H1; generalize o1
      end.
      clear. induction fuel as [|k IH]; intros o1 H1; [discriminate|].
      cbn [ModelManager.health_loop ModelManager.read_time].
      destruct (_ <? _).
      - destruct (ModelManager.probe host _).
        + intros E. injection E as _ <-. exact H1.
        + apply IH. exact H1.
      - intros E. injection E as _ <-. exact H1. }
    destruct b; intros E; injection E as <- <- <-.
    + split; [intros other N; cbn [ModelManager.models]; info_norm; now apply O2|].
      right. exists info. eexists. split; [reflexivity|]. split; [exact NR|].
      split; [cbn [ModelManager.models]; info_norm; rewrite G2; reflexivity|].
      split; [reflexivity|]. split; [reflexivity|]. split; [exact S2|].
      left. repeat split. discriminate.
    + split; [intros other N; info_norm; now apply O2|].
      right. exists info. eexists. split; [reflexivity|]. split; [exact NR|].
      split; [info_norm; rewrite G2; reflexivity|].
      split; [reflexivity|]. split; [reflexivity|]. split; [exact S2|].
      right. split; [reflexivity|]. split; [reflexivity|].
      info_norm. exact C2.
  - intros E. injection E as <- <- <-.
    split; [intros other N; info_norm; now apply O2|].
    right. exists info. eexists. split; [reflexivity|]. split; [exact NR|].
    split; [info_norm; rewrite G2; reflexivity|].
    split; [reflexivity|]. split; [reflexivity|]. split; [reflexivity|].
    right. split; [reflexivity|]. split; [reflexivity|].
    info_norm. exact C2.
Qed.

Lemma wait_for_health_some fuel os host port timeout delta o :
  0 < delta ->
  (forall n, ModelManager.time_time os n + delta
             <= ModelManager.time_time os (S n)) ->
  (1 <= fuel)%nat ->
  ModelManager.seconds timeout <= Z.of_nat fuel * delta ->
  exists res,
    ModelManager._wait_for_health fuel os host port timeout o = Some res.
Proof.
  intros Hd Adv Hf Fuel. unfold ModelManager._wait_for_health.
  cbn [ModelManager.read_time].
  destruct (health_loop_terminates
              os host port
              (ModelManager.time_time
                 os (ModelManager.time_reads (ModelManager.trace o)))
              timeout delta Hd Adv fuel
              (ModelManager.set_trace
                 (ModelManager.mkTrace
                    (S (ModelManager.time_reads (ModelManager.trace o)))
                    (ModelManager.events (ModelManager.trace o))) o) Hf)
    as (b & o' & E & _).
  { simpl. pose proof (Adv (ModelManager.time_reads (ModelManager.trace o))).
    lia. }
  exists (b, o'). exact E.
Qed.

Lemma start_model_returns fuel os host now self o name resolution delta :
  0 < delta ->
  (forall n, ModelManager.time_time os n + delta
             <= ModelManager.time_time os (S n)) ->
  (1 <= fuel)%nat ->
  ModelManager.seconds 120 <= Z.of_nat fuel * delta ->
  exists res,
    ModelManager.start_model fuel os host now self o name resolution = Some res.
Proof.
  intros Hd Adv Hf Fuel. unfold ModelManager.start_model.
  destruct (Dict.get name (ModelManager.models self)) as [info|] eqn:G;
    [|eexists; reflexivity].
  destruct (ModelManager.ModelStatus_eqb _ _); [eexists; reflexivity|].
  destruct (ModelManager._build_vllm_command _ _ _) as [[cmd self2]|];
    [|eexists; reflexivity].
  destruct (ModelManager.spawn host _) as [pid|]; [|eexists; reflexivity].
  match goal with
  | |- context [ModelManager._wait_for_health fuel os host ?p 120 ?o1] =>
      destruct (wait_for_health_some fuel os host p 120 delta o1 Hd Adv Hf Fuel)
        as ([b o2] & W); rewrite W
  end.
  destruct b; eexists; reflexivity.
Qed.

(** X15.  With an advancing clock [start_model] always returns and
    leaves every other model alone.  An unknown model gives [False] and
    a model that is already RUNNING gives [True], both without spawning
    or changing anything.  Otherwise exactly one process is spawned: on
    [True] the model is RUNNING with that process, [started_at] set, and
    is the current model; on [False] it is in ERROR and [current_model]
    is unchanged. *)
Theorem start_model_outcome fuel os host now self o name resolution delta :
  0 < delta ->
  (forall n, ModelManager.time_time os n + delta
             <= ModelManager.time_time os (S n)) ->
  (1 <= fuel)%nat ->
  ModelManager.seconds 120 <= Z.of_nat fuel * delta ->
  exists ok self' o',
    ModelManager.start_model fuel os host now self o name resolution
    = Some (ok, self', o')
    /\ (forall other, other <> name ->
                      Dict.get other (ModelManager.models self')
                      = Dict.get other (ModelManager.models self))
    /\ (Dict.get name (ModelManager.models self) = None ->
        ok = false /\ self' = self /\ o' = o)
    /\ (forall info,
          Dict.get name (ModelManager.models self) = Some info ->
          ModelManager.status info = ModelManager.RUNNING ->
          ok = true /\ self' = self /\ o' = o)
    /\ (forall info,
          Dict.get name (ModelManager.models self) = Some info ->
          ModelManager.status info <> ModelManager.RUNNING ->
          ModelManager.spawns o' = S (ModelManager.spawns o)
          /\ exists info',
               Dict.get name (ModelManager.models self') = Some info'
               /\ (ok = true ->
                   ModelManager.status info' = ModelManager.RUNNING
                   /\ ModelManager.process info'
                      = ModelManager.spawn host (ModelManager.spawns o)
                   /\ ModelManager.process info' <> None
                   /\ ModelManager.started_at info' = Some now
                   /\ ModelManager.current_model self' = Some name)
               /\ (ok = false ->
                   ModelManager.status info' = ModelManager.ERROR
                   /\ ModelManager.current_model self'
                      = ModelManager.current_model self)).
Proof.
  intros Hd Adv Hf Fuel.
  destruct (start_model_returns fuel os host now self o name resolution delta
                                Hd Adv Hf Fuel) as ([[ok self'] o'] & E).
  exists ok, self', o'. split; [exact E|].
  destruct (start_model_effect _ _ _ _ _ _ _ _ _ _ _ E) as (Others & Cases).
  split; [exact Others|]. split; [|split].
  - intros G. destruct Cases as [(-> & -> & [[-> _]|(_ & info & G' & _)])
                                |(info & info' & G' & _)];
      try congruence. repeat split.
  - intros info G St.
    destruct Cases as [(-> & -> & [[_ G']|(-> & _)])
                      |(info0 & info' & G' & NS & _)];
      try congruence. repeat split.
  - intros info G NS.
    destruct Cases as [(_ & _ & [[_ G']|(_ & info0 & G' & St)])
                      |(info0 & info' & G' & _ & G1 & _ & _ & Sp & Rest)];
      try congruence.
    split; [exact Sp|]. exists info'. split; [exact G1|].
    destruct Rest as [(T & S1 & S2 & S3 & S4 & S5)|(F & S1 & S2)].
    + split; [intros _; now repeat split | congruence].
    + split; [congruence | intros _; now split].
Qed.

Lemma start_model_outcome_witness :
  option_map (fun r => (fst (fst r),
                        ModelManager.current_model (snd (fst r)),
                        option_map ModelManager.status
                          (Dict.get "deepseek"
                                    (ModelManager.models (snd (fst r))))))
             (ModelManager.start_model 4 slow_os never_healthy 9 two_models
                                       quiet "deepseek" None)
  = Some (false, Some "gemma", Some ModelManager.ERROR).
Proof.
  destruct (start_model_outcome
              4 slow_os never_healthy 9 two_models quiet "deepseek" None
              30000000 ltac:(lia) ltac:(intros n; simpl; lia) ltac:(lia)
              ltac:(vm_compute; discriminate))
    as (ok & self' & o' & E & _).
  rewrite E. vm_compute in E. injection E as <- <- <-. reflexivity.
Defined.

Lemma stop_keeps_running_is_current
      fuel os now self tr name graceful timeout ok self' tr' :
  ModelManager.running_is_current self ->
  ModelManager.stop_model fuel os now self tr name graceful timeout
  = Some (ok, self', tr') ->
  ModelManager.running_is_current self'
  /\ (ModelManager.current_model self = Some name ->
      forall n i, Dict.get n (ModelManager.models self') = Some i ->
                  ModelManager.status i <> ModelManager.RUNNING).
Proof.
  intros Inv E.
  destruct (stop_model_effect _ _ _ _ _ _ _ _ _ _ _ E) as (Others & Cases).
  destruct Cases as [(-> & _ & Why)
                    |(info & info' & G & NS & G' & _ & _ & _ & Rest)].
  - split; [exact Inv|]. intros Cur n i Gn Run.
    pose proof (Inv n i Gn Run) as C. rewrite Cur in C. injection C as <-.
    destruct Why as [[_ N]|(_ & info & G & St)]; congruence.
  - assert (NotRun : ModelManager.status info' <> ModelManager.RUNNING).
    { destruct Rest as [(_ & S1 & _)|(_ & S1 & _)]; rewrite S1; discriminate. }
    split.
    + intros n i Gn Run.
      destruct (String.eqb n name) eqn:En.
      * apply String.eqb_eq in En. subst n. congruence.
      * apply String.eqb_neq in En. rewrite (Others n En) in Gn.
        pose proof (Inv n i Gn Run) as C.
        destruct Rest as [(_ & _ & S2)|(_ & _ & _ & _ & S2)]; rewrite S2, C;
          [reflexivity|].
        apply String.eqb_neq in En. rewrite En. reflexivity.
    + intros Cur n i Gn Run.
      destruct (String.eqb n name) eqn:En.
      * apply String.eqb_eq in En. subst n. congruence.
      * apply String.eqb_neq in En. rewrite (Others n En) in Gn.
        pose proof (Inv n i Gn Run) as C. congruence.
Qed.

Lemma start_keeps_running_is_current
      fuel os host now self o name resolution ok self' o' :
  ModelManager.running_is_current self ->
  only_running name self ->
  ModelManager.start_model fuel os host now self o name resolution
  = Some (ok, self', o') ->
  ModelManager.running_is_current self'
  /\ (ok = true ->
      ModelManager.current_model self' = Some name
      /\ exists i, Dict.get name (ModelManager.models self') = Some i
                   /\ ModelManager.status i = ModelManager.RUNNING).
Proof.
  intros Inv Only E.
  destruct (start_model_effect _ _ _ _ _ _ _ _ _ _ _ E) as (Others & Cases).
  destruct Cases as [(-> & _ & Why)
                    |(info & info' & G & NR & G' & _ & _ & _ & Rest)].
  - split; [exact Inv|]. intros ->.
    destruct Why as [[F _]|(_ & info & G & St)]; [discriminate|].
    split; [exact (Inv name info G St)|]. exists info. now split.
  - split.
    + intros n i Gn Run.
      destruct (String.eqb n name) eqn:En.
      * apply String.eqb_eq in En. subst n.
        destruct Rest as [(_ & _ & _ & _ & _ & C)|(_ & S1 & _)];
          [exact C | congruence].
      * apply String.eqb_neq in En. rewrite (Others n En) in Gn.
        exfalso. apply En. exact (Only n i Gn Run).
    + intros ->.
      destruct Rest as [(_ & S1 & _ & _ & _ & C)|(F & _)]; [|discriminate].
      split; [exact C|]. exists info'. now split.
Qed.

(** X16.  [switch_model] keeps the manager consistent: if every model
    reported RUNNING is the current model (and no model is named by the
    empty string), the same holds after the switch, so at most one model
    is RUNNING; and a switch answered [True] leaves the target RUNNING
    and current. *)
Theorem switch_model_keeps_one_running
        fuel os host now_stop now_start self o target resolution ok self' o' :
  ModelManager.running_is_current self ->
  Dict.get EmptyString (ModelManager.models self) = None ->
  ModelManager.switch_model fuel os host now_stop now_start self o target
                            resolution
  = Some (ok, self', o') ->
  ModelManager.running_is_current self'
  /\ Dict.get EmptyString (ModelManager.models self') = None
  /\ (forall n1 i1 n2 i2,
        Dict.get n1 (ModelManager.models self') = Some i1 ->
        ModelManager.status i1 = ModelManager.RUNNING ->
        Dict.get n2 (ModelManager.models self') = Some i2 ->
        ModelManager.status i2 = ModelManager.RUNNING ->
        n1 = n2)
  /\ (ok = true ->
      ModelManager.current_model self' = Some target
      /\ exists i, Dict.get target (ModelManager.models self') = Some i
                   /\ ModelManager.status i = ModelManager.RUNNING).
Proof.
  intros Inv NoEmpty. unfold ModelManager.switch_model.
  assert (Fin : forall self1 o1,
             ModelManager.running_is_current self1 ->
             only_running target self1 ->
             Dict.get EmptyString (ModelManager.models self1) = None ->
             ModelManager.start_model fuel os host now_start self1 o1 target
                                      resolution
             = Some (ok, self', o') ->
             ModelManager.running_is_current self'
             /\ Dict.get EmptyString (ModelManager.models self') = None
             /\ (forall n1 i1 n2 i2,
                   Dict.get n1 (ModelManager.models self') = Some i1 ->
                   ModelManager.status i1 = ModelManager.RUNNING ->
                   Dict.get n2 (ModelManager.models self') = Some i2 ->
                   ModelManager.status i2 = ModelManager.RUNNING ->
                   n1 = n2)
             /\ (ok = true ->
                 ModelManager.current_model self' = Some target
                 /\ exists i,
                      Dict.get target (ModelManager.models self') = Some i
                      /\ ModelManager.status i = ModelManager.RUNNING)).
  { intros self1 o1 Inv1 Only1 NoE1 E.
    destruct (start_keeps_running_is_current _ _ _ _ _ _ _ _ _ _ _ Inv1 Only1 E)
      as (Inv' & Ok).
    split; [exact Inv'|]. split; [|split; [|exact Ok]].
    - destruct (start_model_effect _ _ _ _ _ _ _ _ _ _ _ E) as (Others & Cases).
      destruct (String.eqb EmptyString target) eqn:Et.
      + apply String.eqb_eq in Et. subst target.
        destruct Cases as [(-> & _)|(info & _ & G & _)]; congruence.
      + apply String.eqb_neq in Et. now rewrite (Others _ Et).
    - intros n1 i1 n2 i2 G1 R1 G2 R2.
      pose proof (Inv' n1 i1 G1 R1). pose proof (Inv' n2 i2 G2 R2). congruence. }
  destruct (ModelManager.current_model self) as [cur|] eqn:Cur.
  - destruct (negb (String.eqb cur EmptyString) && negb (String.eqb cur target))
      eqn:Need.
    + apply andb_prop in Need as [NE NT].
      apply negb_true_iff, String.eqb_neq in NE.
      destruct (ModelManager.stop_model _ _ _ _ _ _ _ _) as [[[b self1] tr1]|]
        eqn:S; [|discriminate].
      destruct (stop_keeps_running_is_current _ _ _ _ _ _ _ _ _ _ _ Inv S)
        as (Inv1 & None1).
      destruct (stop_model_effect _ _ _ _ _ _ _ _ _ _ _ S) as (Others & _).
      apply Fin; [exact Inv1 | | ].
      * intros n i G R. exfalso. exact (None1 Cur n i G R).
      * rewrite (Others EmptyString); [exact NoEmpty | congruence].
    + apply Fin; [exact Inv | | exact NoEmpty].
      intros n i G R. pose proof (Inv n i G R) as C. rewrite Cur in C.
      injection C as <-.
      apply andb_false_iff in Need as [H|H]; apply negb_false_iff in H;
        apply String.eqb_eq in H; [subst; congruence | exact H].
  - apply Fin; [exact Inv | | exact NoEmpty].
    intros n i G R. pose proof (Inv n i G R) as C. congruence.
Qed.

Lemma switch_model_keeps_one_running_witness :
  option_map
    (fun r => (fst (fst r),
               ModelManager.current_model (snd (fst r)),
               map (fun kv => (fst kv, ModelManager.status (snd kv)))
                   (ModelManager.models (snd (fst r)))))
    (ModelManager.switch_model 4 slow_os (healthy_after 1) 5 6 two_models
                               quiet "deepseek" None)
  = Some (true, Some "deepseek",
          [("gemma", ModelManager.STOPPED);
           ("deepseek", ModelManager.RUNNING)]).
Proof.
  destruct (ModelManager.switch_model 4 slow_os (healthy_after 1) 5 6
                                      two_models quiet "deepseek" None)
    as [[[ok self'] o']|] eqn:E; [|vm_compute in E; discriminate].
  assert (Inv : ModelManager.running_is_current two_models).
  { intros n i G R. unfold two_models in G.
    cbn [ModelManager.models Dict.get] in G.
    destruct (String.eqb "gemma" n) eqn:E1.
    - apply String.eqb_eq in E1. subst n. reflexivity.
    - destruct (String.eqb "deepseek" n); [|discriminate].
      injection G as <-. discriminate. }
  destruct (switch_model_keeps_one_running
              4 slow_os (healthy_after 1) 5 6 two_models quiet "deepseek" None
              ok self' o' Inv eq_refl E) as (_ & _ & _ & _).
  vm_compute in E. injection E as <- <- <-. reflexivity.
Defined.

Lemma OCRResolution_eqb_refl r : ModelManager.OCRResolution_eqb r r = true.
Proof. destruct r; reflexivity. Qed.

(** X17.  A failed resolution switch sticks.  When
    [switch_ocr_resolution] to [r] answers [False] for a configured OCR
    model, the model is left in ERROR with [current_resolution] already
    [r] (the command builder records it before anything is spawned), so
    that every later [switch_ocr_resolution] to [r] answers [True]
    without stopping, spawning or changing anything. *)
Theorem failed_resolution_switch_sticks
        fuel os host now_stop now_start self o r graceful self' o' info :
  Dict.get "deepseek" (ModelManager.models self) = Some info ->
  ModelManager.switch_ocr_resolution fuel os host now_stop now_start self o r
                                     graceful
  = Some (false, self', o') ->
  (exists info',
      Dict.get "deepseek" (ModelManager.models self') = Some info'
      /\ ModelManager.status info' = ModelManager.ERROR
      /\ ModelManager.current_resolution info' = Some r)
  /\ (forall fuel2 os2 host2 now3 now4 o2 graceful2,
        ModelManager.switch_ocr_resolution fuel2 os2 host2 now3 now4 self' o2 r
                                           graceful2
        = Some (true, self', o2)).
Proof.
  intros G E.
  assert (Stuck : exists info',
             Dict.get "deepseek" (ModelManager.models self') = Some info'
             /\ ModelManager.status info' = ModelManager.ERROR
             /\ ModelManager.current_resolution info' = Some r).
  { unfold ModelManager.switch_ocr_resolution in E. rewrite G in E.
    destruct (match ModelManager.current_resolution info with
              | Some r0 => ModelManager.OCRResolution_eqb r0 r
              | None => false
              end); [discriminate|].
    assert (Start : forall self1 o1 info1,
               Dict.get "deepseek" (ModelManager.models self1) = Some info1 ->
               ModelManager.status info1 <> ModelManager.RUNNING ->
               match ModelManager.start_model fuel os host now_start self1 o1
                                              "deepseek" (Some r) with
               | Some (true, self2, o2) =>
                   Some (true,
                         ModelManager.update_info
                           "deepseek"
                           (ModelManager.set_current_resolution (Some r)) self2,
                         o2)
               | Some (false, self2, o2) => Some (false, self2, o2)
               | None => None
               end = Some (false, self', o') ->
               exists info',
                 Dict.get "deepseek" (ModelManager.models self') = Some info'
                 /\ ModelManager.status info' = ModelManager.ERROR
                 /\ ModelManager.current_resolution info' = Some r).
    { intros self1 o1 info1 G1 NR1 E1.
      destruct (ModelManager.start_model _ _ _ _ _ _ _ _)
        as [[[b self2] o2]|] eqn:S; [|discriminate].
      destruct b; [discriminate|]. injection E1 as <- <-.
      destruct (start_model_effect _ _ _ _ _ _ _ _ _ _ _ S) as (_ & Cases).
      destruct Cases as [(_ & _ & [[_ N]|(T & _)])
                        |(i0 & info' & G0 & _ & G' & _ & Res & _ & Rest)];
        try congruence.
      exists info'. split; [exact G'|].
      destruct Rest as [(T & _)|(_ & St & _)]; [discriminate|].
      split; [exact St|]. exact Res. }
    destruct (ModelManager.ModelStatus_eqb (ModelManager.status info)
                                           ModelManager.RUNNING) eqn:Run.
    - destruct (ModelManager.stop_model _ _ _ _ _ _ _ _)
        as [[[b self1] tr1]|] eqn:S; [|discriminate].
      destruct (stop_model_effect _ _ _ _ _ _ _ _ _ _ _ S) as (_ & Cases).
      apply ModelStatus_eqb_eq in Run.
      destruct Cases as [(_ & _ & [[_ N]|(_ & i0 & G0 & St0)])
                        |(i0 & info1 & G0 & _ & G1 & _ & _ & _ & Rest)];
        try congruence.
      apply (Start self1 (ModelManager.set_trace tr1 o) info1 G1); [|exact E].
      destruct Rest as [(_ & S1 & _)|(_ & S1 & _)]; rewrite S1; discriminate.
    - apply (Start self o info G); [|exact E].
      intros H. apply ModelStatus_eqb_eq in H. congruence. }
  split; [exact Stuck|].
  destruct Stuck as (info' & G' & _ & Res).
  intros fuel2 os2 host2 now3 now4 o2 graceful2.
  unfold ModelManager.switch_ocr_resolution. rewrite G', Res.
  now rewrite OCRResolution_eqb_refl.
Qed.

Lemma failed_resolution_switch_sticks_witness :
  let first := ModelManager.switch_ocr_resolution
                 4 slow_os never_healthy 5 6 two_models quiet
                 ModelManager.GUNDAM true in
  option_map (fun r => fst (fst r)) first = Some false
  /\ match first with
     | Some (_, self', _) =>
         ModelManager.switch_ocr_resolution
           4 slow_os (healthy_after 0) 7 8 self' quiet ModelManager.GUNDAM true
         = Some (true, self', quiet)
     | None => False
     end.
Proof.
  intros first. split; [reflexivity|].
  destruct first as [[[ok self'] o']|] eqn:E; [|vm_compute in E; discriminate].
  assert (Ok : ok = false) by (vm_compute in E; congruence). subst ok.
  refine (proj2 (failed_resolution_switch_sticks
                   4 slow_os never_healthy 5 6 two_models quiet
                   ModelManager.GUNDAM true self' o' _ eq_refl E)
                4%nat slow_os (healthy_after 0) 7 8 quiet true).
Defined.

(** X18.  The resolution plays no part in what [start_model] launches:
    for any two resolutions (or none) the answer, the command handed to
    [Popen], the health probes and the whole outside afterwards are the
    same; only the resolution recorded in the manager can differ. *)
Theorem start_model_ignores_resolution fuel os host now self o name r1 r2 :
  option_map (fun r => (fst (fst r), snd r))
             (ModelManager.start_model fuel os host now self o name r1)
  = option_map (fun r => (fst (fst r), snd r))
               (ModelManager.start_model fuel os host now self o name r2)
  /\ option_map fst (ModelManager._build_vllm_command self name r1)
     = option_map fst (ModelManager._build_vllm_command self name r2).
Proof.
  split.
  - unfold ModelManager.start_model.
    destruct (Dict.get name (ModelManager.models self)) as [info|] eqn:G;
      [|reflexivity].
    destruct (ModelManager.ModelStatus_eqb _ _); [reflexivity|].
    unfold ModelManager._build_vllm_command. info_norm. rewrite G.
    cbn [option_map].
    destruct (ModelManager.spawn host _) as [pid|]; [|reflexivity].
    destruct (ModelManager._wait_for_health _ _ _ _ _ _) as [[[|] o2]|];
      reflexivity.
  - unfold ModelManager._build_vllm_command.
    destruct (Dict.get name (ModelManager.models self)); reflexivity.
Qed.

Lemma new_info_some name config st info :
  ModelManager.new_info name config st = Some info ->
  ModelManager.status info = st
  /\ ModelManager.process info = None
  /\ ModelManager.info_config info = config
  /\ ModelManager.info_name info = name
  /\ ModelManager.started_at info = None.
Proof.
  unfold ModelManager.new_info.
  destruct (String.eqb name "deepseek").
  - destruct (ModelManager.resolution_mode config) as [mode|].
    + destruct (String.eqb mode EmptyString).
      * intros E. injection E as <-. repeat split.
      * destruct (ModelManager.OCRResolution_of mode); [|discriminate].
        intros E. injection E as <-. repeat split.
    + intros E. injection E as <-. repeat split.
  - intros E. injection E as <-. repeat split.
Qed.

Lemma new_info_none name config st :
  ModelManager.new_info name config st = None <->
  name = "deepseek"
  /\ exists mode, ModelManager.resolution_mode config = Some mode
                  /\ mode <> EmptyString
                  /\ ModelManager.OCRResolution_of mode = None.
Proof.
  unfold ModelManager.new_info.
  destruct (String.eqb name "deepseek") eqn:En.
  - apply String.eqb_eq in En.
    destruct (ModelManager.resolution_mode config) as [mode|].
    + destruct (String.eqb mode EmptyString) eqn:Em.
      * apply String.eqb_eq in Em. split; [discriminate|].
        intros (_ & m & E & N & _). injection E as <-. contradiction.
      * apply String.eqb_neq in Em.
        destruct (ModelManager.OCRResolution_of mode) eqn:R.
        -- split; [discriminate|].
           intros (_ & m & E & _ & O). injection E as <-. congruence.
        -- split; [|reflexivity]. intros _. split; [exact En|].
           exists mode. now repeat split.
    + split; [discriminate|]. intros (_ & m & E & _). discriminate.
  - apply String.eqb_neq in En. split; [discriminate|]. intros [E _].
    contradiction.
Qed.

Lemma init_models_some configs : forall acc ms,
  ModelManager.init_models configs acc = Some ms ->
  forall n i,
    Dict.get n ms = Some i ->
    Dict.get n acc = Some i
    \/ (ModelManager.status i = ModelManager.STOPPED
        /\ ModelManager.process i = None
        /\ In (n, ModelManager.info_config i) configs).
Proof.
  induction configs as [|[k c] configs IH]; intros acc ms E n i G; simpl in E.
  - injection E as <-. now left.
  - destruct (ModelManager.new_info k c ModelManager.STOPPED) as [info|] eqn:N;
      [|discriminate].
    destruct (new_info_some _ _ _ _ N) as (S1 & S2 & S3 & _).
    destruct (IH _ _ E n i G) as [Old|(T1 & T2 & T3)].
    + destruct (String.eqb k n) eqn:Ek.
      * apply String.eqb_eq in Ek. subst k.
        rewrite dict_get_set_same in Old. injection Old as <-.
        right. repeat split; try assumption. left. now rewrite S3.
      * apply String.eqb_neq in Ek.
        rewrite dict_get_set_other in Old by congruence. now left.
    + right. repeat split; try assumption. now right.
Qed.

Lemma init_models_none configs : forall acc,
  ModelManager.init_models configs acc = None <->
  exists c mode,
    In ("deepseek", c) configs
    /\ ModelManager.resolution_mode c = Some mode
    /\ mode <> EmptyString
    /\ ModelManager.OCRResolution_of mode = None.
Proof.
  induction configs as [|[k c] configs IH]; intros acc; simpl.
  - split; [discriminate | intros (c & m & [] & _)].
  - destruct (ModelManager.new_info k c ModelManager.STOPPED) as [info|] eqn:N.
    + rewrite IH. split.
      * intros (c0 & m & Hin & Rest). exists c0, m. split; [now right | exact Rest].
      * intros (c0 & m & [Hd|Hin] & R1 & R2 & R3).
        -- injection Hd as -> ->.
           assert (X : ModelManager.new_info "deepseek" c0 ModelManager.STOPPED
                       = None)
             by (apply new_info_none; split; [reflexivity|]; exists m; auto).
           congruence.
        -- exists c0, m. auto.
    + apply new_info_none in N as (-> & m & R1 & R2 & R3).
      split; [|reflexivity]. intros _. exists c, m. split; [now left | auto].
Qed.

(** X19.  A manager built from the configuration has every configured
    model STOPPED without a process and no current model (so every
    RUNNING model is trivially the current one); construction fails
    exactly when the model named "deepseek" is configured with a
    non-empty resolution mode that is no member of the resolution set. *)
Theorem manager_init_all_stopped configs :
  (forall m,
      ModelManager.init configs = Some m ->
      ModelManager.current_model m = None
      /\ ModelManager.running_is_current m
      /\ forall n i,
           Dict.get n (ModelManager.models m) = Some i ->
           ModelManager.status i = ModelManager.STOPPED
           /\ ModelManager.process i = None
           /\ In (n, ModelManager.info_config i) configs)
  /\ (ModelManager.init configs = None <->
      exists c mode,
        In ("deepseek", c) configs
        /\ ModelManager.resolution_mode c = Some mode
        /\ mode <> EmptyString
        /\ ModelManager.OCRResolution_of mode = None).
Proof.
  unfold ModelManager.init. split.
  - intros m E.
    destruct (ModelManager.init_models configs []) as [ms|] eqn:I;
      [|discriminate].
    injection E as <-. simpl.
    assert (All : forall n i,
               Dict.get n ms = Some i ->
               ModelManager.status i = ModelManager.STOPPED
               /\ ModelManager.process i = None
               /\ In (n, ModelManager.info_config i) configs).
    { intros n i G. destruct (init_models_some _ _ _ I n i G) as [Old|H];
        [discriminate | exact H]. }
    split; [reflexivity|]. split; [|exact All].
    intros n i G R. simpl in G. destruct (All n i G) as (S & _). congruence.
  - rewrite <- (init_models_none configs []).
    destruct (ModelManager.init_models configs []); split; congruence.
Qed.

Lemma manager_init_all_stopped_witness :
  option_map
    (fun m => (ModelManager.current_model m,
               map (fun kv => (fst kv, ModelManager.status (snd kv),
                               ModelManager.current_resolution (snd kv)))
                   (ModelManager.models m)))
    (ModelManager.init
       [("gemma", ModelManager.mkConfig "google/gemma" 8001 (9 # 10) 4096 4
                                        true None);
        ("deepseek", ModelManager.mkConfig "deepseek-ai/DeepSeek-OCR" 8002
                                           (9 # 10) 8192 2 true (Some "large"))])
  = Some (None, [("gemma", ModelManager.STOPPED, None);
                 ("deepseek", ModelManager.STOPPED, Some ModelManager.LARGE)])
  /\ ModelManager.init
       [("deepseek", ModelManager.mkConfig "deepseek-ai/DeepSeek-OCR" 8002
                                           (9 # 10) 8192 2 true (Some "huge"))]
     = None.
Proof.
  split; [reflexivity|].
  apply (proj2 (manager_init_all_stopped _)).
  do 2 eexists. split; [left; reflexivity|].
  split; [reflexivity|]. split; [discriminate | reflexivity].
Defined.

(* ===================================================================== *)
(** ** The pattern analyzer *)
(* ===================================================================== *)

Lemma Key_eqb_eq a b : PatternAnalyzer.Key_eqb a b = true <-> a = b.
Proof.
  destruct a as [x|], b as [y|]; simpl; try (split; congruence).
  rewrite String.eqb_eq. split; congruence.
Qed.

Lemma Key_eqb_refl a : PatternAnalyzer.Key_eqb a a = true.
Proof. now apply Key_eqb_eq. Qed.

Lemma Key_eqb_neq a b : PatternAnalyzer.Key_eqb a b = false <-> a <> b.
Proof.
  rewrite <- Key_eqb_eq. destruct (PatternAnalyzer.Key_eqb a b); split;
    congruence.
Qed.

Lemma count_of_bump k k' d :
  count_of k' (PatternAnalyzer.bump k d)
  = count_of k' d + (if PatternAnalyzer.Key_eqb k k' then 1 else 0).
Proof.
  unfold count_of. induction d as [|[k0 n] d IH]; simpl.
  - destruct (PatternAnalyzer.Key_eqb k k'); reflexivity.
  - destruct (PatternAnalyzer.Key_eqb k0 k) eqn:E0; simpl.
    + apply Key_eqb_eq in E0. subst k0.
      destruct (PatternAnalyzer.Key_eqb k k'); lia.
    + destruct (PatternAnalyzer.Key_eqb k0 k') eqn:E1; [|exact IH].
      apply Key_eqb_eq in E1. subst k0.
      apply Key_eqb_neq in E0.
      assert (X : PatternAnalyzer.Key_eqb k k' = false)
        by (apply Key_eqb_neq; congruence).
      rewrite X. lia.
Qed.

Lemma sum_values_from (d : list (PatternAnalyzer.Key * Z)) : forall a,
  fold_left (fun acc kv => acc + snd kv) d a
  = a + PatternAnalyzer.sum_values d.
Proof.
  unfold PatternAnalyzer.sum_values.
  induction d as [|kv d IH]; intros a; simpl; [lia|].
  rewrite (IH (a + snd kv)), (IH (snd kv)). lia.
Qed.

Lemma sum_values_cons kv d :
  PatternAnalyzer.sum_values (kv :: d) = snd kv + PatternAnalyzer.sum_values d.
Proof.
  unfold PatternAnalyzer.sum_values at 1. simpl. apply sum_values_from.
Qed.

Lemma sum_values_bump k d :
  PatternAnalyzer.sum_values (PatternAnalyzer.bump k d)
  = PatternAnalyzer.sum_values d + 1.
Proof.
  induction d as [|[k0 n] d IH]; simpl.
  - reflexivity.
  - destruct (PatternAnalyzer.Key_eqb k0 k);
      rewrite !sum_values_cons; simpl; lia.
Qed.

Lemma bump_keys k d k' :
  In k' (map fst (PatternAnalyzer.bump k d)) <-> k' = k \/ In k' (map fst d).
Proof.
  induction d as [|[k0 n] d IH]; simpl.
  - intuition congruence.
  - destruct (PatternAnalyzer.Key_eqb k0 k) eqn:E; simpl.
    + apply Key_eqb_eq in E. subst k0. intuition congruence.
    + rewrite IH. intuition.
Qed.

Lemma bump_NoDup k d :
  NoDup (map fst d) -> NoDup (map fst (PatternAnalyzer.bump k d)).
Proof.
  induction d as [|[k0 n] d IH]; simpl; intros N.
  - constructor; [intros [] | constructor].
  - inversion N as [|? ? Hn Hd]; subst.
    destruct (PatternAnalyzer.Key_eqb k0 k) eqn:E; simpl.
    + constructor; assumption.
    + constructor; [|now apply IH].
      rewrite bump_keys. intros [->|H]; [|contradiction].
      rewrite Key_eqb_refl in E. discriminate.
Qed.

Lemma bump_positive k d :
  (forall kv, In kv d -> 0 < snd kv) ->
  forall kv, In kv (PatternAnalyzer.bump k d) -> 0 < snd kv.
Proof.
  induction d as [|[k0 n] d IH]; simpl; intros P kv H.
  - destruct H as [<-|[]]. simpl. lia.
  - destruct (PatternAnalyzer.Key_eqb k0 k); simpl in H.
    + destruct H as [<-|H]; [|now apply P; right].
      simpl. specialize (P (k0, n) (or_introl eq_refl)). simpl in P. lia.
    + destruct H as [<-|H]; [now apply P; left|].
      apply IH; [|exact H]. intros kv' H'. apply P. now right.
Qed.

Lemma lookup_In (d : list (PatternAnalyzer.Key * Z)) k v :
  NoDup (map fst d) -> In (k, v) d -> PatternAnalyzer.lookup k d = Some v.
Proof.
  induction d as [|[k0 n] d IH]; simpl; intros N H; [contradiction|].
  inversion N as [|? ? Hn Hd]; subst.
  destruct H as [E|H].
  - injection E as -> ->. now rewrite Key_eqb_refl.
  - destruct (PatternAnalyzer.Key_eqb k0 k) eqn:E; [|now apply IH].
    apply Key_eqb_eq in E. subst k0. exfalso. apply Hn.
    apply (in_map fst) in H. exact H.
Qed.

Lemma In_lookup (d : list (PatternAnalyzer.Key * Z)) k v :
  PatternAnalyzer.lookup k d = Some v -> In (k, v) d.
Proof.
  induction d as [|[k0 n] d IH]; simpl; [discriminate|].
  destruct (PatternAnalyzer.Key_eqb k0 k) eqn:E.
  - apply Key_eqb_eq in E. subst k0. intros H. injection H as ->. now left.
  - intros H. right. now apply IH.
Qed.

Lemma uses_cons start k r requests :
  uses start k (r :: requests)
  = uses start k requests
    + (if (PatternAnalyzer.created_at r >=? start)
          && PatternAnalyzer.Key_eqb (PatternAnalyzer.model_name r) k
       then 1 else 0).
Proof.
  unfold uses, in_window. cbn [filter].
  destruct (PatternAnalyzer.created_at r >=? start); cbn [andb filter];
    [|lia].
  destruct (PatternAnalyzer.Key_eqb (PatternAnalyzer.model_name r) k);
    cbn [List.length]; lia.
Qed.

Lemma window_cons start r requests :
  Z.of_nat (List.length (in_window start (r :: requests)))
  = Z.of_nat (List.length (in_window start requests))
    + (if PatternAnalyzer.created_at r >=? start then 1 else 0).
Proof.
  unfold in_window. cbn [filter].
  destruct (PatternAnalyzer.created_at r >=? start); cbn [List.length]; lia.
Qed.

Lemma uses_nonneg start k requests : 0 <= uses start k requests.
Proof. unfold uses. lia. Qed.

(** Two different models share the window. *)
Lemma uses_two start k1 k2 requests :
  k1 <> k2 ->
  uses start k1 requests + uses start k2 requests
  <= Z.of_nat (List.length (in_window start requests)).
Proof.
  intros D. induction requests as [|r requests IH].
  - unfold uses. simpl. lia.
  - rewrite !uses_cons, window_cons.
    destruct (PatternAnalyzer.created_at r >=? start); cbn [andb]; [|lia].
    destruct (PatternAnalyzer.Key_eqb (PatternAnalyzer.model_name r) k1) eqn:E1,
             (PatternAnalyzer.Key_eqb (PatternAnalyzer.model_name r) k2) eqn:E2;
      try lia.
    apply Key_eqb_eq in E1, E2. congruence.
Qed.

(** What the counting loop adds to [model_counts]. *)
Lemma count_models_spec start cutoff requests : forall counts recent,
  let result :=
    fst (PatternAnalyzer.count_models start cutoff requests counts recent) in
  (forall k, count_of k result = count_of k counts + uses start k requests)
  /\ PatternAnalyzer.sum_values result
     = PatternAnalyzer.sum_values counts
       + Z.of_nat (List.length (in_window start requests))
  /\ (NoDup (map fst counts) -> NoDup (map fst result))
  /\ ((forall kv, In kv counts -> 0 < snd kv) ->
      forall kv, In kv result -> 0 < snd kv).
Proof.
  induction requests as [|r requests IH]; intros counts recent.
  - simpl. repeat split; auto.
    + intros k. unfold uses. simpl. lia.
    + unfold in_window. simpl. lia.
  - cbn [PatternAnalyzer.count_models]. cbv zeta.
    destruct (PatternAnalyzer.created_at r >=? start) eqn:W.
    + match goal with
      | |- context [PatternAnalyzer.count_models _ _ _ ?c ?rc] =>
          destruct (IH c rc) as (I1 & I2 & I3 & I4)
      end.
      repeat split.
      * intros k. rewrite I1, count_of_bump, uses_cons, W. cbn [andb]. lia.
      * rewrite I2, sum_values_bump, window_cons, W. lia.
      * intros N. apply I3, bump_NoDup, N.
      * intros P. apply I4, bump_positive, P.
    + destruct (IH counts recent) as (I1 & I2 & I3 & I4).
      repeat split.
      * intros k. rewrite I1, uses_cons, W. cbn [andb]. lia.
      * rewrite I2, window_cons, W. lia.
      * exact I3.
      * exact I4.
Qed.

(** [max] returns an item of the list, of greatest count. *)
Lemma max_item_spec items : forall best,
  let top := PatternAnalyzer.max_item best items in
  In top (best :: items)
  /\ forall item, In item (best :: items) -> snd item <= snd top.
Proof.
  induction items as [|item items IH]; intros best; simpl.
  - split; [now left|]. intros it [<-|[]]. lia.
  - destruct (snd item >? snd best) eqn:G.
    + rewrite Z.gtb_ltb in G. apply Z.ltb_lt in G.
      destruct (IH item) as (I1 & I2). split.
      * right. exact I1.
      * intros it [<-|H]; [|now apply I2].
        specialize (I2 item (or_introl eq_refl)). lia.
    + rewrite Z.gtb_ltb in G. apply Z.ltb_ge in G.
      destruct (IH best) as (I1 & I2). split.
      * destruct I1 as [I1|I1]; [now left | now right; right].
      * intros it [<-|[<-|H]].
        -- apply I2. now left.
        -- specialize (I2 best (or_introl eq_refl)). lia.
        -- apply I2. now right.
Qed.

(** The confidence test in whole numbers. *)
Lemma confidence_test total count :
  0 < total ->
  Qle_bool (6 # 10)
           (PatternAnalyzer.percentage total count / inject_Z 100)
  = (3 * total <=? 5 * count).
Proof.
  intros T. destruct total as [|p|p]; try lia.
  apply eq_true_iff_eq. rewrite Qle_bool_iff, Z.leb_le.
  unfold PatternAnalyzer.percentage, Qle, Qdiv, Qmult, Qinv, inject_Z.
  cbn [Qnum Qden]. rewrite ?Pos2Z.inj_mul. lia.
Qed.

Lemma uses_le_window start k requests :
  uses start k requests <= Z.of_nat (List.length (in_window start requests)).
Proof.
  induction requests as [|r requests IH].
  - unfold uses. simpl. lia.
  - rewrite uses_cons, window_cons.
    destruct (PatternAnalyzer.created_at r >=? start); cbn [andb]; [|lia].
    destruct (PatternAnalyzer.Key_eqb _ _); lia.
Qed.

Lemma lookup_map {A B : Type} (f : A -> B) k
    (d : list (PatternAnalyzer.Key * A)) :
  PatternAnalyzer.lookup k (map (fun kv => (fst kv, f (snd kv))) d)
  = option_map f (PatternAnalyzer.lookup k d).
Proof.
  induction d as [|[k0 v] d IH]; simpl; [reflexivity|].
  destruct (PatternAnalyzer.Key_eqb k0 k); [reflexivity | exact IH].
Qed.

(** What an analysis answers, in terms of the rows of the window. *)
Lemma analysis_outcome env self requests w :
  let start := window_start env self w in
  let total := Z.of_nat (List.length (in_window start requests)) in
  let a := snd (PatternAnalyzer.analyze_patterns env self requests w) in
  PatternAnalyzer.total_requests a = total
  /\ (forall m,
        PatternAnalyzer.recommended_model a = Some m ->
        0 < uses start (Some m) requests
        /\ PatternAnalyzer.min_requests self <= uses start (Some m) requests
        /\ (forall k, uses start k requests <= uses start (Some m) requests)
        /\ PatternAnalyzer.confidence a
           = Some (PatternAnalyzer.percentage
                     total (uses start (Some m) requests) / inject_Z 100)%Q)
  /\ (forall m,
        0 < uses start (Some m) requests ->
        PatternAnalyzer.min_requests self <= uses start (Some m) requests ->
        (forall k, k <> Some m ->
                   uses start k requests < uses start (Some m) requests) ->
        PatternAnalyzer.recommended_model a = Some m).
Proof.
  intros start total a. subst a.
  unfold PatternAnalyzer.analyze_patterns, read_clock.
  cbn [clock_reads collection db_log uuid_calls]. fold (window_start env self w).
  fold start.
  pose proof (count_models_spec start
                (utcnow env (S (clock_reads w)) - PatternAnalyzer.hours 24)
                requests [] []) as Spec.
  destruct (PatternAnalyzer.count_models _ _ requests [] [])
    as [counts recent].
  cbn [fst] in Spec. destruct Spec as (F1 & F2 & F3 & F4).
  assert (C : forall k, count_of k counts = uses start k requests)
    by (intros k; rewrite F1; reflexivity).
  assert (T : PatternAnalyzer.sum_values counts = total)
    by (rewrite F2; reflexivity).
  assert (N : NoDup (map fst counts)) by (apply F3; constructor).
  assert (P : forall kv, In kv counts -> 0 < snd kv)
    by (apply F4; intros kv []).
  clear F1 F2 F3 F4. rewrite T.
  destruct (total =? 0) eqn:Z0.
  { apply Z.eqb_eq in Z0. cbn [snd PatternAnalyzer.total_requests
                                PatternAnalyzer.recommended_model].
    split; [congruence|]. split; [discriminate|].
    intros m U _ _. pose proof (uses_le_window start (Some m) requests).
    fold total in H. lia. }
  apply Z.eqb_neq in Z0.
  destruct counts as [|first others] eqn:Ec.
  { unfold PatternAnalyzer.sum_values in T. simpl in T. congruence. }
  rewrite <- Ec in *.
  destruct (max_item_spec others first) as (M1 & M2). cbv zeta in M1, M2.
  set (top := PatternAnalyzer.max_item first others) in *.
  rewrite <- Ec in M1, M2.
  assert (L : PatternAnalyzer.lookup (fst top) counts = Some (snd top)).
  { apply lookup_In; [exact N|]. now destruct top. }
  assert (Ctop : uses start (fst top) requests = snd top).
  { rewrite <- C. unfold count_of. now rewrite L. }
  assert (Max : forall k, uses start k requests <= snd top).
  { intros k. rewrite <- C. unfold count_of.
    destruct (PatternAnalyzer.lookup k counts) as [v|] eqn:Lk.
    - apply In_lookup in Lk. apply (M2 (k, v)), Lk.
    - specialize (P top M1). lia. }
  rewrite L.
  destruct (snd top <? PatternAnalyzer.min_requests self) eqn:Min.
  { apply Z.ltb_lt in Min.
    cbn [snd PatternAnalyzer.total_requests PatternAnalyzer.recommended_model].
    split; [reflexivity|]. split; [discriminate|].
    intros m U Mn Others. exfalso.
    destruct (PatternAnalyzer.Key_eqb (fst top) (Some m)) eqn:E;
      [apply Key_eqb_eq in E | apply Key_eqb_neq in E].
    - rewrite E in Ctop. lia.
    - specialize (Others _ E). specialize (Max (Some m)). lia. }
  apply Z.ltb_ge in Min.
  cbn [snd PatternAnalyzer.total_requests PatternAnalyzer.recommended_model
           PatternAnalyzer.confidence].
  split; [reflexivity|]. split.
  - intros m E. rewrite E in Ctop. rewrite Ctop.
    split; [apply (P top M1)|]. split; [exact Min|]. split; [exact Max|].
    rewrite lookup_map, L. reflexivity.
  - intros m U Mn Others.
    destruct (PatternAnalyzer.Key_eqb (fst top) (Some m)) eqn:E;
      [apply Key_eqb_eq in E; exact E | apply Key_eqb_neq in E].
    specialize (Others _ E). specialize (Max (Some m)). lia.
Qed.

(** X20.  The total an analysis reports is the number of history rows
    inside the window, and a model it recommends is one of greatest use
    in the window, used at least [min_requests] times there. *)
Theorem recommendation_is_most_used env self requests w :
  let start := window_start env self w in
  let a := snd (PatternAnalyzer.analyze_patterns env self requests w) in
  PatternAnalyzer.total_requests a
  = Z.of_nat (List.length (in_window start requests))
  /\ forall m,
       PatternAnalyzer.recommended_model a = Some m ->
       PatternAnalyzer.min_requests self <= uses start (Some m) requests
       /\ forall k, uses start k requests <= uses start (Some m) requests.
Proof.
  intros start a.
  destruct (analysis_outcome env self requests w) as (O1 & O2 & _).
  split; [exact O1|].
  intros m R. destruct (O2 m R) as (_ & Mn & Mx & _). now split.
Qed.

Lemma recommendation_is_most_used_witness :
  uses (window_start (calm []) (PatternAnalyzer.mk 7 5 None) empty_world)
       (Some "deepseek") gemma_week
  <= uses (window_start (calm []) (PatternAnalyzer.mk 7 5 None) empty_world)
          (Some "gemma") gemma_week.
Proof.
  pose proof (recommendation_is_most_used
                (calm []) (PatternAnalyzer.mk 7 5 None) gemma_week empty_world)
    as H.
  cbv zeta in H. destruct H as [_ H].
  apply (H "gemma"). reflexivity.
Defined.

(** X21.  [should_switch_model] names a model exactly when that model
    has a name, is not the current one, was used at least
    [min_requests] times inside the window and accounts for at least
    60% of the rows of the window. *)
Theorem switch_needs_sixty_percent env self requests current w m :
  let start := window_start env self w in
  let total := Z.of_nat (List.length (in_window start requests)) in
  snd (PatternAnalyzer.should_switch_model env self requests current w)
  = Some m
  <-> m <> EmptyString
      /\ current <> Some m
      /\ 0 < uses start (Some m) requests
      /\ PatternAnalyzer.min_requests self <= uses start (Some m) requests
      /\ 3 * total <= 5 * uses start (Some m) requests.
Proof.
  intros start total.
  destruct (analysis_outcome env self requests w) as (_ & O2 & O3).
  fold start total in O2, O3.
  unfold PatternAnalyzer.should_switch_model.
  destruct (PatternAnalyzer.analyze_patterns env self requests w)
    as [[self' w'] a].
  cbn [snd] in O2, O3.
  pose proof (uses_le_window start (Some m) requests) as Le. fold total in Le.
  split.
  - destruct (PatternAnalyzer.recommended_model a) as [rec|] eqn:R;
      [|discriminate].
    destruct (O2 rec eq_refl) as (U & Mn & _ & Cf).
    pose proof (uses_le_window start (Some rec) requests) as Le'.
    fold total in Le'.
    destruct (String.eqb rec EmptyString) eqn:Em; [discriminate|].
    destruct (PatternAnalyzer.Key_eqb current (Some rec)) eqn:Ec;
      [discriminate|].
    rewrite Cf, confidence_test by lia.
    destruct (3 * total <=? 5 * uses start (Some rec) requests) eqn:Sx;
      cbn [negb snd]; [|discriminate].
    intros E. injection E as <-.
    apply String.eqb_neq in Em. apply Key_eqb_neq in Ec. apply Z.leb_le in Sx.
    repeat split; assumption.
  - intros (Em & Ec & U & Mn & Sx).
    assert (R : PatternAnalyzer.recommended_model a = Some m).
    { apply O3; try assumption. intros k D.
      pose proof (uses_two start k (Some m) requests D) as Two.
      fold total in Two. pose proof (uses_nonneg start k requests). lia. }
    rewrite R. destruct (O2 m R) as (_ & _ & _ & Cf).
    apply String.eqb_neq in Em. apply Key_eqb_neq in Ec.
    rewrite Em, Ec, Cf, confidence_test by lia.
    apply Z.leb_le in Sx. rewrite Sx. reflexivity.
Qed.

Lemma switch_needs_sixty_percent_witness :
  snd (PatternAnalyzer.should_switch_model
         (calm []) (PatternAnalyzer.mk 7 5 None) gemma_week (Some "deepseek")
         empty_world)
  = Some "gemma".
Proof.
  apply switch_needs_sixty_percent.
  split; [discriminate|]. split; [discriminate|].
  split; [reflexivity|]. split; apply Z.leb_le; reflexivity.
Defined.

(* ===================================================================== *)
(** ** Environment variables in the configuration *)
(* ===================================================================== *)

(** X22.  A configuration none of whose placeholders names a variable
    that is set comes back unchanged: an unset variable leaves its
    placeholder in place, and nothing but a placeholder is ever
    replaced. *)
Theorem unset_variables_keep_placeholders getenv data :
  (forall name, In name (placeholders data) -> getenv name = None) ->
  Config._replace_env_vars getenv data = data.
Proof.
  induction data as [items IH|items IH|s|v] using Yaml_induction;
    intros Unset.
  - cbn [Config._replace_env_vars]. f_equal.
    cbn [placeholders] in Unset.
    induction IH as [|[k v] rest Hv _ IHrest]; [reflexivity|].
    cbn [map]. cbn [flat_map] in Unset. f_equal.
    + f_equal. apply Hv. intros name H. apply Unset, in_or_app. now left.
    + apply IHrest. intros name H. apply Unset, in_or_app. now right.
  - cbn [Config._replace_env_vars]. f_equal.
    cbn [placeholders] in Unset.
    induction IH as [|v rest Hv _ IHrest]; [reflexivity|].
    cbn [map]. cbn [flat_map] in Unset. f_equal.
    + apply Hv. intros name H. apply Unset, in_or_app. now left.
    + apply IHrest. intros name H. apply Unset, in_or_app. now right.
  - cbn [Config._replace_env_vars placeholders] in *.
    destruct (Config.startswith "${" s && Config.endswith "}" s);
      [|reflexivity].
    rewrite Unset by (now left). reflexivity.
  - reflexivity.
Qed.

Lemma unset_variables_keep_placeholders_witness :
  Config._replace_env_vars home_only sample_config = sample_config.
Proof.
  apply unset_variables_keep_placeholders.
  intros name H. cbn in H.
  destruct H as [<-|[<-|[]]]; reflexivity.
Defined.
